(** * multimodal-2D-ResNet+3D-features.py: patient-level bookkeeping

    A shallow embedding of the data set class [GetLoader], of the
    evaluation function [test] and of the epoch loop of [train], together
    with the properties the specification states about them.

    Conventions.
    - Floating-point numbers (torch float32 tensors, numpy float64 arrays,
      Python floats) are exact rationals extended with NaN and the two
      infinities ([npfloat]); rounding and signed zeros are not modelled.
    - Python exceptions are values of [exn]; code that can raise lives in
      the [result] monad.
    - The network's forward pass, the cross-entropy loss and the image
      transforms are opaque: their outputs are inputs of the model. *)

From Stdlib Require Import QArith Qminmax Lia Lqa ZArith.
From stdpp Require Import base option list strings gmap.

Set Default Proof Using "Type".

(** ** Python exceptions and the error monad *)

Inductive exn : Type :=
  | KeyError (key : string)
  | IndexError
  | FileNotFoundError (filename : string)
  | ValueError
  | ZeroDivisionError.

Inductive result (A : Type) : Type :=
  | Ok (a : A)
  | Raise (e : exn).
Arguments Ok {A} a.
Arguments Raise {A} e.

#[global] Instance result_ret : MRet result := λ A a, Ok a.

#[global] Instance result_bind : MBind result := λ A B k m,
  match m with
  | Ok a => k a
  | Raise e => Raise e
  end.

Open Scope Q_scope.

(** ** Floating-point values *)

Inductive npfloat : Type :=
  | NaN
  | PInf
  | NInf
  | Fin (q : Q).

Module fl.

Definition Qltb (a b : Q) : bool := negb (Qle_bool b a).

Definition of_int (z : Z) : npfloat := Fin (inject_Z z).

Definition neg (x : npfloat) : npfloat :=
  match x with
  | NaN => NaN
  | PInf => NInf
  | NInf => PInf
  | Fin q => Fin (- q)
  end.

Definition add (x y : npfloat) : npfloat :=
  match x, y with
  | NaN, _ | _, NaN => NaN
  | PInf, NInf | NInf, PInf => NaN
  | PInf, _ | _, PInf => PInf
  | NInf, _ | _, NInf => NInf
  | Fin a, Fin b => Fin (a + b)
  end.

Definition sub (x y : npfloat) : npfloat := add x (neg y).

Definition mul (x y : npfloat) : npfloat :=
  match x, y with
  | NaN, _ | _, NaN => NaN
  | Fin a, Fin b => Fin (a * b)
  | Fin a, PInf | PInf, Fin a =>
      if Qeq_bool a 0 then NaN else if Qltb 0 a then PInf else NInf
  | Fin a, NInf | NInf, Fin a =>
      if Qeq_bool a 0 then NaN else if Qltb 0 a then NInf else PInf
  | PInf, PInf | NInf, NInf => PInf
  | PInf, NInf | NInf, PInf => NInf
  end.

(** IEEE division: [0/0] is NaN and [a/0] an infinity; no exception. *)
Definition div (x y : npfloat) : npfloat :=
  match x, y with
  | NaN, _ | _, NaN => NaN
  | Fin a, Fin b =>
      if Qeq_bool b 0
      then if Qeq_bool a 0 then NaN else if Qltb 0 a then PInf else NInf
      else Fin (a / b)
  | Fin _, (PInf | NInf) => Fin 0
  | PInf, Fin b => if Qltb b 0 then NInf else PInf
  | NInf, Fin b => if Qltb b 0 then PInf else NInf
  | (PInf | NInf), (PInf | NInf) => NaN
  end.

(** [x < y]; every comparison with NaN is false. *)
Definition ltb (x y : npfloat) : bool :=
  match x, y with
  | NaN, _ | _, NaN => false
  | _, NInf => false
  | NInf, _ => true
  | PInf, _ => false
  | Fin _, PInf => true
  | Fin a, Fin b => Qltb a b
  end.

(** [x >= y]. *)
Definition geb (x y : npfloat) : bool :=
  match x, y with
  | NaN, _ | _, NaN => false
  | _, NInf => true
  | NInf, _ => false
  | PInf, _ => true
  | Fin _, PInf => false
  | Fin a, Fin b => Qle_bool b a
  end.

Definition is_nan (x : npfloat) : bool :=
  match x with NaN => true | _ => false end.

Definition is_fin (x : npfloat) : bool :=
  match x with Fin _ => true | _ => false end.

(** Equality of values (the rationals up to [==]). *)
Definition eqv (x y : npfloat) : Prop :=
  match x, y with
  | NaN, NaN | PInf, PInf | NInf, NInf => True
  | Fin a, Fin b => a == b
  | _, _ => False
  end.

(** [lo <= x <= hi] for a finite [x]. *)
Definition between (lo hi : Q) (x : npfloat) : Prop :=
  match x with
  | Fin q => lo <= q ∧ q <= hi
  | _ => False
  end.

End fl.

(** ** Python dictionaries

    A [dict] keeps its keys in insertion order ([keys]); the values live
    in a finite map.  The dictionaries of the program are all built by
    [Series.to_dict()] from an [ID] column and a value column. *)

Record dict (V : Type) : Type := Dict {
  keys : list string;
  items : gmap string V
}.
Arguments Dict {V} keys items.
Arguments keys {V} d.
Arguments items {V} d.

Module dict_ops.

Definition empty {V} : dict V := Dict [] ∅.

(** [d[k] = v]: a new key goes last, an old key keeps its place. *)
Definition set {V} (k : string) (v : V) (d : dict V) : dict V :=
  match items d !! k with
  | Some _ => Dict (keys d) (<[k := v]> (items d))
  | None => Dict (keys d ++ [k]) (<[k := v]> (items d))
  end.

(** [d[k]], raising [KeyError]. *)
Definition get {V} (d : dict V) (k : string) : result V :=
  match items d !! k with
  | Some v => Ok v
  | None => Raise (KeyError k)
  end.

(** [series.to_dict()] for rows [(ID, value)], in row order. *)
Definition of_rows {V} (rows : list (string * V)) : dict V :=
  fold_left (λ d kv, set kv.1 kv.2 d) rows empty.

(** [csv.loc[:, 'label'].map(lambda x: [])] indexed by ID. *)
Definition empty_lists {A V} (rows : list (string * A)) : dict (list V) :=
  of_rows (map (λ kv, (kv.1, [])) rows).

(** [d[k].append(v)]. *)
Definition append {V} (d : dict (list V)) (k : string) (v : V)
  : result (dict (list V)) :=
  match items d !! k with
  | Some l => Ok (Dict (keys d) (<[k := l ++ [v]]> (items d)))
  | None => Raise (KeyError k)
  end.

End dict_ops.

(** ** Per-patient aggregation of slice outputs *)

(** A softmax output for the two classes: index 0 and index 1. *)
Definition vec2 : Type := (Q * Q)%type.

(** A two-element float tensor, as [ll]. *)
Definition tensor2 : Type := (npfloat * npfloat)%type.

Definition tensor_add (ll : tensor2) (i : vec2) : tensor2 :=
  (fl.add ll.1 (Fin i.1), fl.add ll.2 (Fin i.2)).

(** [ll = torch.tensor([0.0, 0.0]); for i in d[key]: ll += i;
    ll /= len(d[key])] (lines 520-523 and 664-667). *)
Definition aggregate (outs : list vec2) : tensor2 :=
  let ll := fold_left tensor_add outs (Fin 0, Fin 0) in
  let n := fl.of_int (Z.of_nat (length outs)) in
  (fl.div ll.1 n, fl.div ll.2 n).

(** The arithmetic mean in the specification's words: the component-wise
    sum divided by the number of slices. *)
Definition Qsum (l : list Q) : Q := fold_right Qplus 0 l.


(** ** Strings and paths *)

Module str.

(** [s.replace(old, new)] for a non-empty [old]: every occurrence of
    [old], found left to right without overlap, becomes [new].  [skip]
    counts the characters of a matched [old] still to be dropped. *)
Fixpoint replace_go (old new : string) (skip : nat) (s : string) : string :=
  match s with
  | EmptyString => EmptyString
  | String c r =>
      match skip with
      | S k => replace_go old new k r
      | O =>
          if String.prefix old s
          then new +:+ replace_go old new (String.length old - 1) r
          else String c (replace_go old new 0 r)
      end
  end.

Definition replace (s old new : string) : string := replace_go old new 0 s.

End str.

(** A [pathlib.Path], as the list of its components. *)
Definition Path : Type := list string.

Module path.

(** [str(p)] *)
Definition str (p : Path) : string := String.concat "/" p.

(** [p.parent.name]: the directory holding the file. *)
Definition parent_name (p : Path) : string :=
  match rev p with
  | _ :: d :: _ => d
  | _ => ""
  end.

End path.

(** ** The data set class [GetLoader] *)

(** The two transform pipelines; what they compute is opaque. *)
Inductive compose : Type :=
  | train_compose
  | test_compose.

Section GetLoader.

(** A decoded single-channel image, and whether its array can be
    assigned to one 240x240 channel of the stacked image. *)
Variable Image : Type.
Variable fits : Image → bool.

(** The four channels of [image], in the order T1, T2, T1c, FLAIR. *)
Record StackedImage : Type := Stack {
  ch0 : Image;
  ch1 : Image;
  ch2 : Image;
  ch3 : Image
}.

Record GetLoader : Type := Loader {
  type_ : string;
  transform : compose;
  people_classify : dict Z;
  pic_files : list Path
}.

(** The dictionary [rs] returned for one slice.  [img] is
    [self.transform(image)], kept as the pipeline and its argument. *)
Record sample : Type := Sample {
  img : compose * StackedImage;
  label_pre : Z;
  label : list Z;
  sample_id : string;
  image_path : string
}.

(** [Image.open(path)]; [fs] holds the files on disk, by path. *)
Definition Image_open (fs : gmap string Image) (p : string) : result Image :=
  match fs !! p with
  | Some im => Ok im
  | None => Raise (FileNotFoundError p)
  end.

(** [image[:, :, c] = np.array(img)] for the four channels. *)
Definition stack (t1 t2 t1c flair : Image) : result StackedImage :=
  if fits t1 && fits t2 && fits t1c && fits flair
  then Ok (Stack t1 t2 t1c flair)
  else Raise ValueError.

(** [GetLoader.__init__].  [csv] are the rows (ID, label) of the split's
    manifest, [rglob] lists the PNG files below a directory and
    [shuffle] is the outcome of [random.shuffle]. *)
Definition init (root : Path) (ty : string) (csv : list (string * Z))
    (rglob : Path → list Path) (shuffle : list Path → list Path)
  : result GetLoader :=
  let tr := if String.eqb ty "train" then train_compose else test_compose in
  let classify := dict_ops.of_rows csv in
  let '(four_pic, two_pic) :=
    fold_left
      (λ '(four, two) p,
         let pic_file := rglob (root ++ [p]) in
         if bool_decide (items classify !! p = Some 4%Z)
         then (four ++ pic_file, two)
         else (four, two ++ pic_file))
      (keys classify) ([], []) in
  if String.eqb ty "train"
  then
    (* ratio2 = int(len(self.four_pic) // len(self.two_pic)) *)
    if bool_decide (length two_pic = 0%nat) then Raise ZeroDivisionError
    else Ok (Loader ty tr classify (shuffle (two_pic ++ four_pic)))
  else Ok (Loader ty tr classify (four_pic ++ two_pic)).

(** [GetLoader.__getitem__]: the sample, and the object afterwards
    ([self.transform] may have been reassigned). *)
Definition getitem (fs : gmap string Image) (self : GetLoader) (index : nat)
  : result (sample * GetLoader) :=
  file ← match pic_files self !! index with
         | Some f => Ok f
         | None => Raise IndexError
         end;
  let img_t1_path := path.str file in
  let img_t2_path := str.replace img_t1_path "T1" "T2" in
  let img_t1c_path := str.replace img_t1_path "T1" "T1c" in
  let img_flair_path := str.replace img_t1_path "T1" "FLAIR" in
  img_t1 ← Image_open fs img_t1_path;
  img_t2 ← Image_open fs img_t2_path;
  img_t1c ← Image_open fs img_t1c_path;
  img_flair ← Image_open fs img_flair_path;
  image ← stack img_t1 img_t2 img_t1c img_flair;
  let people := path.parent_name file in
  y ← dict_ops.get (people_classify self) people;
  let '(one_hot, tr) :=
    if (y =? 2)%Z then ([0; 1]%Z, transform self)
    else ([1; 0]%Z,
          if String.eqb (type_ self) "train" then test_compose
          else transform self) in
  Ok (Sample (tr, image) (y - 2)%Z one_hot people img_t1_path,
      Loader (type_ self) tr (people_classify self) (pic_files self)).

(** One pass of a [DataLoader] over the indices [idxs], on one and the
    same data set object (no worker processes: [num_workers] is 0). *)
Fixpoint fetch (fs : gmap string Image) (self : GetLoader) (idxs : list nat)
  : result (list sample * GetLoader) :=
  match idxs with
  | [] => Ok ([], self)
  | i :: rest =>
      '(rs, self1) ← getitem fs self i;
      '(more, self2) ← fetch fs self1 rest;
      Ok (rs :: more, self2)
  end.

(** The pipeline applied to a sample. *)
Definition pipeline (rs : sample) : compose := (img rs).1.

(** The patient label of a sample, recovered from [label_pre = y - 2]. *)
Definition patient_label (rs : sample) : Z := (label_pre rs + 2)%Z.

End GetLoader.

Arguments Stack {Image}.
Arguments Sample {Image}.
Arguments ch0 {Image}.
Arguments ch1 {Image}.
Arguments ch2 {Image}.
Arguments ch3 {Image}.
Arguments img {Image}.
Arguments label_pre {Image}.
Arguments label {Image}.
Arguments sample_id {Image}.
Arguments image_path {Image}.
Arguments pipeline {Image}.
Arguments patient_label {Image}.
Arguments getitem {Image}.
Arguments fetch {Image}.
Arguments Image_open {Image}.

(** ** Python lists and loops *)

(** [l[i]] with Python's bounds check. *)
Definition index {A} (l : list A) (i : nat) : result A :=
  match l !! i with
  | Some a => Ok a
  | None => Raise IndexError
  end.

(** A loop that threads an accumulator and stops at the first exception. *)
Fixpoint foldM {A B} (f : A → B → result A) (a : A) (l : list B) : result A :=
  match l with
  | [] => Ok a
  | b :: r => a1 ← f a b; foldM f a1 r
  end.

(** ** numpy *)

Module np.

(** Whether [x] replaces the running maximum [best]: a NaN is kept once
    found, and is taken over any number. *)
Definition better (best x : npfloat) : bool :=
  negb (fl.is_nan best) && (fl.is_nan x || fl.ltb best x).

Fixpoint argmax_go (bi : nat) (best : npfloat) (i : nat) (l : list npfloat)
  : nat :=
  match l with
  | [] => bi
  | x :: r =>
      if better best x then argmax_go i x (S i) r
      else argmax_go bi best (S i) r
  end.

(** [np.argmax(y)]: the index of the first maximum (of the first NaN
    when there is one); an empty array raises. *)
Definition argmax (y : list npfloat) : result nat :=
  match y with
  | [] => Raise ValueError
  | x :: r => Ok (argmax_go 0 x 1 r)
  end.

(** [np.sum(mask)] for the element-wise mask [f a[i] b[i]]. *)
Definition count_where (f : Z → Z → bool) (a b : list Z) : Z :=
  Z.of_nat (length (filter (λ ab, f ab.1 ab.2 = true) (zip a b))).

(** [a / b] on numpy integers: a float, never an exception. *)
Definition true_divide (a b : Z) : npfloat :=
  fl.div (fl.of_int a) (fl.of_int b).

(** [np.trapz(y, x)] *)
Fixpoint trapz (y x : list npfloat) : npfloat :=
  match y, x with
  | y0 :: ((y1 :: _) as yr), x0 :: ((x1 :: _) as xr) =>
      fl.add (fl.div (fl.mul (fl.sub x1 x0) (fl.add y1 y0)) (Fin 2))
             (trapz yr xr)
  | _, _ => Fin 0
  end.

(** [np.diff(x)] *)
Fixpoint diff (x : list npfloat) : list npfloat :=
  match x with
  | x0 :: ((x1 :: _) as r) => fl.sub x1 x0 :: diff r
  | _ => []
  end.

End np.

(** ** scikit-learn: [metrics.roc_curve] and [metrics.auc]

    The library functions the program calls, written after the library's
    algorithm ([_binary_clf_curve], then [drop_intermediate=True], then
    the added first point, whose threshold is [np.inf] from scikit-learn
    1.3 on and [max(y_score) + 1] before). *)

Module metrics.

(** One point of the curve before normalisation: false positives and
    true positives at a threshold. *)
Record point : Type := Point {
  fps : Z;
  tps : Z;
  thr : Q
}.

Record curve : Type := Curve {
  fpr : list npfloat;
  tpr : list npfloat;
  thresholds : list npfloat
}.

(** Stable insertion by ascending score. *)
Fixpoint insert (x : bool * Q) (l : list (bool * Q)) : list (bool * Q) :=
  match l with
  | [] => [x]
  | y :: r => if Qle_bool x.2 y.2 then x :: l else y :: insert x r
  end.

(** [np.argsort(y_score, kind="mergesort")[::-1]] applied to the pairs. *)
Definition sort_desc (l : list (bool * Q)) : list (bool * Q) :=
  rev (fold_right insert [] l).

(** Walk the sorted pairs with the running number of positives [tp] and
    of pairs seen [n]; emit a point at the last pair of each run of equal
    scores. *)
Fixpoint clf_walk (tp n : Z) (l : list (bool * Q)) : list point :=
  match l with
  | [] => []
  | (b, s) :: r =>
      let tp1 := (tp + (if b then 1 else 0))%Z in
      let n1 := (n + 1)%Z in
      match r with
      | [] => [Point (n1 - tp1) tp1 s]
      | (_, s1) :: _ =>
          if Qeq_bool s s1 then clf_walk tp1 n1 r
          else Point (n1 - tp1) tp1 s :: clf_walk tp1 n1 r
      end
  end.

Definition binary_clf_curve (y_true : list Z) (y_score : list Q)
  : list point :=
  clf_walk 0 0 (sort_desc (zip (map (λ t, (t =? 1)%Z) y_true) y_score)).

(** A non-zero second difference of [fps] or of [tps] at [b]. *)
Definition is_corner (a b c : point) : bool :=
  negb (fps c - 2 * fps b + fps a =? 0)%Z
  || negb (tps c - 2 * tps b + tps a =? 0)%Z.

(** The points after the first one that [drop_intermediate] keeps: the
    corners and the last point. *)
Fixpoint corners (l : list point) : list point :=
  match l with
  | [] => []
  | a :: r =>
      match r with
      | [] => []
      | [b] => [b]
      | b :: c :: _ => if is_corner a b c then b :: corners r else corners r
      end
  end.

Definition drop_intermediate (l : list point) : list point :=
  match l with
  | a :: _ :: _ :: _ => a :: corners l
  | _ => l
  end.

(** [fps / fps[-1]], or all NaN when the last count is not positive. *)
Definition rates (counts : list Z) : list npfloat :=
  let total := List.last counts 0%Z in
  if (total <=? 0)%Z then map (λ _, NaN) counts
  else map (λ c, np.true_divide c total) counts.

(** The scores as rationals, when they are all finite. *)
Fixpoint finite_scores (l : list npfloat) : option (list Q) :=
  match l with
  | [] => Some []
  | Fin q :: r => (q ::.) <$> finite_scores r
  | _ :: _ => None
  end.

(** The input checks of [roc_curve]: a non-empty label array with
    classes among {0,1} or among {-1,1}, and as many scores. *)
Definition binary_labels (y_true : list Z) : bool :=
  negb (bool_decide (y_true = []))
  && (forallb (λ t, (t =? 0)%Z || (t =? 1)%Z) y_true
      || forallb (λ t, (t =? -1)%Z || (t =? 1)%Z) y_true).

Definition roc_curve (y_true : list Z) (y_score : list npfloat)
  : result curve :=
  if negb (binary_labels y_true) then Raise ValueError
  else if negb (length y_true =? length y_score)%nat then Raise ValueError
  else
    match finite_scores y_score with
    | None => Raise ValueError
    | Some scores =>
        let pts := drop_intermediate (binary_clf_curve y_true scores) in
        Ok (Curve (rates (0%Z :: map fps pts))
                  (rates (0%Z :: map tps pts))
                  (PInf :: map (λ p, Fin (thr p)) pts))
    end.

(** [metrics.auc(x, y)]: the trapezoidal rule, for [x] monotone. *)
Definition auc (x y : list npfloat) : result npfloat :=
  if negb (length x =? length y)%nat then Raise ValueError
  else if (length x <? 2)%nat then Raise ValueError
  else
    let dx := np.diff x in
    if existsb (λ d, fl.ltb d (Fin 0)) dx
    then
      if forallb (λ d, fl.geb (Fin 0) d) dx
      then Ok (fl.neg (np.trapz y x))
      else Raise ValueError
    else Ok (np.trapz y x).

End metrics.

(** ** [statis_auc]: the Youden-optimal threshold *)

Record auc_stats : Type := AucStats {
  optimal_threshold : npfloat;
  stat_point : npfloat * npfloat;
  stat_fpr : list npfloat;
  stat_tpr : list npfloat;
  stat_auc : npfloat
}.

(** [y = tpr - fpr] *)
Definition youden (c : metrics.curve) : list npfloat :=
  zip_with fl.sub (metrics.tpr c) (metrics.fpr c).

Definition statis_auc (ytrue : list Z) (ypred : list npfloat)
  : result auc_stats :=
  c ← metrics.roc_curve ytrue ypred;
  youden_index ← np.argmax (youden c);
  threshold ← index (metrics.thresholds c) youden_index;
  x ← index (metrics.fpr c) youden_index;
  y ← index (metrics.tpr c) youden_index;
  roc_auc ← metrics.auc (metrics.fpr c) (metrics.tpr c);
  Ok (AucStats threshold (x, y) (metrics.fpr c) (metrics.tpr c) roc_auc).

(** ** Confusion matrices *)

(** A [num_class] x [num_class] tensor of counts, row by row. *)
Definition matrix : Type := list (list Z).

Definition zeros (rows cols : nat) : matrix :=
  replicate rows (replicate cols 0%Z).

(** [m[t, p]] *)
Definition cell (m : matrix) (t p : nat) : option Z :=
  row ← m !! t; row !! p.

(** [m[t, p] += num] *)
Definition add_at (m : matrix) (t p : nat) (num : Z) : result matrix :=
  match m !! t with
  | Some row =>
      match row !! p with
      | Some v => Ok (<[t := <[p := (v + num)%Z]> row]> m)
      | None => Raise IndexError
      end
  | None => Raise IndexError
  end.

(** [confusion_matrix(preds, labels, conf_matrix, num)] (lines 418-421):
    [for p, t in zip(preds, labels): conf_matrix[t, p] += num]. *)
Fixpoint confusion_matrix (preds labels : list nat) (conf_matrix : matrix)
    (num : Z) : result matrix :=
  match preds, labels with
  | p :: ps, t :: ts =>
      m ← add_at conf_matrix t p num;
      confusion_matrix ps ts m num
  | _, _ => Ok conf_matrix
  end.

(** ** One pass over a loader *)

(** What one step of a loader loop yields once the network has run: the
    patient id and softmax output of every slice of the batch, and the
    batch's cross-entropy loss. *)
Record batch : Type := Batch {
  slices : list (string * vec2);
  loss : npfloat
}.

(** Lines 499-512 and 644-655: the radiomic vector of every slice is
    looked up in [dict_new], then every output is appended to its
    patient's list. *)
Definition record_batch (dict_new : dict (list Q))
    (acc : dict (list vec2)) (b : batch) : result (dict (list vec2)) :=
  _ ← mapM (λ s, dict_ops.get dict_new s.1) (slices b);
  foldM (λ d s, dict_ops.append d s.1 s.2) acc (slices b).

(** [loss_sum / len(loader)] on Python numbers. *)
Definition loss_average (steps : list batch) : result npfloat :=
  if bool_decide (steps = []) then Raise ZeroDivisionError
  else Ok (fl.div (fold_left (λ s b, fl.add s (loss b)) steps (Fin 0))
                  (fl.of_int (Z.of_nat (length steps)))).

(** [torch.max(ll.unsqueeze(0), 1)[1]]: the index of the larger entry,
    index 0 on a tie; a NaN counts as the largest. *)
Definition torch_argmax (ll : tensor2) : nat :=
  if fl.is_nan ll.1 then 0%nat
  else if fl.is_nan ll.2 then 1%nat
  else if fl.ltb ll.1 ll.2 then 1%nat else 0%nat.

(** The class index of a patient label: [[0, 1]] for label 2, [[1, 0]]
    otherwise, then the argmax. *)
Definition target_index (target : Z) : nat :=
  if (target =? 2)%Z then 1%nat else 0%nat.

(** ** [test] *)

(** Lines 531-537: the true label appended to [ll_ytrue], 0 for patient
    label 2 and 1 otherwise. *)
Definition patient_truth (target : Z) : Z :=
  if (target =? 2)%Z then 0%Z else 1%Z.

(** Lines 519-537, for one key: the true label and the score, the
    averaged probability of class index 0. *)
Definition score_patient (dict_test : dict (list vec2)) (dict_label : dict Z)
    (key : string) : result (Z * npfloat) :=
  outs ← dict_ops.get dict_test key;
  let ll := aggregate outs in
  let l_positive := ll.1 in
  target ← dict_ops.get dict_label key;
  Ok (patient_truth target, l_positive).

(** Line 555: [(ll_ytrue >= optimal_threshold).astype(int)]. *)
Definition binarize (ll_ytrue : list Z) (threshold : npfloat) : list Z :=
  map (λ t, if fl.geb (fl.of_int t) threshold then 1%Z else 0%Z) ll_ytrue.

(** The local variables of [test] when it returns. *)
Record test_locals : Type := TestLocals {
  loss_avg : npfloat;
  ll_ytrue : list Z;
  ll_ypred : list npfloat;
  stats : auc_stats;
  y_pred_binary : list Z;
  TP : Z;
  TN : Z;
  FP : Z;
  FN : Z;
  SEN : npfloat;
  SPE : npfloat;
  mAP : npfloat;
  acc : npfloat;
  conf_matrix : matrix
}.

(** Lines 557-560. *)
Definition count_TP (ytrue pred : list Z) : Z :=
  np.count_where (λ t p, (t =? 1)%Z && (p =? 1)%Z) ytrue pred.
Definition count_TN (ytrue pred : list Z) : Z :=
  np.count_where (λ t p, (t =? 0)%Z && (p =? 0)%Z) ytrue pred.
Definition count_FP (ytrue pred : list Z) : Z :=
  np.count_where (λ t p, (t =? 1)%Z && (p =? 0)%Z) ytrue pred.
Definition count_FN (ytrue pred : list Z) : Z :=
  np.count_where (λ t p, (t =? 0)%Z && (p =? 1)%Z) ytrue pred.

(** Lines 561-566. *)
Definition sensitivity (tp fn : Z) : npfloat := np.true_divide tp (tp + fn).
Definition specificity (tn fp : Z) : npfloat := np.true_divide tn (tn + fp).
Definition balanced (sen spe : npfloat) : npfloat :=
  fl.div (fl.add sen spe) (Fin 2).
Definition accuracy (tp tn fp fn : Z) : npfloat :=
  np.true_divide (tp + tn) (tp + tn + fp + fn).

(** Lines 568-571. *)
Definition test_conf_matrix (tp tn fp fn : Z) : result matrix :=
  m ← confusion_matrix [0%nat] [0%nat] (zeros 2 2) tp;
  m ← confusion_matrix [1%nat] [1%nat] m tn;
  m ← confusion_matrix [0%nat] [1%nat] m fp;
  confusion_matrix [1%nat] [0%nat] m fn.

(** The body of [test] from the loader loop on.  The per-class counters
    [acc_2], [acc_4] are computed and dropped by the source and are left
    out. *)
Definition test_body (steps : list batch) (dict_test : dict (list vec2))
    (dict_label : dict Z) (dict_new : dict (list Q)) : result test_locals :=
  dict_test ← foldM (record_batch dict_new) dict_test steps;
  loss_avg ← loss_average steps;
  scored ← mapM (score_patient dict_test dict_label) (keys dict_test);
  let ll_ytrue := map fst scored in
  let ll_ypred := map snd scored in
  st ← statis_auc ll_ytrue ll_ypred;
  let y_pred_binary := binarize ll_ytrue (optimal_threshold st) in
  let tp := count_TP ll_ytrue y_pred_binary in
  let tn := count_TN ll_ytrue y_pred_binary in
  let fp := count_FP ll_ytrue y_pred_binary in
  let fn := count_FN ll_ytrue y_pred_binary in
  let sen := sensitivity tp fn in
  let spe := specificity tn fp in
  cm ← test_conf_matrix tp tn fp fn;
  Ok (TestLocals loss_avg ll_ytrue ll_ypred st y_pred_binary tp tn fp fn
        sen spe (balanced sen spe) (accuracy tp tn fp fn) cm).

(** What [test] returns:
    [loss_avg, conf_matrix, fpr, tpr, roc_auc, SEN, SPE, mAP, acc]. *)
Record test_result : Type := TestResult {
  r_loss : npfloat;
  r_conf_matrix : matrix;
  r_fpr : list npfloat;
  r_tpr : list npfloat;
  r_auc : npfloat;
  r_SEN : npfloat;
  r_SPE : npfloat;
  r_mAP : npfloat;
  r_acc : npfloat
}.

Definition test (steps : list batch) (dict_test : dict (list vec2))
    (dict_label : dict Z) (dict_new : dict (list Q)) : result test_result :=
  v ← test_body steps dict_test dict_label dict_new;
  Ok (TestResult (loss_avg v) (conf_matrix v) (stat_fpr (stats v))
        (stat_tpr (stats v)) (stat_auc (stats v))
        (SEN v) (SPE v) (mAP v) (acc v)).

(** ** [train] *)

(** The variables of [train] that live across epochs.  [best_ckpt] is the
    epoch stored in [best_acc.pth.tar], [checkpoints] the per-epoch files
    written so far. *)
Record train_state : Type := TrainState {
  dict_last : dict (list vec2);
  min_acc_loss : npfloat;
  best_ckpt : option nat;
  checkpoints : list nat
}.

(** The network's outputs during one epoch: on the training loader, and
    on the test loader with that epoch's checkpoint. *)
Record epoch_input : Type := EpochInput {
  train_steps : list batch;
  test_steps : list batch
}.

(** What an epoch prints and logs. *)
Record epoch_report : Type := EpochReport {
  i_epoch : nat;
  train_loss : npfloat;
  conf_matrix_train : matrix;
  train_mAP : npfloat;
  train_acc_all : npfloat;
  test_res : test_result;
  best_updated : bool
}.

(** Lines 663-688, for one key: average, predict, count, and add one to
    the training confusion matrix. *)
Definition tally_patient (dict_last : dict (list vec2)) (dict_label : dict Z)
    (st : Z * Z * matrix) (key : string) : result (Z * Z * matrix) :=
  let '(acc_2, acc_4, cm) := st in
  outs ← dict_ops.get dict_last key;
  let ll := aggregate outs in
  let prediction := torch_argmax ll in
  target ← dict_ops.get dict_label key;
  let target_pre := target_index target in
  let hit := bool_decide (prediction = target_pre) in
  let acc_2 := if bool_decide (target_pre = 1%nat) && hit
               then (acc_2 + 1)%Z else acc_2 in
  let acc_4 := if negb (bool_decide (target_pre = 1%nat) && hit)
                  && bool_decide (target_pre = 0%nat) && hit
               then (acc_4 + 1)%Z else acc_4 in
  cm ← confusion_matrix [prediction] [target_pre] cm 1;
  Ok (acc_2, acc_4, cm).

(** Lines 746-751: whether [best_acc.pth.tar] is written, and the new
    [min_acc_loss]. *)
Definition update_best (loss_test min_acc_loss : npfloat) : bool * npfloat :=
  if fl.ltb loss_test min_acc_loss then (true, loss_test)
  else (false, min_acc_loss).

Section Train.

(** The rows of [train.csv] and [test.csv], and the radiomic table. *)
Variable train_csv : list (string * Z).
Variable test_csv : list (string * Z).
Variable dict_new : dict (list Q).

(** Lines 592-599. *)
Definition dict_label : dict Z := dict_ops.of_rows train_csv.

(** Lines 592-595 and 630: the state before the first epoch. *)
Definition initial_state : train_state :=
  TrainState (dict_ops.empty_lists train_csv) (Fin 10) None [].

(** The body of the epoch loop, lines 634-751. *)
Definition train_epoch (n : nat) (inp : epoch_input) (st : train_state)
  : result (train_state * epoch_report) :=
  d ← foldM (record_batch dict_new) (dict_last st) (train_steps inp);
  loss_avg ← loss_average (train_steps inp);
  '(acc_2, acc_4, cm) ←
    foldM (tally_patient d dict_label) (0%Z, 0%Z, zeros 2 2) (keys d);
  let acc_all := np.true_divide (acc_2 + acc_4) 364 in
  let acc := fl.div (fl.add (np.true_divide acc_2 78)
                            (np.true_divide acc_4 286)) (Fin 2) in
  (* lines 713-720: a new dict_test for this evaluation pass *)
  let dict_test := dict_ops.empty_lists test_csv in
  let dict_label_test := dict_ops.of_rows test_csv in
  res ← test (test_steps inp) dict_test dict_label_test dict_new;
  let loss_test := r_loss res in
  let '(better, low) := update_best loss_test (min_acc_loss st) in
  Ok (TrainState d low (if better then Some n else best_ckpt st)
        (checkpoints st ++ [n]),
      EpochReport n loss_avg cm (fl.mul acc (Fin 100))
        (fl.mul acc_all (Fin 100)) res better).

(** [for i_epoch in range(n, n + len(inputs))]. *)
Fixpoint run_epochs (n : nat) (inputs : list epoch_input) (st : train_state)
  : result (train_state * list epoch_report) :=
  match inputs with
  | [] => Ok (st, [])
  | inp :: rest =>
      '(st1, rep) ← train_epoch n inp st;
      '(st2, reps) ← run_epochs (S n) rest st1;
      Ok (st2, rep :: reps)
  end.

(** [train()]: [epoch = 20] epochs, numbered from 1. *)
Definition train (inputs : nat → epoch_input)
  : result (train_state * list epoch_report) :=
  run_epochs 1 (map inputs (seq 1 20)) initial_state.

End Train.

(** The test loss an epoch logged. *)
Definition loss_test (rep : epoch_report) : npfloat := r_loss (test_res rep).

(** * Notions of the specification and test data *)

(** The order on floats, as the program's comparisons decide it. *)
Definition fl_lt (x y : npfloat) : Prop := fl.ltb x y = true.
Definition fl_le (x y : npfloat) : Prop := fl.geb y x = true.

(** A curve is non-degenerate when both rates are numbers at every point
    (both classes occur among the labels). *)
Definition nondegenerate (c : metrics.curve) : Prop :=
  Forall (λ r, fl.is_fin r = true) (metrics.fpr c)
  ∧ Forall (λ r, fl.is_fin r = true) (metrics.tpr c).

(** A true label is 0 or 1, and so is a binarized prediction. *)
Definition bit (z : Z) : Prop := z = 0%Z ∨ z = 1%Z.

(** The scenario of the specification: three test patients with labels
    2, 4, 2 (true labels 0, 1, 0) and one slice each, whose outputs give the
    scores 0.2, 0.8 and 0.6. *)
Definition scenario_csv : list (string * Z) :=
  [("p1", 2); ("p2", 4); ("p3", 2)]%Z.

Definition scenario_features : dict (list Q) :=
  dict_ops.of_rows [("p1", [0.1]); ("p2", [0.5]); ("p3", [1])].

Definition scenario_steps : list batch :=
  [Batch [("p1", (0.2, 0.8))] (Fin 0.7);
   Batch [("p2", (0.8, 0.2))] (Fin 0.3);
   Batch [("p3", (0.6, 0.4))] (Fin 0.9)].

Definition scenario : result test_locals :=
  test_body scenario_steps (dict_ops.empty_lists scenario_csv)
    (dict_ops.of_rows scenario_csv) scenario_features.

(** The number of patients with true label [t] and prediction [p], in the
    specification's words: one for each position where both hold. *)
Fixpoint tally (t p : Z) (ytrue pred : list Z) : Z :=
  match ytrue, pred with
  | y :: ys, q :: qs =>
      ((if bool_decide (y = t ∧ q = p) then 1 else 0) + tally t p ys qs)%Z
  | _, _ => 0%Z
  end.

(** The binarization in the specification's words: each patient's score
    against the threshold. *)
Definition binarize_scores (ll_ypred : list npfloat) (threshold : npfloat)
  : list Z :=
  map (λ s, if fl.geb s threshold then 1%Z else 0%Z) ll_ypred.

(** The scenario with the third score raised to 0.9, so that the patient
    with true label 0 scores above the selected threshold. *)
Definition scenario_high : result test_locals :=
  test_body
    [Batch [("p1", (0.2, 0.8))] (Fin 0.7);
     Batch [("p2", (0.8, 0.2))] (Fin 0.3);
     Batch [("p3", (0.9, 0.1))] (Fin 0.9)]
    (dict_ops.empty_lists scenario_csv)
    (dict_ops.of_rows scenario_csv) scenario_features.

(** Two patients ranked the wrong way round: the patient with label 2
    (true label 0) scores 0.9 and the patient with label 4 (true label 1)
    scores 0.1. *)
Definition scenario_inverted : result test_locals :=
  test_body
    [Batch [("p1", (0.9, 0.1))] (Fin 0.7);
     Batch [("p2", (0.1, 0.9))] (Fin 0.3)]
    (dict_ops.empty_lists [("p1", 2); ("p2", 4)]%Z)
    (dict_ops.of_rows [("p1", 2); ("p2", 4)]%Z) scenario_features.

(** The class indices (true, predicted) the training bookkeeping derives
    for one patient. *)
Definition patient_cell (d : dict (list vec2)) (dict_label : dict Z)
    (key : string) : option (nat * nat) :=
  outs ← items d !! key;
  target ← items dict_label !! key;
  Some (target_index target, torch_argmax (aggregate outs)).

(** The number of patients among [ks] with true class index [t] and
    predicted class index [p]. *)
Fixpoint patients_in_cell (d : dict (list vec2)) (dict_label : dict Z)
    (t p : nat) (ks : list string) : Z :=
  match ks with
  | [] => 0%Z
  | k :: r =>
      ((if bool_decide (patient_cell d dict_label k = Some (t, p))
        then 1 else 0)
       + patients_in_cell d dict_label t p r)%Z
  end.

(** A small run: one training patient [t1] with one slice, and the three
    test patients of the scenario.  [demo_epoch out l] is an epoch in
    which the training slice's output is [out] and every test batch has
    loss [l], so that the epoch's test loss is [l]. *)
Definition demo_train_csv : list (string * Z) := [("t1", 2%Z)].

Definition demo_features : dict (list Q) :=
  dict_ops.of_rows
    [("t1", [0.3]); ("p1", [0.1]); ("p2", [0.5]); ("p3", [1])].

Definition demo_epoch (out : vec2) (l : Q) : epoch_input :=
  EpochInput
    [Batch [("t1", out)] (Fin 0.5)]
    [Batch [("p1", (0.2, 0.8))] (Fin l);
     Batch [("p2", (0.8, 0.2))] (Fin l);
     Batch [("p3", (0.6, 0.4))] (Fin l)].

Definition demo_run (inputs : list epoch_input)
  : result (train_state * list epoch_report) :=
  run_epochs demo_train_csv scenario_csv demo_features 1 inputs
    (initial_state demo_train_csv).

(** The outputs recorded for [key] by one batch, and by the batches of one
    pass, in order. *)
Fixpoint slice_outputs (key : string) (l : list (string * vec2)) : list vec2 :=
  match l with
  | [] => []
  | s :: r =>
      if bool_decide (s.1 = key) then s.2 :: slice_outputs key r
      else slice_outputs key r
  end.

Fixpoint pass_outputs (key : string) (steps : list batch) : list vec2 :=
  match steps with
  | [] => []
  | b :: r => slice_outputs key (slices b) ++ pass_outputs key r
  end.

(** A small training set on disk: patient [pB] with label 2 and patient
    [pA] with label 4, one slice each, all four modality files present. *)
Definition demo_root : Path := ["T1_segment_aug"].

Definition demo_rglob (dir : Path) : list Path := [dir ++ ["7.png"]].

Definition demo_split_csv : list (string * Z) := [("pB", 2%Z); ("pA", 4%Z)].

Definition demo_fs : gmap string nat :=
  list_to_map
    [("T1_segment_aug/pA/7.png", 1%nat); ("T2_segment_aug/pA/7.png", 2%nat);
     ("T1c_segment_aug/pA/7.png", 3%nat); ("FLAIR_segment_aug/pA/7.png", 4%nat);
     ("T1_segment_aug/pB/7.png", 5%nat); ("T2_segment_aug/pB/7.png", 6%nat);
     ("T1c_segment_aug/pB/7.png", 7%nat); ("FLAIR_segment_aug/pB/7.png", 8%nat)].

(** What a fetched sample shows: patient, label, pipeline applied. *)
Definition observed {Image} (rs : sample Image) : string * Z * compose :=
  (sample_id rs, patient_label rs, pipeline rs).

(** [f] does not decrease along [l]. *)
Fixpoint ascending {A} (f : A → Z) (l : list A) : Prop :=
  match l with
  | [] => True
  | a :: r => Forall (λ b, (f a ≤ f b)%Z) r ∧ ascending f r
  end.

(** An evaluation pass is well formed when there is at least one batch
    and one patient, every slice belongs to a patient of [dict_test] with
    a radiomic vector, and every patient has a label and ends up with at
    least one recorded output. *)
Definition well_formed_pass (steps : list batch)
    (dict_test : dict (list vec2)) (dict_label : dict Z)
    (dict_new : dict (list Q)) : Prop :=
  steps ≠ []
  ∧ keys dict_test ≠ []
  ∧ (∀ b s, b ∈ steps → s ∈ slices b →
            is_Some (items dict_new !! s.1)
            ∧ is_Some (items dict_test !! s.1))
  ∧ (∀ k, k ∈ keys dict_test →
          is_Some (items dict_label !! k)
          ∧ ∃ outs, items dict_test !! k = Some outs
                    ∧ outs ++ pass_outputs k steps ≠ []).

(** The number of pairs flagged positive. *)
Fixpoint positives (l : list (bool * Q)) : Z :=
  match l with
  | [] => 0%Z
  | (b, _) :: r => ((if b then 1 else 0) + positives r)%Z
  end.

(** * Further notions *)

(** [GetLoader.__len__] *)
Definition len (self : GetLoader) : nat := length (pic_files self).



(** [old] occurs in [s]. *)
Definition occurs (old s : string) : Prop :=
  ∃ pre post, s = pre +:+ old +:+ post.

(** The PNG files of the patients [ps], patient by patient. *)
Definition patient_files (root : Path) (rglob : Path → list Path)
    (ps : list string) : list Path :=
  concat (map (λ p, rglob (root ++ [p])) ps).

(** Whether the manifest gives patient [p] the label 4. *)
Definition label4 (classify : dict Z) (p : string) : bool :=
  bool_decide (items classify !! p = Some 4%Z).

(** The sum of the entries of a row, and of all cells of a matrix. *)
Definition Zsum (l : list Z) : Z := foldr Z.add 0%Z l.

Definition total (m : matrix) : Z := Zsum (Zsum <$> m).

(** A matrix with [rows] rows of [cols] cells. *)
Definition rectangular (rows cols : nat) (m : matrix) : Prop :=
  length m = rows ∧ Forall (λ r, length r = cols) m.

(** The training data set of the small example on disk, with the
    label-2 slice first, and a test data set over the same files. *)
Definition demo_loader : GetLoader :=
  Loader "train" train_compose (dict_ops.of_rows demo_split_csv)
    [["T1_segment_aug"; "pB"; "7.png"]; ["T1_segment_aug"; "pA"; "7.png"]].

Definition demo_test_loader : GetLoader :=
  Loader "test" test_compose (dict_ops.of_rows demo_split_csv)
    [["T1_segment_aug"; "pA"; "7.png"]; ["T1_segment_aug"; "pB"; "7.png"]].

(** A test for [occurs]. *)
Fixpoint occursb (old s : string) : bool :=
  match s with
  | EmptyString => String.prefix old s
  | String _ r => String.prefix old s || occursb old r
  end.

(** The outputs recorded for [key] over several epochs, epoch by epoch. *)
Definition run_outputs (key : string) (inputs : list epoch_input)
  : list vec2 :=
  concat (map (λ inp, pass_outputs key (train_steps inp)) inputs).

(** ** numpy basic slicing along the first axis *)

Module ndarray.

(** A slice bound [i] on an axis of length [n]: a negative bound counts
    from the end, and both are clipped to the axis. *)
Definition bound (n : nat) (i : Z) : nat :=
  if (i <? 0)%Z then Z.to_nat (Z.max 0 (Z.of_nat n + i))
  else Nat.min n (Z.to_nat i).

Definition start (n : nat) (lo : option Z) : nat :=
  match lo with Some i => bound n i | None => 0%nat end.

Definition stop (n : nat) (hi : option Z) : nat :=
  match hi with Some i => bound n i | None => n end.

(** [a[lo:hi]] *)
Definition slice {A} (lo hi : option Z) (a : list A) : list A :=
  let s := start (length a) lo in
  let e := stop (length a) hi in
  take (e - s) (drop s a).

(** [dst[lo:hi] = src] for arrays of the same number of dimensions that
    agree on the other axes: [src] must have as many entries as the slice,
    or a single entry, which is repeated; numpy raises [ValueError]
    otherwise. *)
Definition set_slice {A} (lo hi : option Z) (dst src : list A)
  : result (list A) :=
  let s := start (length dst) lo in
  let e := stop (length dst) hi in
  let k := (e - s)%nat in
  if (length src =? k)%nat then Ok (take s dst ++ src ++ drop (s + k) dst)
  else match src with
       | [x] => Ok (take s dst ++ replicate k x ++ drop (s + k) dst)
       | _ => Raise ValueError
       end.

(** [a[:, lo:hi]] and [dst[:, lo:hi] = src], for arrays with the same
    number of rows. *)
Definition cols {A} (lo hi : option Z) (a : list (list A)) : list (list A) :=
  map (slice lo hi) a.

Definition set_cols {A} (lo hi : option Z) (dst src : list (list A))
  : result (list (list A)) :=
  mapM (λ ds, set_slice lo hi ds.1 ds.2) (zip dst src).

(** [np.random.randint(low, high)]: [ValueError] on an empty range, and
    else the number drawn. *)
Definition randint (low high draw : Z) : result Z :=
  if (low <? high)%Z then Ok draw else Raise ValueError.

End ndarray.

(** ** The augmentations [CyclicShift] and [AddPepperNoise] *)

(** An image is the array [np.asarray(img)]: rows of pixels.  The numbers
    the random generators return are arguments of the functions that draw
    them. *)
Section Augmentation.

Context {A : Type}.

(** The pixel [np.zeros_like] fills with. *)
Variable zero : A.

Definition height (img : list (list A)) : nat := length img.

Definition width (img : list (list A)) : nat :=
  match img with
  | [] => 0%nat
  | r :: _ => length r
  end.

Definition zeros_like (img : list (list A)) : list (list A) :=
  map (map (λ _, zero)) img.

(** [CyclicShift.move], with the draws of [np.random.randint] and
    [np.random.random]. *)
Definition move (rate_draw : Z) (directions : Q) (img : list (list A))
  : result (list (list A)) :=
  let w := width img in
  let h := height img in
  let w := Nat.min w h in
  rate ← ndarray.randint (Z.of_nat (w / 4)) (Z.of_nat (w / 2)) rate_draw;
  let img_data := img in
  let img_moving := zeros_like img_data in
  if fl.Qltb directions 0.25 then
    img_moving ← ndarray.set_slice None (Some rate) img_moving
                   (ndarray.slice (Some (- rate)%Z) None img_data);
    ndarray.set_slice (Some rate) None img_moving
      (ndarray.slice None (Some (- rate)%Z) img_data)
  else if fl.Qltb directions 0.5 then
    img_moving ← ndarray.set_slice (Some (- rate)%Z) None img_moving
                   (ndarray.slice None (Some rate) img_data);
    ndarray.set_slice None (Some (- rate)%Z) img_moving
      (ndarray.slice (Some rate) None img_data)
  else if fl.Qltb directions 0.75 then
    img_moving ← ndarray.set_cols (Some (- rate)%Z) None img_moving
                   (ndarray.cols None (Some rate) img_data);
    ndarray.set_cols None (Some (- rate)%Z) img_moving
      (ndarray.cols (Some rate) None img_data)
  else
    img_moving ← ndarray.set_cols None (Some rate) img_moving
                   (ndarray.cols (Some (- rate)%Z) None img_data);
    ndarray.set_cols (Some rate) None img_moving
      (ndarray.cols None (Some (- rate)%Z) img_data).

(** [CyclicShift.__call__] for an object with probability [self_p]; [p]
    is the number drawn. *)
Definition CyclicShift_call (self_p p : Q) (rate_draw : Z) (directions : Q)
    (img : list (list A)) : result (list (list A)) :=
  if fl.Qltb p self_p then move rate_draw directions img else Ok img.

End Augmentation.

(** A pixel is the list of its channel values. *)
Definition fill (v : Z) (px : list Z) : list Z := map (λ _, v) px.

(** Storing into the [uint8] array [output]. *)
Definition uint8 (px : list Z) : list Z := map (λ v, (v mod 256)%Z) px.

(** [add_salt_pepper_noise]; [rdn i j] is the number drawn for the pixel
    in row [i] and column [j]. *)
Definition add_salt_pepper_noise (rdn : nat → nat → Q)
    (img : list (list (list Z))) (prob : Q) : list (list (list Z)) :=
  let image := img in
  let thres := 1 - prob in
  imap (λ i row,
          imap (λ j px,
                  if fl.Qltb (rdn i j) prob then fill 0 px
                  else if fl.Qltb thres (rdn i j) then fill 255 px
                  else uint8 px) row) image.

(** [AddPepperNoise.__call__] for an object with [snr] and probability
    [self_p]; [u] is the number [random.uniform(0, 1)] returns. *)
Definition AddPepperNoise_call (snr self_p u : Q) (rdn : nat → nat → Q)
    (img : list (list (list Z))) : list (list (list Z)) :=
  if fl.Qltb u self_p then add_salt_pepper_noise rdn img snr else img.

(** All rows of an image have [w] pixels and there are [h] of them. *)
Definition rect {A} (h w : nat) (img : list (list A)) : Prop :=
  length img = h ∧ Forall (λ r, length r = w) img.

(** A small image for the examples: 4 rows of 5 pixels. *)
Definition demo_image : list (list Z) :=
  [[11; 12; 13; 14; 15]; [21; 22; 23; 24; 25];
   [31; 32; 33; 34; 35]; [41; 42; 43; 44; 45]]%Z.

Definition demo_rgb : list (list (list Z)) :=
  [[[10; 20; 30]; [40; 50; 60]]; [[70; 80; 90]; [100; 110; 120]]]%Z.

(** The branch of [move] a draw of [directions] selects, and whether two
    draws select opposite shifts. *)
Definition side (directions : Q) : nat :=
  if fl.Qltb directions 0.25 then 0%nat
  else if fl.Qltb directions 0.5 then 1%nat
  else if fl.Qltb directions 0.75 then 2%nat
  else 3%nat.

Definition opposite (d1 d2 : Q) : bool :=
  match side d1, side d2 with
  | 0, 1 | 1, 0 | 2, 3 | 3, 2 => true
  | _, _ => false
  end%nat.

(** ** The network, at the level of tensor shapes *)

(** The constructors of the modules are embedded as they are written;
    a tensor is its shape, and the modules of [torch.nn] act on shapes as
    PyTorch documents them.  Weights and values are not modelled, and
    [norm_layer] is [nn.BatchNorm2d], its default. *)
Module nn.

Inductive error : Type :=
  | ValueError
  | NotImplementedError
  | IndexError
  | RuntimeError.

Inductive outcome (A : Type) : Type :=
  | Ok (a : A)
  | Raise (e : error).
Arguments Ok {A} a.
Arguments Raise {A} e.

#[global] Instance outcome_ret : MRet outcome := λ A a, Ok a.

#[global] Instance outcome_bind : MBind outcome := λ A B k m,
  match m with
  | Ok a => k a
  | Raise e => Raise e
  end.

(** [l[i]] for a Python list. *)
Definition item {A} (l : list A) (i : nat) : outcome A :=
  match l !! i with
  | Some a => Ok a
  | None => Raise IndexError
  end.

(** A batch of images [(N, C, H, W)] and a batch of vectors [(N, F)]. *)
Record shape4 : Type := Shape4 {
  dim_n : nat;
  dim_c : nat;
  dim_h : nat;
  dim_w : nat
}.

Record shape2 : Type := Shape2 {
  dim_rows : nat;
  dim_features : nat
}.

(** *** [torch.nn] modules *)

Record Conv2d : Type := MkConv2d {
  in_channels : nat;
  out_channels : nat;
  kernel_size : nat;
  stride : nat;
  padding : nat;
  dilation : nat;
  groups : nat
}.

(** [nn.Conv2d(...)]: the channel numbers must be multiples of
    [groups]. *)
Definition Conv2d_init (in_channels out_channels kernel_size stride padding
    dilation groups : nat) : outcome Conv2d :=
  if (groups =? 0)%nat then Raise ValueError
  else if negb (in_channels mod groups =? 0)%nat then Raise ValueError
  else if negb (out_channels mod groups =? 0)%nat then Raise ValueError
  else Ok (MkConv2d in_channels out_channels kernel_size stride padding
             dilation groups).

(** The length of one spatial axis after a convolution or a pooling
    window: [floor((size + 2p - d(k - 1) - 1) / s) + 1], when the padded
    input is as large as the window. *)
Definition window_out (size k s p d : nat) : option nat :=
  if (size + 2 * p <? d * (k - 1) + 1)%nat then None
  else Some ((size + 2 * p - d * (k - 1) - 1) / s + 1)%nat.

Definition Conv2d_forward (m : Conv2d) (x : shape4) : outcome shape4 :=
  if negb (dim_c x =? in_channels m)%nat then Raise RuntimeError
  else if (stride m =? 0)%nat then Raise RuntimeError
  else
    match window_out (dim_h x) (kernel_size m) (stride m) (padding m)
            (dilation m),
          window_out (dim_w x) (kernel_size m) (stride m) (padding m)
            (dilation m) with
    | Some h, Some w => Ok (Shape4 (dim_n x) (out_channels m) h w)
    | _, _ => Raise RuntimeError
    end.

(** [nn.BatchNorm2d(num_features)]: in training mode a batch with a
    single value per channel is refused. *)
Definition BatchNorm2d_forward (training : bool) (num_features : nat)
    (x : shape4) : outcome shape4 :=
  if training && (dim_n x * (dim_h x * dim_w x) =? 1)%nat
  then Raise ValueError
  else if negb (dim_c x =? num_features)%nat then Raise RuntimeError
  else Ok x.

(** [nn.MaxPool2d(kernel_size=3, stride=2, padding=1)] *)
Definition MaxPool2d_forward (kernel_size stride padding : nat) (x : shape4)
  : outcome shape4 :=
  match window_out (dim_h x) kernel_size stride padding 1,
        window_out (dim_w x) kernel_size stride padding 1 with
  | Some h, Some w => Ok (Shape4 (dim_n x) (dim_c x) h w)
  | _, _ => Raise RuntimeError
  end.

(** [nn.AdaptiveAvgPool2d((1, 1))] and [torch.flatten(x, 1)] *)
Definition AdaptiveAvgPool2d_forward (x : shape4) : shape4 :=
  Shape4 (dim_n x) (dim_c x) 1 1.

Definition flatten (x : shape4) : shape2 :=
  Shape2 (dim_n x) (dim_c x * dim_h x * dim_w x).

Record Linear : Type := MkLinear {
  in_features : nat;
  out_features : nat
}.

Definition Linear_forward (m : Linear) (x : shape2) : outcome shape2 :=
  if negb (dim_features x =? in_features m)%nat then Raise RuntimeError
  else Ok (Shape2 (dim_rows x) (out_features m)).

(** [torch.cat([x, y], 1)] *)
Definition cat1 (x y : shape2) : outcome shape2 :=
  if negb (dim_rows x =? dim_rows y)%nat then Raise RuntimeError
  else Ok (Shape2 (dim_rows x) (dim_features x + dim_features y)).

(** [out += identity]: [identity] must broadcast to the shape of
    [out]. *)
Definition broadcasts (from to : nat) : bool :=
  (from =? to)%nat || (from =? 1)%nat.

Definition iadd (out identity : shape4) : outcome shape4 :=
  if broadcasts (dim_n identity) (dim_n out)
     && broadcasts (dim_c identity) (dim_c out)
     && broadcasts (dim_h identity) (dim_h out)
     && broadcasts (dim_w identity) (dim_w out)
  then Ok out else Raise RuntimeError.

(** *** [conv3x3], [conv1x1] *)

Definition conv3x3 (in_planes out_planes stride groups dilation : nat)
  : outcome Conv2d :=
  Conv2d_init in_planes out_planes 3 stride dilation dilation groups.

Definition conv1x1 (in_planes out_planes stride : nat) : outcome Conv2d :=
  Conv2d_init in_planes out_planes 1 stride 0 1 1.

(** *** The blocks *)

(** [nn.Sequential(conv1x1(...), norm_layer(...))] *)
Record Downsample : Type := MkDownsample {
  ds_conv : Conv2d;
  ds_bn : nat
}.

Record BasicBlock : Type := MkBasicBlock {
  bb_conv1 : Conv2d;
  bb_bn1 : nat;
  bb_conv2 : Conv2d;
  bb_bn2 : nat;
  bb_downsample : option Downsample;
  bb_stride : nat
}.

Record Bottleneck : Type := MkBottleneck {
  bn_conv1 : Conv2d;
  bn_bn1 : nat;
  bn_conv2 : Conv2d;
  bn_bn2 : nat;
  bn_conv3 : Conv2d;
  bn_bn3 : nat;
  bn_downsample : option Downsample;
  bn_stride : nat
}.

(** The class given as [block], and an instance of either class. *)
Inductive block_class : Type :=
  | BasicBlock_class
  | Bottleneck_class.

Inductive Block : Type :=
  | Basic (b : BasicBlock)
  | Bottle (b : Bottleneck).

Definition expansion (block : block_class) : nat :=
  match block with
  | BasicBlock_class => 1%nat
  | Bottleneck_class => 4%nat
  end.

(** [BasicBlock.__init__] *)
Definition BasicBlock_init (inplanes planes stride : nat)
    (downsample : option Downsample) (groups base_width dilation : nat)
  : outcome BasicBlock :=
  if negb (groups =? 1)%nat || negb (base_width =? 64)%nat
  then Raise ValueError
  else if (1 <? dilation)%nat then Raise NotImplementedError
  else
    conv1 ← conv3x3 inplanes planes stride 1 1;
    let bn1 := planes in
    conv2 ← conv3x3 planes planes 1 1 1;
    let bn2 := planes in
    Ok (MkBasicBlock conv1 bn1 conv2 bn2 downsample stride).

(** [Bottleneck.__init__]; [int(planes * (base_width / 64.))] is the
    quotient of [planes * base_width] by 64. *)
Definition Bottleneck_init (inplanes planes stride : nat)
    (downsample : option Downsample) (groups base_width dilation : nat)
  : outcome Bottleneck :=
  let width := (planes * base_width / 64 * groups)%nat in
  conv1 ← conv1x1 inplanes width 1;
  let bn1 := width in
  conv2 ← conv3x3 width width stride groups dilation;
  let bn2 := width in
  conv3 ← conv1x1 width (planes * 4) 1;
  let bn3 := (planes * 4)%nat in
  Ok (MkBottleneck conv1 bn1 conv2 bn2 conv3 bn3 downsample stride).

(** [block(...)] *)
Definition block_init (block : block_class) (inplanes planes stride : nat)
    (downsample : option Downsample) (groups base_width dilation : nat)
  : outcome Block :=
  match block with
  | BasicBlock_class =>
      b ← BasicBlock_init inplanes planes stride downsample groups
             base_width dilation;
      Ok (Basic b)
  | Bottleneck_class =>
      b ← Bottleneck_init inplanes planes stride downsample groups
             base_width dilation;
      Ok (Bottle b)
  end.

Definition Downsample_forward (training : bool) (m : Downsample)
    (x : shape4) : outcome shape4 :=
  x ← Conv2d_forward (ds_conv m) x;
  BatchNorm2d_forward training (ds_bn m) x.

(** [BasicBlock.forward]; [relu] keeps the shape. *)
Definition BasicBlock_forward (training : bool) (self : BasicBlock)
    (x : shape4) : outcome shape4 :=
  let identity := x in
  out ← Conv2d_forward (bb_conv1 self) x;
  out ← BatchNorm2d_forward training (bb_bn1 self) out;
  out ← Conv2d_forward (bb_conv2 self) out;
  out ← BatchNorm2d_forward training (bb_bn2 self) out;
  identity ← match bb_downsample self with
             | Some downsample => Downsample_forward training downsample x
             | None => Ok identity
             end;
  iadd out identity.

(** [Bottleneck.forward] *)
Definition Bottleneck_forward (training : bool) (self : Bottleneck)
    (x : shape4) : outcome shape4 :=
  let identity := x in
  out ← Conv2d_forward (bn_conv1 self) x;
  out ← BatchNorm2d_forward training (bn_bn1 self) out;
  out ← Conv2d_forward (bn_conv2 self) out;
  out ← BatchNorm2d_forward training (bn_bn2 self) out;
  out ← Conv2d_forward (bn_conv3 self) out;
  out ← BatchNorm2d_forward training (bn_bn3 self) out;
  identity ← match bn_downsample self with
             | Some downsample =>
                 Downsample_forward training downsample identity
             | None => Ok identity
             end;
  iadd out identity.

Definition Block_forward (training : bool) (b : Block) (x : shape4)
  : outcome shape4 :=
  match b with
  | Basic b => BasicBlock_forward training b x
  | Bottle b => Bottleneck_forward training b x
  end.

(** [nn.Sequential] of the blocks of a layer *)
Fixpoint Sequential_forward (training : bool) (layers : list Block)
    (x : shape4) : outcome shape4 :=
  match layers with
  | [] => Ok x
  | b :: r =>
      x ← Block_forward training b x;
      Sequential_forward training r x
  end.

(** *** [ResNet] *)

(** The attributes [_make_layer] reads and updates. *)
Record attrs : Type := Attrs {
  self_inplanes : nat;
  self_dilation : nat;
  self_groups : nat;
  self_base_width : nat
}.

(** [ResNet._make_layer]: the layer, and the attributes afterwards. *)
Definition _make_layer (self : attrs) (block : block_class)
    (planes blocks stride : nat) (dilate : bool)
  : outcome (list Block * attrs) :=
  let downsample := None in
  let previous_dilation := self_dilation self in
  let '(self, stride) :=
    if dilate
    then (Attrs (self_inplanes self) (self_dilation self * stride)
            (self_groups self) (self_base_width self), 1%nat)
    else (self, stride) in
  downsample ←
    (if negb (stride =? 1)%nat
        || negb (self_inplanes self =? planes * expansion block)%nat
     then
       conv ← conv1x1 (self_inplanes self) (planes * expansion block) stride;
       Ok (Some (MkDownsample conv (planes * expansion block)))
     else Ok downsample);
  first ← block_init block (self_inplanes self) planes stride downsample
            (self_groups self) (self_base_width self) previous_dilation;
  let self := Attrs (planes * expansion block) (self_dilation self)
                (self_groups self) (self_base_width self) in
  rest ← mapM (λ _, block_init block (self_inplanes self) planes 1 None
                      (self_groups self) (self_base_width self)
                      (self_dilation self))
           (seq 1 (blocks - 1));
  Ok (first :: rest, self).

Record ResNet : Type := MkResNet {
  conv1 : Conv2d;
  bn1 : nat;
  layer1 : list Block;
  layer2 : list Block;
  layer3 : list Block;
  layer4 : list Block;
  fc : Linear;
  fc2 : Linear
}.

(** [ResNet.__init__]; [None] for [replace_stride_with_dilation] is the
    default. *)
Definition ResNet_init (block : block_class) (layers : list nat)
    (num_classes groups width_per_group : nat)
    (replace_stride_with_dilation : option (list bool)) : outcome ResNet :=
  let self := Attrs 64 1 groups width_per_group in
  let replace_stride_with_dilation :=
    match replace_stride_with_dilation with
    | None => [false; false; false]
    | Some l => l
    end in
  if negb (length replace_stride_with_dilation =? 3)%nat
  then Raise ValueError
  else
    conv1 ← Conv2d_init 4 (self_inplanes self) 7 2 3 1 1;
    let bn1 := self_inplanes self in
    blocks ← item layers 0;
    '(layer1, self) ← _make_layer self block 64 blocks 1 false;
    blocks ← item layers 1;
    dilate ← item replace_stride_with_dilation 0;
    '(layer2, self) ← _make_layer self block 128 blocks 2 dilate;
    blocks ← item layers 2;
    dilate ← item replace_stride_with_dilation 1;
    '(layer3, self) ← _make_layer self block 256 blocks 2 dilate;
    blocks ← item layers 3;
    dilate ← item replace_stride_with_dilation 2;
    '(layer4, self) ← _make_layer self block 512 blocks 2 dilate;
    Ok (MkResNet conv1 bn1 layer1 layer2 layer3 layer4
          (MkLinear (512 * expansion block) 14) (MkLinear 28 num_classes)).

(** [ResNet.forward(x, y)] *)
Definition forward (training : bool) (self : ResNet) (x : shape4)
    (y : shape2) : outcome shape2 :=
  x ← Conv2d_forward (conv1 self) x;
  x ← BatchNorm2d_forward training (bn1 self) x;
  x ← MaxPool2d_forward 3 2 1 x;
  x ← Sequential_forward training (layer1 self) x;
  x ← Sequential_forward training (layer2 self) x;
  x ← Sequential_forward training (layer3 self) x;
  x ← Sequential_forward training (layer4 self) x;
  let x := AdaptiveAvgPool2d_forward x in
  let x := flatten x in
  x ← Linear_forward (fc self) x;
  x ← cat1 x y;
  Linear_forward (fc2 self) x.

(** The keyword arguments of the four constructors, with their
    defaults. *)
Record kwargs : Type := Kwargs {
  kw_num_classes : nat;
  kw_groups : nat;
  kw_width_per_group : nat;
  kw_replace_stride_with_dilation : option (list bool)
}.

Definition defaults : kwargs := Kwargs 2 1 64 None.

Definition ResNet_kw (block : block_class) (layers : list nat) (kw : kwargs)
  : outcome ResNet :=
  ResNet_init block layers (kw_num_classes kw) (kw_groups kw)
    (kw_width_per_group kw) (kw_replace_stride_with_dilation kw).

Definition resnet18 (kw : kwargs) : outcome ResNet :=
  ResNet_kw BasicBlock_class [2; 2; 2; 2]%nat kw.

Definition resnet34 (kw : kwargs) : outcome ResNet :=
  ResNet_kw BasicBlock_class [3; 4; 6; 3]%nat kw.

Definition resnet50 (kw : kwargs) : outcome ResNet :=
  ResNet_kw Bottleneck_class [3; 4; 6; 3]%nat kw.

Definition resnet101 (kw : kwargs) : outcome ResNet :=
  ResNet_kw Bottleneck_class [3; 4; 23; 3]%nat kw.

End nn.

(** The exception a construction or a forward pass ends with, if any. *)
Definition raised {A} (o : nn.outcome A) : option nn.error :=
  match o with
  | nn.Ok _ => None
  | nn.Raise e => Some e
  end.

(** The length of an axis of [n] entries after a window that keeps the
    size up to its stride [s]: [ceil(n / s)]. *)
Definition down (s n : nat) : nat := ((n - 1) / s + 1)%nat.

(** The shortcut and the stride of a block. *)
Definition Block_downsample (b : nn.Block) : option nn.Downsample :=
  match b with
  | nn.Basic b => nn.bb_downsample b
  | nn.Bottle b => nn.bn_downsample b
  end.

Definition Block_stride (b : nn.Block) : nat :=
  match b with
  | nn.Basic b => nn.bb_stride b
  | nn.Bottle b => nn.bn_stride b
  end.

(** A block takes [(N, cin, H, W)] to [(N, cout, ceil(H/s), ceil(W/s))],
    in evaluation mode and, when the result has more than one value per
    channel, in training mode. *)
Definition maps (b : nn.Block) (cin cout s : nat) : Prop :=
  ∀ (training : bool) (N H W : nat),
    (1 ≤ H)%nat → (1 ≤ W)%nat →
    training = false ∨ (N * (down s H * down s W))%nat ≠ 1%nat →
    nn.Block_forward training b (nn.Shape4 N cin H W)
    = nn.Ok (nn.Shape4 N cout (down s H) (down s W)).

(** The flags [ResNet.__init__] works with. *)
Definition flags_of (kw : nn.kwargs) : list bool :=
  match nn.kw_replace_stride_with_dilation kw with
  | None => [false; false; false]
  | Some l => l
  end.

(** * Properties *)

(** ** Aggregation *)

Lemma Qeq_bool_false (a b : Q) : ¬ a == b → Qeq_bool a b = false.
Proof.
  intros H. destruct (Qeq_bool a b) eqn:E; [|done].
  apply Qeq_bool_iff in E. contradiction.
Qed.

Lemma Qltb_true (a b : Q) : fl.Qltb a b = true ↔ a < b.
Proof.
  unfold fl.Qltb. rewrite negb_true_iff.
  split.
  - intros H. apply Qnot_le_lt. intros Hle.
    apply Qle_bool_iff in Hle. congruence.
  - intros H. destruct (Qle_bool b a) eqn:E; [|done].
    apply Qle_bool_iff in E. lra.
Qed.

Lemma Qltb_false (a b : Q) : fl.Qltb a b = false ↔ b <= a.
Proof.
  unfold fl.Qltb. rewrite negb_false_iff. apply Qle_bool_iff.
Qed.

(** The accumulation loop adds the component sums to its start value. *)
Lemma accumulate_sum (outs : list vec2) (x y : Q) :
  ∃ a b, fold_left tensor_add outs (Fin x, Fin y) = (Fin a, Fin b)
         ∧ a == x + Qsum (map fst outs) ∧ b == y + Qsum (map snd outs).
Proof.
  revert x y. induction outs as [|[u v] outs IH]; intros x y; simpl.
  - exists x, y. split; [done|]. split; ring.
  - destruct (IH (x + u) (y + v)) as (a & b & E & Ha & Hb).
    exists a, b. split; [exact E|].
    rewrite Ha, Hb. split; ring.
Qed.

Lemma length_pos_Q {A} (l : list A) :
  l ≠ [] → ¬ inject_Z (Z.of_nat (length l)) == 0.
Proof.
  intros Hne H. destruct l as [|a l]; [done|].
  simpl length in H.
  assert (0 < inject_Z (Z.of_nat (S (length l)))) as Hpos.
  { rewrite <- (Zlt_Qlt 0). lia. }
  lra.
Qed.



(** ** The Youden index *)

Lemma is_fin_inv (x : npfloat) : fl.is_fin x = true → ∃ q, x = Fin q.
Proof. destruct x; try discriminate. eauto. Qed.

Ltac finite x :=
  let q := fresh "q" in
  let H := fresh "H" in
  match goal with
  | Hx : fl.is_fin x = true |- _ =>
      destruct (is_fin_inv x Hx) as [q H]; subst x
  end.

Lemma fl_lt_le_trans (x y z : npfloat) :
  fl.is_fin x = true → fl.is_fin y = true → fl.is_fin z = true →
  fl_le x y → fl_lt y z → fl_lt x z.
Proof.
  intros Hx Hy Hz. finite x. finite y. finite z.
  unfold fl_le, fl_lt. simpl.
  rewrite Qle_bool_iff, !Qltb_true. lra.
Qed.

Lemma fl_lt_le (x y : npfloat) : fl_lt x y → fl_le x y.
Proof.
  unfold fl_lt, fl_le. destruct x, y; simpl; try done.
  rewrite Qltb_true, Qle_bool_iff. lra.
Qed.

Lemma fl_le_trans (x y z : npfloat) :
  fl.is_fin x = true → fl.is_fin y = true → fl.is_fin z = true →
  fl_le x y → fl_le y z → fl_le x z.
Proof.
  intros Hx Hy Hz. finite x. finite y. finite z.
  unfold fl_le. simpl. rewrite !Qle_bool_iff. lra.
Qed.

Lemma fl_le_refl (x : npfloat) : fl.is_fin x = true → fl_le x x.
Proof.
  intros Hx. finite x. unfold fl_le. simpl. apply Qle_bool_iff. lra.
Qed.

Lemma better_finite (best x : npfloat) :
  fl.is_fin best = true → fl.is_fin x = true →
  if np.better best x then fl_lt best x else fl_le x best.
Proof.
  intros Hb Hx. finite best. finite x.
  unfold np.better, fl_lt, fl_le. simpl.
  destruct (fl.Qltb q q0) eqn:E; [done|].
  apply Qltb_false in E. by apply Qle_bool_iff.
Qed.

(** The scan keeps, for the part [pre] already seen, the position [bi] of
    its first maximum [best]; at the end this holds of the whole list. *)
Lemma argmax_go_first_max (l pre : list npfloat) (bi : nat) (best : npfloat) :
  Forall (λ x, fl.is_fin x = true) (pre ++ l) →
  pre !! bi = Some best →
  (∀ j x, pre !! j = Some x → fl_le x best) →
  (∀ j x, (j < bi)%nat → pre !! j = Some x → fl_lt x best) →
  ∃ v, (pre ++ l) !! np.argmax_go bi best (length pre) l = Some v
       ∧ (∀ j x, (pre ++ l) !! j = Some x → fl_le x v)
       ∧ (∀ j x, (j < np.argmax_go bi best (length pre) l)%nat →
                 (pre ++ l) !! j = Some x → fl_lt x v).
Proof.
  revert pre bi best. induction l as [|x r IH]; intros pre bi best Hfin Hbi Hle Hlt.
  - simpl. rewrite app_nil_r. eauto.
  - assert (fl.is_fin best = true) as Fbest.
    { eapply (proj1 (Forall_lookup _ _) Hfin bi).
      apply lookup_app_l_Some. exact Hbi. }
    assert (fl.is_fin x = true) as Fx.
    { eapply (proj1 (Forall_lookup _ _) Hfin (length pre)).
      by rewrite list_lookup_middle. }
    assert (∀ j y, pre !! j = Some y → fl.is_fin y = true) as Fpre.
    { intros j y Hy. eapply (proj1 (Forall_lookup _ _) Hfin j).
      by apply lookup_app_l_Some. }
    pose proof (better_finite best x Fbest Fx) as Hb.
    simpl. replace (pre ++ x :: r) with ((pre ++ [x]) ++ r) in *
      by (by rewrite <- app_assoc).
    replace (S (length pre)) with (length (pre ++ [x]))
      by (rewrite length_app; simpl; lia).
    destruct (np.better best x).
    + apply IH; [done| | |].
      * by rewrite lookup_app_r, Nat.sub_diag.
      * intros j y Hy. apply lookup_app_Some in Hy as [Hy|[_ Hy]].
        -- apply fl_lt_le. apply (fl_lt_le_trans y best x); eauto.
        -- apply list_lookup_singleton_Some in Hy as [_ <-].
           by apply fl_le_refl.
      * intros j y Hj Hy. rewrite lookup_app_l in Hy by done.
        apply (fl_lt_le_trans y best x); eauto.
    + apply IH; [done| | |].
      * by apply lookup_app_l_Some.
      * intros j y Hy. apply lookup_app_Some in Hy as [Hy|[_ Hy]]; [eauto|].
        by apply list_lookup_singleton_Some in Hy as [_ <-].
      * intros j y Hj Hy. apply lookup_lt_Some in Hbi as Hlen.
        rewrite lookup_app_l in Hy by lia. eauto.
Qed.

(** [np.argmax] on numbers returns the first index of the maximum. *)
Lemma argmax_first_max (y : list npfloat) (k : nat) :
  Forall (λ x, fl.is_fin x = true) y →
  np.argmax y = Ok k →
  ∃ v, y !! k = Some v
       ∧ (∀ j x, y !! j = Some x → fl_le x v)
       ∧ (∀ j x, (j < k)%nat → y !! j = Some x → fl_lt x v).
Proof.
  intros Hfin Hk. destruct y as [|x r]; [discriminate|].
  simpl in Hk. injection Hk as <-.
  assert (fl.is_fin x = true) as Fx by (by inversion Hfin).
  apply (argmax_go_first_max r [x] 0 x); [done|done| |].
  - intros j z Hz. apply list_lookup_singleton_Some in Hz as [_ <-].
    by apply fl_le_refl.
  - intros j z Hj. lia.
Qed.

Lemma youden_finite (c : metrics.curve) :
  nondegenerate c → Forall (λ x, fl.is_fin x = true) (youden c).
Proof.
  intros [Hf Ht]. unfold youden.
  revert Hf. generalize (metrics.fpr c).
  induction Ht as [|t ts Ft _ IH]; intros fs Hf; [done|].
  destruct Hf as [|f fs Ff Hfs]; [done|].
  simpl. constructor; [|by apply IH].
  finite t. finite f. done.
Qed.

(** ** [statis_auc] returns on every curve *)

Lemma clf_walk_cons (tp n : Z) (b : bool) (s : Q) (r : list (bool * Q)) :
  metrics.clf_walk tp n ((b, s) :: r)
  = let tp1 := (tp + (if b then 1 else 0))%Z in
    let n1 := (n + 1)%Z in
    match r with
    | [] => [metrics.Point (n1 - tp1) tp1 s]
    | (_, s1) :: _ =>
        if Qeq_bool s s1 then metrics.clf_walk tp1 n1 r
        else metrics.Point (n1 - tp1) tp1 s :: metrics.clf_walk tp1 n1 r
    end.
Proof. destruct r as [|[? ?] ?]; reflexivity. Qed.

Lemma corners_cons (a : metrics.point) (r : list metrics.point) :
  metrics.corners (a :: r)
  = match r with
    | [] => []
    | [b] => [b]
    | b :: c :: _ =>
        if metrics.is_corner a b c then b :: metrics.corners r
        else metrics.corners r
    end.
Proof. destruct r as [|? [|? ?]]; reflexivity. Qed.

Lemma diff_cons (x0 : npfloat) (r : list npfloat) :
  np.diff (x0 :: r)
  = match r with
    | [] => []
    | x1 :: _ => fl.sub x1 x0 :: np.diff r
    end.
Proof. destruct r; reflexivity. Qed.

(** The false-positive counts of the walk start at [n - tp] or above and
    never decrease. *)
Lemma clf_walk_fps (l : list (bool * Q)) :
  ∀ tp n : Z,
    Forall (λ p, (n - tp ≤ metrics.fps p)%Z) (metrics.clf_walk tp n l)
    ∧ ascending metrics.fps (metrics.clf_walk tp n l).
Proof.
  induction l as [|[b s] r IH]; intros tp n; [by split|].
  rewrite clf_walk_cons. cbv zeta.
  set (tp1 := (tp + (if b then 1 else 0))%Z).
  set (n1 := (n + 1)%Z).
  assert (n - tp ≤ n1 - tp1)%Z as Hstep
    by (subst tp1 n1; destruct b; lia).
  destruct (IH tp1 n1) as [Hlow Hasc].
  assert (Forall (λ p, (n - tp ≤ metrics.fps p)%Z) (metrics.clf_walk tp1 n1 r))
    as Hlow'.
  { eapply Forall_impl; [exact Hlow|]. simpl. intros p Hp. lia. }
  destruct r as [|[b1 s1] r'].
  - split; [|by split]. constructor; [simpl; lia|constructor].
  - destruct (Qeq_bool s s1); [by split|].
    split; [constructor; [simpl; lia|done]|].
    split; [|done]. exact Hlow.
Qed.

Lemma clf_walk_nonempty (l : list (bool * Q)) (tp n : Z) :
  l ≠ [] → metrics.clf_walk tp n l ≠ [].
Proof.
  revert tp n. induction l as [|[b s] r IH]; intros tp n Hne; [done|].
  rewrite clf_walk_cons. cbv zeta.
  destruct r as [|[b1 s1] r']; [done|].
  destruct (Qeq_bool s s1); [by apply IH|done].
Qed.

Lemma corners_Forall (P : metrics.point → Prop) (l : list metrics.point) :
  Forall P l → Forall P (metrics.corners l).
Proof.
  induction l as [|a r IH]; intros H; [done|].
  rewrite corners_cons. inversion H as [|? ? Ha Hr]; subst.
  specialize (IH Hr).
  destruct r as [|b [|c r']]; [done|done|].
  destruct (metrics.is_corner a b c); [|done].
  constructor; [by inversion Hr|done].
Qed.

Lemma corners_ascending (l : list metrics.point) :
  ascending metrics.fps l → ascending metrics.fps (metrics.corners l).
Proof.
  induction l as [|a r IH]; intros H; [done|].
  rewrite corners_cons. destruct H as [Ha Hr]. specialize (IH Hr).
  destruct r as [|b [|c r']]; [done|by split|].
  destruct (metrics.is_corner a b c); [|done].
  split; [|done]. apply corners_Forall.
  destruct Hr as [Hb _]. constructor; [lia|done].
Qed.

Lemma drop_intermediate_fps (l : list metrics.point) :
  Forall (λ p, (0 ≤ metrics.fps p)%Z) l →
  ascending metrics.fps l →
  Forall (λ p, (0 ≤ metrics.fps p)%Z) (metrics.drop_intermediate l)
  ∧ ascending metrics.fps (metrics.drop_intermediate l).
Proof.
  intros Hlow Hasc. unfold metrics.drop_intermediate.
  destruct l as [|a [|b [|c r]]]; try done.
  split.
  - constructor; [by inversion Hlow|]. by apply corners_Forall.
  - split; [|by apply corners_ascending].
    apply corners_Forall. destruct Hasc as [Ha _].
    constructor; [lia|done].
Qed.

Lemma drop_intermediate_nonempty (l : list metrics.point) :
  l ≠ [] → metrics.drop_intermediate l ≠ [].
Proof. by destruct l as [|a [|b [|c r]]]. Qed.

Lemma rates_length (counts : list Z) :
  length (metrics.rates counts) = length counts.
Proof.
  unfold metrics.rates. destruct (_ <=? _)%Z; by rewrite length_map.
Qed.

(** The rates of counts that never decrease have no negative step. *)
Lemma rates_no_negative_step (counts : list Z) :
  ascending (λ c, c) counts →
  existsb (λ d, fl.ltb d (Fin 0)) (np.diff (metrics.rates counts)) = false.
Proof.
  unfold metrics.rates. intros Hasc.
  destruct (Z.leb_spec (List.last counts 0%Z) 0) as [_|Hpos].
  - clear Hasc. induction counts as [|c r IH]; [done|].
    rewrite map_cons, diff_cons. destruct r as [|c1 r']; [done|].
    rewrite map_cons. rewrite map_cons in IH. simpl. exact IH.
  - generalize dependent (List.last counts 0%Z). intros total Hpos.
    assert (0 < inject_Z total) as Hq by (rewrite <- (Zlt_Qlt 0); lia).
    induction counts as [|c r IH]; [done|].
    destruct Hasc as [Hc Hr]. specialize (IH Hr).
    rewrite map_cons, diff_cons. destruct r as [|c1 r']; [done|].
    rewrite map_cons. rewrite map_cons in IH.
    cbn [existsb]. rewrite IH, orb_false_r.
    unfold np.true_divide, fl.of_int, fl.div.
    rewrite (Qeq_bool_false (inject_Z total) 0) by lra.
    cbn [fl.sub fl.neg fl.add fl.ltb]. apply Qltb_false.
    inversion Hc as [|? ? Hle _]; subst.
    assert (inject_Z c <= inject_Z c1) as Hle' by (by rewrite <- Zle_Qle).
    assert (inject_Z c / inject_Z total <= inject_Z c1 / inject_Z total).
    { apply Qmult_le_compat_r; [done|]. apply Qinv_le_0_compat. lra. }
    lra.
Qed.

Lemma argmax_go_lt (l : list npfloat) :
  ∀ (bi : nat) (best : npfloat) (i : nat),
    (bi < i)%nat → (np.argmax_go bi best i l < i + length l)%nat.
Proof.
  induction l as [|x r IH]; intros bi best i Hbi; simpl; [lia|].
  destruct (np.better best x).
  - specialize (IH i x (S i)). lia.
  - specialize (IH bi best (S i)). lia.
Qed.

Lemma argmax_lt (y : list npfloat) :
  y ≠ [] → ∃ k, np.argmax y = Ok k ∧ (k < length y)%nat.
Proof.
  destruct y as [|x r]; [done|]. intros _. eexists. split; [reflexivity|].
  pose proof (argmax_go_lt r 0 x 1). simpl. lia.
Qed.

Lemma finite_scores_length (l : list npfloat) (qs : list Q) :
  metrics.finite_scores l = Some qs → length qs = length l.
Proof.
  revert qs. induction l as [|x r IH]; intros qs H; simpl in H.
  - by injection H as <-.
  - destruct x; try discriminate.
    destruct (metrics.finite_scores r) as [qs'|]; [|discriminate].
    injection H as <-. simpl. f_equal. by apply IH.
Qed.

Lemma insert_length (x : bool * Q) (l : list (bool * Q)) :
  length (metrics.insert x l) = S (length l).
Proof.
  induction l as [|y r IH]; [done|]. simpl.
  destruct (Qle_bool x.2 y.2); simpl; [done|by rewrite IH].
Qed.

Lemma sort_desc_length (l : list (bool * Q)) :
  length (metrics.sort_desc l) = length l.
Proof.
  unfold metrics.sort_desc. rewrite length_rev.
  induction l as [|x r IH]; [done|]. simpl. by rewrite insert_length, IH.
Qed.

Lemma index_lt {A} (l : list A) (i : nat) :
  (i < length l)%nat → ∃ a, index l i = Ok a.
Proof.
  intros H. unfold index. destruct (lookup_lt_is_Some_2 l i H) as [a ->].
  eauto.
Qed.

(** The shape of a computed curve: three arrays of one length, at least
    two points, and false-positive rates without a negative step. *)
Lemma roc_curve_shape (ytrue : list Z) (ypred : list npfloat)
    (c : metrics.curve) :
  metrics.roc_curve ytrue ypred = Ok c →
  length (metrics.fpr c) = length (metrics.thresholds c)
  ∧ length (metrics.tpr c) = length (metrics.thresholds c)
  ∧ (2 ≤ length (metrics.thresholds c))%nat
  ∧ existsb (λ d, fl.ltb d (Fin 0)) (np.diff (metrics.fpr c)) = false.
Proof.
  unfold metrics.roc_curve. intros H.
  destruct (metrics.binary_labels ytrue) eqn:Hbin; [|discriminate].
  destruct (length ytrue =? length ypred)%nat eqn:Hlen; [|discriminate].
  destruct (metrics.finite_scores ypred) as [scores|] eqn:Hfin; [|discriminate].
  cbn [negb] in H. injection H as <-.
  cbn [metrics.fpr metrics.tpr metrics.thresholds].
  apply Nat.eqb_eq in Hlen. apply finite_scores_length in Hfin.
  unfold metrics.binary_clf_curve.
  set (sorted := metrics.sort_desc _).
  assert (sorted ≠ []) as Hne.
  { intros Hs. apply (f_equal length) in Hs. subst sorted.
    rewrite sort_desc_length, length_zip, length_map in Hs.
    unfold metrics.binary_labels in Hbin.
    destruct ytrue; [done|]. simpl length in *. lia. }
  destruct (clf_walk_fps sorted 0 0) as [Hlow Hasc].
  destruct (drop_intermediate_fps _ Hlow Hasc) as [Hlow' Hasc'].
  pose proof (drop_intermediate_nonempty _ (clf_walk_nonempty sorted 0 0 Hne))
    as Hpts.
  set (pts := metrics.drop_intermediate _) in *.
  rewrite !rates_length. simpl. rewrite !length_map.
  repeat split; [destruct pts; [done|simpl; lia]|].
  apply rates_no_negative_step. split.
  - apply Forall_map. exact Hlow'.
  - clear -Hasc'. induction pts as [|p r IH]; [done|].
    destruct Hasc' as [Hp Hr]. split; [by apply Forall_map|by apply IH].
Qed.

(** [statis_auc] returns whenever [roc_curve] does. *)
Lemma statis_auc_returns (ytrue : list Z) (ypred : list npfloat)
    (c : metrics.curve) :
  metrics.roc_curve ytrue ypred = Ok c →
  ∃ st, statis_auc ytrue ypred = Ok st.
Proof.
  intros Hc. destruct (roc_curve_shape _ _ _ Hc) as (Hf & Ht & Hlen & Hdx).
  unfold statis_auc. rewrite Hc. simpl.
  assert (length (youden c) = length (metrics.thresholds c)) as Hy.
  { unfold youden. rewrite length_zip_with. lia. }
  destruct (argmax_lt (youden c)) as (k & -> & Hk).
  { intros E. rewrite E in Hy. simpl in Hy. lia. }
  simpl.
  destruct (index_lt (metrics.thresholds c) k) as [t ->]; [lia|]. simpl.
  destruct (index_lt (metrics.fpr c) k) as [x ->]; [lia|]. simpl.
  destruct (index_lt (metrics.tpr c) k) as [y ->]; [lia|]. simpl.
  unfold metrics.auc. rewrite Hf, Ht, Nat.eqb_refl. simpl.
  destruct (Nat.ltb_spec (length (metrics.thresholds c)) 2); [lia|].
  rewrite Hdx. simpl. eauto.
Qed.

(** ** Both classes present: the curve is non-degenerate *)

Lemma positives_app (l k : list (bool * Q)) :
  positives (l ++ k) = (positives l + positives k)%Z.
Proof. induction l as [|[b s] r IH]; simpl; lia. Qed.

Lemma positives_bounds (l : list (bool * Q)) :
  (0 ≤ positives l ≤ Z.of_nat (length l))%Z.
Proof. induction l as [|[[] s] r IH]; simpl; lia. Qed.

Lemma positives_insert (x : bool * Q) (l : list (bool * Q)) :
  positives (metrics.insert x l) = positives (x :: l).
Proof.
  induction l as [|y r IH]; [done|]. simpl metrics.insert.
  destruct (Qle_bool x.2 y.2); [done|].
  destruct x as [bx sx], y as [by' sy]. simpl in *. lia.
Qed.

Lemma positives_sort_desc (l : list (bool * Q)) :
  positives (metrics.sort_desc l) = positives l.
Proof.
  unfold metrics.sort_desc.
  assert (∀ k, positives (rev k) = positives k) as Hrev.
  { induction k as [|[b s] r IH]; [done|].
    simpl rev. rewrite positives_app, IH. simpl. lia. }
  rewrite Hrev. induction l as [|x r IH]; [done|].
  simpl fold_right. rewrite positives_insert.
  destruct x. simpl. lia.
Qed.

(** The last point of the walk counts all pairs. *)
Lemma clf_walk_last (l : list (bool * Q)) :
  ∀ (tp n : Z) (d : metrics.point),
    l ≠ [] →
    metrics.tps (List.last (metrics.clf_walk tp n l) d) = (tp + positives l)%Z
    ∧ metrics.fps (List.last (metrics.clf_walk tp n l) d)
      = (n + Z.of_nat (length l) - (tp + positives l))%Z.
Proof.
  induction l as [|[b s] r IH]; intros tp n d Hne; [done|].
  rewrite clf_walk_cons. cbv zeta.
  destruct r as [|[b1 s1] r'].
  - simpl. lia.
  - specialize (IH (tp + (if b then 1 else 0))%Z (n + 1)%Z d ltac:(done)).
    pose proof (clf_walk_nonempty ((b1, s1) :: r')
                  (tp + (if b then 1 else 0))%Z (n + 1)%Z ltac:(done)) as Hw.
    destruct (Qeq_bool s s1).
    + destruct IH as [-> ->]. simpl positives. simpl length. lia.
    + destruct (metrics.clf_walk _ _ ((b1, s1) :: r')) as [|p ps] eqn:E;
        [done|].
      change (List.last (?x :: p :: ps) d) with (List.last (p :: ps) d).
      destruct IH as [-> ->]. simpl positives. simpl length. lia.
Qed.

Lemma corners_nonempty (l : list metrics.point) :
  ∀ a, l ≠ [] → metrics.corners (a :: l) ≠ [].
Proof.
  induction l as [|b r IH]; intros a Hne; [done|].
  rewrite corners_cons. destruct r as [|c r']; [done|].
  destruct (metrics.is_corner a b c); [done|]. by apply IH.
Qed.

Lemma last_cons_nonempty {A} (x : A) (l : list A) (d : A) :
  l ≠ [] → List.last (x :: l) d = List.last l d.
Proof. by destruct l. Qed.

Lemma corners_last (l : list metrics.point) (d : metrics.point) :
  ∀ a, l ≠ [] → List.last (metrics.corners (a :: l)) d = List.last l d.
Proof.
  induction l as [|b r IH]; intros a Hne; [done|].
  rewrite corners_cons. destruct r as [|c r']; [done|].
  rewrite (last_cons_nonempty b (c :: r')) by done.
  destruct (metrics.is_corner a b c); [|by apply IH].
  rewrite last_cons_nonempty by (by apply corners_nonempty).
  by apply IH.
Qed.

Lemma drop_intermediate_last (l : list metrics.point) (d : metrics.point) :
  List.last (metrics.drop_intermediate l) d = List.last l d.
Proof.
  unfold metrics.drop_intermediate.
  destruct l as [|a [|b [|c r]]]; try done.
  rewrite (last_cons_nonempty a (metrics.corners _))
    by (by apply corners_nonempty).
  rewrite (last_cons_nonempty a (b :: c :: r)) by done.
  by apply corners_last.
Qed.

Lemma positives_labels (ytrue : list Z) :
  ∀ scores : list Q,
    length ytrue = length scores →
    (1%Z ∈ ytrue → 0 < positives (zip (map (λ t, (t =? 1)%Z) ytrue) scores))%Z
    ∧ ((∃ t, t ∈ ytrue ∧ t ≠ 1%Z) →
       positives (zip (map (λ t, (t =? 1)%Z) ytrue) scores)
       < Z.of_nat (length ytrue))%Z.
Proof.
  induction ytrue as [|t r IH]; intros scores Hlen.
  - split; [by intros ?%elem_of_nil|]. by intros (t & ?%elem_of_nil & _).
  - destruct scores as [|s scores]; [done|].
    injection Hlen as Hlen. destruct (IH scores Hlen) as [Hpos Hneg].
    pose proof (positives_bounds (zip (map (λ t, (t =? 1)%Z) r) scores)) as Hb.
    rewrite length_zip_with, length_map in Hb.
    simpl map. simpl zip. simpl positives. simpl length. split.
    + intros [<-|Hin]%elem_of_cons; [rewrite Z.eqb_refl; lia|].
      specialize (Hpos Hin). destruct (t =? 1)%Z; lia.
    + intros (u & [->|Hin]%elem_of_cons & Hu).
      * destruct (Z.eqb_spec t 1); [done|]. lia.
      * assert (∃ t, t ∈ r ∧ t ≠ 1%Z) as Hex by eauto.
        specialize (Hneg Hex). destruct (t =? 1)%Z; lia.
Qed.

Lemma rates_finite (counts : list Z) :
  (0 < List.last counts 0)%Z →
  Forall (λ x, fl.is_fin x = true) (metrics.rates counts).
Proof.
  intros Hpos. unfold metrics.rates.
  destruct (Z.leb_spec (List.last counts 0%Z) 0) as [|_]; [lia|].
  apply Forall_map. apply Forall_forall. intros c _. simpl.
  unfold np.true_divide, fl.of_int, fl.div.
  assert (0 < inject_Z (List.last counts 0%Z)) as Hq
    by (rewrite <- (Zlt_Qlt 0); lia).
  by rewrite (Qeq_bool_false _ 0) by lra.
Qed.

Lemma last_map_cons {A} (f : A → Z) (l : list A) (d : A) :
  l ≠ [] → List.last (0%Z :: map f l) 0%Z = f (List.last l d).
Proof.
  intros Hne. rewrite last_cons_nonempty by (by destruct l).
  induction l as [|x r IH]; [done|].
  destruct r as [|y r']; [done|].
  rewrite map_cons, !last_cons_nonempty by done. by apply IH.
Qed.

(** When the labels hold a 1 and a label other than 1, every rate of the
    computed curve is a number. *)
Lemma both_classes_nondegenerate (ytrue : list Z) (ypred : list npfloat)
    (c : metrics.curve) :
  metrics.roc_curve ytrue ypred = Ok c →
  1%Z ∈ ytrue → (∃ t, t ∈ ytrue ∧ t ≠ 1%Z) →
  nondegenerate c.
Proof.
  unfold metrics.roc_curve. intros H H1 H0.
  destruct (metrics.binary_labels ytrue) eqn:Hbin; [|discriminate].
  destruct (length ytrue =? length ypred)%nat eqn:Hlen; [|discriminate].
  destruct (metrics.finite_scores ypred) as [scores|] eqn:Hfin; [|discriminate].
  cbn [negb] in H. injection H as <-.
  apply Nat.eqb_eq in Hlen. apply finite_scores_length in Hfin.
  unfold nondegenerate, metrics.binary_clf_curve.
  cbn [metrics.fpr metrics.tpr].
  set (pairs := zip _ scores).
  destruct (positives_labels ytrue scores ltac:(lia)) as [Hpos Hneg].
  fold pairs in Hpos, Hneg. specialize (Hpos H1). specialize (Hneg H0).
  assert (length pairs = length ytrue) as Hpl.
  { subst pairs. rewrite length_zip_with, length_map. lia. }
  assert (metrics.sort_desc pairs ≠ []) as Hne.
  { intros E. apply (f_equal length) in E.
    rewrite sort_desc_length, Hpl in E. destruct ytrue; [|done].
    by apply elem_of_nil in H1. }
  pose proof (clf_walk_nonempty _ 0 0 Hne) as Hw.
  pose proof (drop_intermediate_nonempty _ Hw) as Hd.
  destruct (clf_walk_last _ 0 0 (metrics.Point 0 0 0) Hne) as [Ht Hf].
  rewrite positives_sort_desc in Ht, Hf.
  rewrite sort_desc_length, Hpl in Hf.
  split; apply rates_finite;
    rewrite (last_map_cons _ _ (metrics.Point 0 0 0) Hd),
      drop_intermediate_last; lia.
Qed.

Lemma bind_Ok {A B} (m : result A) (k : A → result B) (b : B) :
  m ≫= k = Ok b → ∃ a, m = Ok a ∧ k a = Ok b.
Proof. destruct m as [a|e]; [eauto | discriminate]. Qed.

Lemma index_Ok {A} (l : list A) (i : nat) (a : A) :
  index l i = Ok a → l !! i = Some a.
Proof. unfold index. destruct (l !! i); congruence. Qed.

Ltac bind_inv H :=
  let a := fresh "a" in
  let E := fresh "E" in
  apply bind_Ok in H as (a & E & H); cbv beta in H.

(** C6. On a non-degenerate ROC curve, [statis_auc] returns the threshold
    of the curve point whose TPR - FPR is the largest: no point of the
    curve has a strictly larger value, and every point before the selected
    one in the curve's order has a strictly smaller value, so that among
    several maxima the first is taken. *)
Theorem youden_threshold_optimal (ytrue : list Z) (ypred : list npfloat)
    (c : metrics.curve) :
  metrics.roc_curve ytrue ypred = Ok c →
  nondegenerate c →
  ∃ st k yk,
    statis_auc ytrue ypred = Ok st
    ∧ metrics.thresholds c !! k = Some (optimal_threshold st)
    ∧ metrics.fpr c !! k = Some (stat_point st).1
    ∧ metrics.tpr c !! k = Some (stat_point st).2
    ∧ youden c !! k = Some yk
    ∧ (∀ j yj, youden c !! j = Some yj → fl_le yj yk)
    ∧ (∀ j yj, (j < k)%nat → youden c !! j = Some yj → fl_lt yj yk).
Proof.
  intros Hc Hnd. destruct (statis_auc_returns _ _ _ Hc) as [st Hst].
  exists st. pose proof Hst as Hret.
  unfold statis_auc in Hst. rewrite Hc in Hst. simpl in Hst.
  bind_inv Hst. rename a into k, E into Hk.
  bind_inv Hst. rename a into t, E into Ht.
  bind_inv Hst. rename a into x, E into Hx.
  bind_inv Hst. rename a into y, E into Hy.
  bind_inv Hst. injection Hst as <-. simpl.
  destruct (argmax_first_max (youden c) k (youden_finite c Hnd) Hk)
    as (yk & Hyk & Hmax & Hfirst).
  exists k, yk. eauto 10 using index_Ok.
Qed.

(** Four patients whose curve has two maxima of TPR - FPR (at the
    thresholds 0.9 and 0.7): the first one, 0.9, is selected. *)
Lemma youden_threshold_optimal_witness :
  let ytrue := [1; 0; 1; 0]%Z in
  let ypred := [Fin 0.9; Fin 0.8; Fin 0.7; Fin 0.6] in
  ∃ c,
    metrics.roc_curve ytrue ypred = Ok c
    ∧ nondegenerate c
    ∧ youden c !! 1%nat = youden c !! 3%nat
    ∧ ∃ st k yk,
        statis_auc ytrue ypred = Ok st
        ∧ optimal_threshold st = Fin 0.9
        ∧ metrics.thresholds c !! k = Some (optimal_threshold st)
        ∧ youden c !! k = Some yk
        ∧ (∀ j yj, youden c !! j = Some yj → fl_le yj yk)
        ∧ (∀ j yj, (j < k)%nat → youden c !! j = Some yj → fl_lt yj yk).
Proof.
  intros ytrue ypred.
  eexists.
  split; [vm_compute; reflexivity|].
  split; [split; repeat constructor|].
  split; [reflexivity|].
  edestruct (youden_threshold_optimal ytrue ypred)
    as (st & k & yk & Hst & Hthr & _ & _ & Hyk & Hmax & Hfirst).
  - vm_compute; reflexivity.
  - split; repeat constructor.
  - exists st, k, yk. repeat split; try done.
    assert (∃ st0, statis_auc ytrue ypred = Ok st0
                   ∧ optimal_threshold st0 = Fin 0.9) as (st0 & H0 & Ht0).
    { eexists. split; [vm_compute; reflexivity|reflexivity]. }
    rewrite H0 in Hst. by injection Hst as <-.
Defined.

(** ** Loops in the error monad *)

Lemma foldM_invariant {A B} (P : A → Prop) (f : A → B → result A)
    (l : list B) (a a' : A) :
  (∀ x b y, P x → f x b = Ok y → P y) →
  P a → foldM f a l = Ok a' → P a'.
Proof.
  intros Hstep. revert a. induction l as [|b r IH]; intros a Ha H; simpl in H.
  - by injection H as <-.
  - bind_inv H. eauto.
Qed.

Lemma mapM_Ok {A B} (f : A → result B) (l : list A) (r : list B) :
  mapM f l = Ok r → Forall2 (λ x y, f x = Ok y) l r.
Proof.
  revert r. induction l as [|x l IH]; intros r H; simpl in H.
  - injection H as <-. constructor.
  - bind_inv H. bind_inv H. injection H as <-. constructor; eauto.
Qed.

Lemma append_keys {V} (d d' : dict (list V)) (k : string) (v : V) :
  dict_ops.append d k v = Ok d' → keys d' = keys d.
Proof.
  unfold dict_ops.append. destruct (items d !! k); [|discriminate].
  by intros [= <-].
Qed.

Lemma record_batch_keys (dict_new : dict (list Q)) (d d' : dict (list vec2))
    (b : batch) :
  record_batch dict_new d b = Ok d' → keys d' = keys d.
Proof.
  unfold record_batch. intros H. bind_inv H.
  apply (foldM_invariant (λ x, keys x = keys d)) in H; [done| |done].
  intros x s y Hx Hy. apply append_keys in Hy. congruence.
Qed.

Lemma record_all_keys (dict_new : dict (list Q)) (d d' : dict (list vec2))
    (steps : list batch) :
  foldM (record_batch dict_new) d steps = Ok d' → keys d' = keys d.
Proof.
  intros H.
  apply (foldM_invariant (λ x, keys x = keys d)) in H; [done| |done].
  intros x s y Hx Hy. apply record_batch_keys in Hy. congruence.
Qed.

(** ** The four counts *)

Lemma count_where_cons (f : Z → Z → bool) (t p : Z) (a b : list Z) :
  np.count_where f (t :: a) (p :: b)
  = ((if f t p then 1 else 0) + np.count_where f a b)%Z.
Proof.
  unfold np.count_where. simpl zip. rewrite filter_cons.
  destruct (decide _) as [Hf|Hf]; simpl in Hf.
  - rewrite Hf. simpl length. lia.
  - destruct (f t p); [done|]. lia.
Qed.

Lemma count_where_nil_l (f : Z → Z → bool) (b : list Z) :
  np.count_where f [] b = 0%Z.
Proof. done. Qed.

Lemma patient_truth_bit (target : Z) : bit (patient_truth target).
Proof. unfold bit, patient_truth. destruct (target =? 2)%Z; auto. Qed.

Lemma counts_sum (ytrue pred : list Z) :
  Forall2 (λ t p, bit t ∧ bit p) ytrue pred →
  (count_TP ytrue pred + count_TN ytrue pred
   + count_FP ytrue pred + count_FN ytrue pred)%Z
  = Z.of_nat (length ytrue).
Proof.
  unfold count_TP, count_TN, count_FP, count_FN.
  induction 1 as [|t p a b [Ht Hp] _ IH]; [done|].
  rewrite !count_where_cons. simpl length.
  destruct Ht as [-> | ->], Hp as [-> | ->]; simpl; lia.
Qed.

Lemma binarize_bits (ytrue : list Z) (threshold : npfloat) :
  Forall bit ytrue →
  Forall2 (λ t p, bit t ∧ bit p) ytrue (binarize ytrue threshold).
Proof.
  induction 1 as [|t a Ht _ IH]; [constructor|].
  change (binarize (t :: a) threshold)
    with ((if fl.geb (fl.of_int t) threshold then 1%Z else 0%Z)
          :: binarize a threshold).
  constructor; [|done].
  split; [done|]. unfold bit. destruct (fl.geb (fl.of_int t) threshold); auto.
Qed.

Lemma scored_truth_bits (dict_test : dict (list vec2)) (dict_label : dict Z)
    (ks : list string) (scored : list (Z * npfloat)) :
  mapM (score_patient dict_test dict_label) ks = Ok scored →
  length scored = length ks ∧ Forall bit (map fst scored).
Proof.
  intros H. apply mapM_Ok in H. split.
  - symmetry. by eapply Forall2_length.
  - induction H as [|k s ks scored Hs _ IH]; simpl; constructor; [|done].
    unfold score_patient in Hs. bind_inv Hs. bind_inv Hs.
    injection Hs as <-. apply patient_truth_bit.
Qed.

(** C7. Whenever an evaluation pass completes, its four counts TP, TN,
    FP and FN add up to the number of test patients, the keys of
    [dict_test]. *)
Theorem confusion_counts_conserved (steps : list batch)
    (dict_test : dict (list vec2)) (dict_label : dict Z)
    (dict_new : dict (list Q)) (v : test_locals) :
  test_body steps dict_test dict_label dict_new = Ok v →
  (TP v + TN v + FP v + FN v)%Z = Z.of_nat (length (keys dict_test)).
Proof.
  intros H. unfold test_body in H.
  bind_inv H. rename a into d, E into Hd.
  bind_inv H. bind_inv H. rename a0 into scored, E0 into Hs.
  bind_inv H. bind_inv H. injection H as <-. simpl.
  apply record_all_keys in Hd. rewrite Hd in Hs.
  apply scored_truth_bits in Hs as [Hlen Hbits].
  rewrite counts_sum by (by apply binarize_bits).
  by rewrite length_map, Hlen.
Qed.

Lemma confusion_counts_conserved_witness :
  ∃ v, scenario = Ok v
       ∧ (TP v + TN v + FP v + FN v)%Z = 3%Z.
Proof.
  eexists. split; [vm_compute; reflexivity|].
  refine (confusion_counts_conserved scenario_steps
            (dict_ops.empty_lists scenario_csv)
            (dict_ops.of_rows scenario_csv) scenario_features _ _).
  vm_compute; reflexivity.
Defined.

(** ** Binarized predictions and the counts *)

Lemma count_where_tally (t p : Z) (ytrue pred : list Z) :
  np.count_where (λ y q, (y =? t)%Z && (q =? p)%Z) ytrue pred
  = tally t p ytrue pred.
Proof.
  revert pred. induction ytrue as [|y ys IH]; intros pred; [done|].
  destruct pred as [|q qs]; [done|].
  rewrite count_where_cons, IH. simpl. f_equal.
  case_bool_decide as Hd.
  - destruct Hd as [-> ->]. by rewrite !Z.eqb_refl.
  - destruct (Z.eqb_spec y t), (Z.eqb_spec q p); simpl; try done.
    exfalso. auto.
Qed.

(** C1 fails on the code.  Line 555 compares the true labels, not the
    scores, with the selected threshold.  For three test patients with
    true labels [0, 1, 0] and scores [0.2, 0.8, 0.9] the selected threshold
    is 0.8 and the scores binarized at it are [0, 1, 1], one patient
    misclassified; the program's predictions are [0, 1, 0], the labels
    binarized, and its counts are TP = 1, TN = 2, FP = 0, FN = 0 where the
    binarized scores give TP = 1, TN = 1, FP = 0, FN = 1.  In the scenario
    of the specification (scores [0.2, 0.8, 0.6]) the selected threshold is
    0.8 as well, so that the scores binarized at it are [0, 1, 0], not
    [0, 1, 1], and no patient is misclassified. *)
Theorem predictions_compare_labels_not_scores :
  (∃ v, scenario_high = Ok v
        ∧ ll_ytrue v = [0; 1; 0]%Z
        ∧ ll_ypred v = [Fin 0.2; Fin 0.8; Fin 0.9]
        ∧ optimal_threshold (stats v) = Fin 0.8
        ∧ binarize_scores (ll_ypred v) (optimal_threshold (stats v))
          = [0; 1; 1]%Z
        ∧ y_pred_binary v = [0; 1; 0]%Z
        ∧ y_pred_binary v
          = binarize (ll_ytrue v) (optimal_threshold (stats v))
        ∧ (TP v, TN v, FP v, FN v) = (1, 2, 0, 0)%Z
        ∧ (let pred := binarize_scores (ll_ypred v)
                         (optimal_threshold (stats v)) in
           (tally 1 1 (ll_ytrue v) pred, tally 0 0 (ll_ytrue v) pred,
            tally 1 0 (ll_ytrue v) pred, tally 0 1 (ll_ytrue v) pred)
           = (1, 1, 0, 1)%Z))
  ∧ (∃ v, scenario = Ok v
          ∧ ll_ytrue v = [0; 1; 0]%Z
          ∧ ll_ypred v = [Fin 0.2; Fin 0.8; Fin 0.6]
          ∧ optimal_threshold (stats v) = Fin 0.8
          ∧ binarize_scores (ll_ypred v) (optimal_threshold (stats v))
            = [0; 1; 0]%Z
          ∧ y_pred_binary v = [0; 1; 0]%Z
          ∧ (TP v, TN v, FP v, FN v) = (1, 2, 0, 0)%Z).
Proof.
  split; eexists; (split; [vm_compute; reflexivity|]); simpl;
    repeat split; reflexivity.
Qed.

(** ** The summary metrics *)

Lemma count_where_nonneg (f : Z → Z → bool) (a b : list Z) :
  (0 ≤ np.count_where f a b)%Z.
Proof. unfold np.count_where. lia. Qed.

(** A ratio of counts with a positive denominator is a number in [0, 1]. *)
Lemma ratio_between (a b : Z) :
  (0 ≤ a ≤ b)%Z → (0 < b)%Z →
  ∃ q, np.true_divide a b = Fin q ∧ 0 <= q ∧ q <= 1.
Proof.
  intros [Ha Hab] Hb. unfold np.true_divide, fl.of_int, fl.div.
  assert (0 < inject_Z b) as Hb' by (rewrite <- (Zlt_Qlt 0); lia).
  assert (0 <= inject_Z a) as Ha' by (rewrite <- (Zle_Qle 0); lia).
  assert (inject_Z a <= inject_Z b) as Hab' by (by rewrite <- Zle_Qle).
  rewrite (Qeq_bool_false (inject_Z b) 0) by lra.
  eexists. split; [reflexivity|]. split.
  - apply Qle_shift_div_l; lra.
  - apply Qle_shift_div_r; lra.
Qed.

(** C8, as stated, fails: on the inverted pair the pass completes with
    TP + FN = 0, and sensitivity and balanced accuracy are NaN, which is
    no value between 0 and 1. *)
Lemma metrics_not_always_defined :
  ∃ v, scenario_inverted = Ok v
       ∧ (TP v + FN v)%Z = 0%Z
       ∧ SEN v = NaN ∧ mAP v = NaN
       ∧ ¬ fl.between 0 1 (SEN v) ∧ ¬ fl.between 0 1 (mAP v).
Proof.
  eexists. split; [vm_compute; reflexivity|]. simpl.
  repeat split; try reflexivity; intros [].
Qed.

(** C8, amended. For every true-label vector and prediction vector with
    TP + FN > 0 and TN + FP > 0, sensitivity, specificity, balanced
    accuracy and overall accuracy are numbers between 0 and 1
    inclusive. *)
Theorem metrics_between_0_and_1 (ytrue pred : list Z) :
  let tp := count_TP ytrue pred in
  let tn := count_TN ytrue pred in
  let fp := count_FP ytrue pred in
  let fn := count_FN ytrue pred in
  (0 < tp + fn)%Z → (0 < tn + fp)%Z →
  fl.between 0 1 (sensitivity tp fn)
  ∧ fl.between 0 1 (specificity tn fp)
  ∧ fl.between 0 1 (balanced (sensitivity tp fn) (specificity tn fp))
  ∧ fl.between 0 1 (accuracy tp tn fp fn).
Proof.
  intros tp tn fp fn Hp Hn.
  assert (0 ≤ tp)%Z as Htp by apply count_where_nonneg.
  assert (0 ≤ tn)%Z as Htn by apply count_where_nonneg.
  assert (0 ≤ fp)%Z as Hfp by apply count_where_nonneg.
  assert (0 ≤ fn)%Z as Hfn by apply count_where_nonneg.
  unfold sensitivity, specificity, accuracy, balanced.
  destruct (ratio_between tp (tp + fn)) as (s & -> & Hs0 & Hs1); [lia|lia|].
  destruct (ratio_between tn (tn + fp)) as (e & -> & He0 & He1); [lia|lia|].
  destruct (ratio_between (tp + tn) (tp + tn + fp + fn))
    as (a & -> & Ha0 & Ha1); [lia|lia|].
  simpl. repeat split; try done.
  - apply Qle_shift_div_l; lra.
  - apply Qle_shift_div_r; lra.
Qed.

Lemma metrics_between_0_and_1_witness :
  let ytrue := [0; 1; 0]%Z in
  let pred := [0; 1; 0]%Z in
  fl.between 0 1 (sensitivity (count_TP ytrue pred) (count_FN ytrue pred))
  ∧ fl.between 0 1 (specificity (count_TN ytrue pred) (count_FP ytrue pred))
  ∧ fl.between 0 1
      (balanced (sensitivity (count_TP ytrue pred) (count_FN ytrue pred))
                (specificity (count_TN ytrue pred) (count_FP ytrue pred)))
  ∧ fl.between 0 1
      (accuracy (count_TP ytrue pred) (count_TN ytrue pred)
                (count_FP ytrue pred) (count_FN ytrue pred)).
Proof.
  intros ytrue pred.
  apply (metrics_between_0_and_1 ytrue pred); vm_compute; reflexivity.
Defined.

(** ** Placement in the confusion matrices *)

Lemma test_conf_matrix_cells (tp tn fp fn : Z) :
  test_conf_matrix tp tn fp fn = Ok [[tp; fn]; [fp; tn]].
Proof. reflexivity. Qed.

Lemma target_index_lt (target : Z) : (target_index target < 2)%nat.
Proof. unfold target_index. destruct (target =? 2)%Z; lia. Qed.

Lemma torch_argmax_lt (ll : tensor2) : (torch_argmax ll < 2)%nat.
Proof.
  unfold torch_argmax.
  destruct (fl.is_nan ll.1), (fl.is_nan ll.2), (fl.ltb ll.1 ll.2); lia.
Qed.

(** One patient adds one to the cell of its (true, predicted) pair. *)
Lemma tally_patient_cells (d : dict (list vec2)) (dict_label : dict Z)
    (key : string) (x2 x4 y2 y4 a b c e : Z) (cm : matrix) :
  tally_patient d dict_label (x2, x4, [[a; b]; [c; e]]) key = Ok (y2, y4, cm) →
  ∃ t p,
    patient_cell d dict_label key = Some (t, p)
    ∧ cm = [[(a + if bool_decide ((t, p) = (0, 0)%nat) then 1 else 0)%Z;
             (b + if bool_decide ((t, p) = (0, 1)%nat) then 1 else 0)%Z];
            [(c + if bool_decide ((t, p) = (1, 0)%nat) then 1 else 0)%Z;
             (e + if bool_decide ((t, p) = (1, 1)%nat) then 1 else 0)%Z]].
Proof.
  unfold tally_patient, patient_cell, dict_ops.get. intros H.
  destruct (items d !! key) as [outs|]; [|discriminate].
  destruct (items dict_label !! key) as [target|]; [|discriminate].
  simpl in H. exists (target_index target), (torch_argmax (aggregate outs)).
  split; [done|].
  pose proof (target_index_lt target) as Ht.
  pose proof (torch_argmax_lt (aggregate outs)) as Hp.
  destruct (target_index target) as [|[|?]]; [| |lia];
    destruct (torch_argmax (aggregate outs)) as [|[|?]]; try lia;
    simpl in H; injection H as _ _ <-; simpl;
    repeat match goal with |- _ :: _ = _ :: _ => f_equal end; lia.
Qed.

Lemma tally_cells (d : dict (list vec2)) (dict_label : dict Z)
    (ks : list string) (x2 x4 y2 y4 a b c e : Z) (cm : matrix) :
  foldM (tally_patient d dict_label) (x2, x4, [[a; b]; [c; e]]) ks
  = Ok (y2, y4, cm) →
  cm = [[(a + patients_in_cell d dict_label 0 0 ks)%Z;
         (b + patients_in_cell d dict_label 0 1 ks)%Z];
        [(c + patients_in_cell d dict_label 1 0 ks)%Z;
         (e + patients_in_cell d dict_label 1 1 ks)%Z]].
Proof.
  revert x2 x4 a b c e.
  induction ks as [|k r IH]; intros x2 x4 a b c e H; simpl in H.
  - injection H as _ _ <-. simpl.
    repeat match goal with |- _ :: _ = _ :: _ => f_equal end; lia.
  - bind_inv H. destruct a0 as [[z2 z4] m].
    apply tally_patient_cells in E as (t & p & Hc & ->).
    apply IH in H as ->. simpl. rewrite Hc.
    repeat match goal with |- _ :: _ = _ :: _ => f_equal end;
      repeat case_bool_decide; simplify_eq; lia.
Qed.

Lemma test_body_conf_matrix (steps : list batch)
    (dict_test : dict (list vec2)) (dict_label : dict Z)
    (dict_new : dict (list Q)) (v : test_locals) :
  test_body steps dict_test dict_label dict_new = Ok v →
  conf_matrix v = [[TP v; FN v]; [FP v; TN v]]
  ∧ TP v = tally 1 1 (ll_ytrue v) (y_pred_binary v)
  ∧ TN v = tally 0 0 (ll_ytrue v) (y_pred_binary v)
  ∧ FP v = tally 1 0 (ll_ytrue v) (y_pred_binary v)
  ∧ FN v = tally 0 1 (ll_ytrue v) (y_pred_binary v).
Proof.
  intros H. unfold test_body in H.
  do 5 bind_inv H. injection H as <-. simpl.
  rewrite test_conf_matrix_cells in E3. injection E3 as <-.
  unfold count_TP, count_TN, count_FP, count_FN.
  by rewrite !count_where_tally.
Qed.

(** C10. The four calls of [test] put TP at [0][0], TN at [1][1], FP at
    [1][0] and FN at [0][1], and so does the matrix every completed
    evaluation pass returns, where TP, TN, FP and FN are the numbers of
    patients with (true label, prediction) equal to (1,1), (0,0), (1,0)
    and (0,1): with rows indexed by the true label and columns by the
    prediction, FP sits at (true = 1, pred = 0) and FN at
    (true = 0, pred = 1).  The training-time matrix instead gains one per
    patient at its [true class index][predicted class index] cell. *)
Theorem confusion_matrix_placement :
  (∀ tp tn fp fn m,
     test_conf_matrix tp tn fp fn = Ok m →
     cell m 0 0 = Some tp ∧ cell m 1 1 = Some tn
     ∧ cell m 1 0 = Some fp ∧ cell m 0 1 = Some fn)
  ∧ (∀ steps dict_test dict_label dict_new v,
       test_body steps dict_test dict_label dict_new = Ok v →
       cell (conf_matrix v) 0 0 = Some (TP v)
       ∧ cell (conf_matrix v) 1 1 = Some (TN v)
       ∧ cell (conf_matrix v) 1 0 = Some (FP v)
       ∧ cell (conf_matrix v) 0 1 = Some (FN v)
       ∧ TP v = tally 1 1 (ll_ytrue v) (y_pred_binary v)
       ∧ TN v = tally 0 0 (ll_ytrue v) (y_pred_binary v)
       ∧ FP v = tally 1 0 (ll_ytrue v) (y_pred_binary v)
       ∧ FN v = tally 0 1 (ll_ytrue v) (y_pred_binary v))
  ∧ (∀ d dict_label ks acc_2 acc_4 cm,
       foldM (tally_patient d dict_label) (0%Z, 0%Z, zeros 2 2) ks
       = Ok (acc_2, acc_4, cm) →
       ∀ t p, (t < 2)%nat → (p < 2)%nat →
         cell cm t p = Some (patients_in_cell d dict_label t p ks)).
Proof.
  split; [|split].
  - intros tp tn fp fn m H. rewrite test_conf_matrix_cells in H.
    by injection H as <-.
  - intros steps dict_test dict_label dict_new v H.
    apply test_body_conf_matrix in H as (-> & HTP & HTN & HFP & HFN).
    by repeat split.
  - intros d dict_label ks acc_2 acc_4 cm H t p Ht Hp.
    apply tally_cells in H as ->.
    destruct t as [|[|?]]; [| |lia]; destruct p as [|[|?]]; try lia; done.
Qed.

Lemma confusion_matrix_placement_witness :
  (∃ m, test_conf_matrix 5 6 7 8 = Ok m
        ∧ cell m 0 0 = Some 5%Z ∧ cell m 1 1 = Some 6%Z
        ∧ cell m 1 0 = Some 7%Z ∧ cell m 0 1 = Some 8%Z)
  ∧ (∃ v, scenario = Ok v
          ∧ (TP v, TN v, FP v, FN v) = (1, 2, 0, 0)%Z
          ∧ conf_matrix v = [[1; 0]; [0; 2]]%Z
          ∧ cell (conf_matrix v) 0 0 = Some (TP v)
          ∧ cell (conf_matrix v) 1 1 = Some (TN v)
          ∧ cell (conf_matrix v) 1 0 = Some (FP v)
          ∧ cell (conf_matrix v) 0 1 = Some (FN v)
          ∧ TP v = tally 1 1 (ll_ytrue v) (y_pred_binary v)
          ∧ TN v = tally 0 0 (ll_ytrue v) (y_pred_binary v)
          ∧ FP v = tally 1 0 (ll_ytrue v) (y_pred_binary v)
          ∧ FN v = tally 0 1 (ll_ytrue v) (y_pred_binary v))
  ∧ (∃ v, scenario_inverted = Ok v
          ∧ (TP v, TN v, FP v, FN v) = (0, 1, 1, 0)%Z
          ∧ conf_matrix v = [[0; 0]; [1; 1]]%Z
          ∧ cell (conf_matrix v) 0 0 = Some (TP v)
          ∧ cell (conf_matrix v) 1 1 = Some (TN v)
          ∧ cell (conf_matrix v) 1 0 = Some (FP v)
          ∧ cell (conf_matrix v) 0 1 = Some (FN v)
          ∧ TP v = tally 1 1 (ll_ytrue v) (y_pred_binary v)
          ∧ TN v = tally 0 0 (ll_ytrue v) (y_pred_binary v)
          ∧ FP v = tally 1 0 (ll_ytrue v) (y_pred_binary v)
          ∧ FN v = tally 0 1 (ll_ytrue v) (y_pred_binary v))
  ∧ (let d := Dict ["p1"; "p2"]
                (<["p1" := [(0.2, 0.8)]]> (<["p2" := [(0.8, 0.2)]]> ∅)) in
     let dict_label := dict_ops.of_rows [("p1", 2%Z); ("p2", 4%Z)] in
     ∃ acc_2 acc_4 cm,
       foldM (tally_patient d dict_label) (0%Z, 0%Z, zeros 2 2) (keys d)
       = Ok (acc_2, acc_4, cm)
       ∧ cell cm 1 1 = Some (patients_in_cell d dict_label 1 1 (keys d))
       ∧ cell cm 1 1 = Some 1%Z).
Proof.
  split; [|split; [|split]].
  - eexists. split; [reflexivity|].
    by apply (proj1 confusion_matrix_placement 5 6 7 8)%Z.
  - eexists. split; [vm_compute; reflexivity|].
    split; [reflexivity|]. split; [reflexivity|].
    refine (proj1 (proj2 confusion_matrix_placement) scenario_steps
              (dict_ops.empty_lists scenario_csv)
              (dict_ops.of_rows scenario_csv) scenario_features _ _).
    vm_compute; reflexivity.
  - eexists. split; [vm_compute; reflexivity|].
    split; [reflexivity|]. split; [reflexivity|].
    refine (proj1 (proj2 confusion_matrix_placement)
              [Batch [("p1", (0.9, 0.1))] (Fin 0.7);
               Batch [("p2", (0.1, 0.9))] (Fin 0.3)]
              (dict_ops.empty_lists [("p1", 2); ("p2", 4)]%Z)
              (dict_ops.of_rows [("p1", 2); ("p2", 4)]%Z)
              scenario_features _ _).
    vm_compute; reflexivity.
  - intros d dict_label. eexists _, _, _.
    split; [vm_compute; reflexivity|].
    split; [|reflexivity].
    refine (proj2 (proj2 confusion_matrix_placement) d dict_label (keys d)
              _ _ _ _ 1%nat 1%nat _ _); [vm_compute; reflexivity|lia|lia].
Defined.

(** ** The best checkpoint *)

Lemma min_step (x l m : npfloat) :
  fl.is_nan x = false → fl.is_nan l = false → fl.is_nan m = false →
  fl_lt x (if fl.ltb l m then l else m) ↔ fl_lt x m ∧ fl_lt x l.
Proof.
  unfold fl_lt.
  destruct x as [| | |x], l as [| | |l], m as [| | |m]; simpl;
    try discriminate; intros _ _ _;
    try (split; [intros ?|intros [? ?]]; done);
    try (destruct (fl.Qltb l m) eqn:E; simpl);
    rewrite ?Qltb_true in *; rewrite ?Qltb_false in *;
    try (split; [intros ?|intros [? ?]]; first [done | split; first [done|lra] | lra]).
Qed.

Lemma update_best_not_nan (l m : npfloat) :
  fl.is_nan m = false → fl.is_nan (update_best l m).2 = false.
Proof.
  unfold update_best. destruct (fl.ltb l m) eqn:E; [|done].
  intros _. by destruct l.
Qed.

Section BestCheckpoint.

Variable train_csv test_csv : list (string * Z).
Variable dict_new : dict (list Q).

Lemma train_epoch_best (n : nat) (inp : epoch_input) (st st1 : train_state)
    (rep : epoch_report) :
  train_epoch train_csv test_csv dict_new n inp st = Ok (st1, rep) →
  i_epoch rep = n
  ∧ best_updated rep = (update_best (loss_test rep) (min_acc_loss st)).1
  ∧ min_acc_loss st1 = (update_best (loss_test rep) (min_acc_loss st)).2
  ∧ best_ckpt st1 = (if best_updated rep then Some n else best_ckpt st)
  ∧ checkpoints st1 = checkpoints st ++ [n].
Proof.
  intros H. unfold train_epoch in H.
  do 3 bind_inv H. destruct a1 as [[acc_2 acc_4] cm].
  bind_inv H. unfold loss_test.
  destruct (update_best (r_loss a1) (min_acc_loss st)) as [b low] eqn:Eu.
  injection H as <- <-. simpl. by rewrite Eu.
Qed.

(** Along a run, an epoch updates the best checkpoint exactly when its
    test loss is below the starting [min_acc_loss] and below the test
    loss of every earlier epoch. *)
Lemma run_epochs_best (inputs : list epoch_input) :
  ∀ (n : nat) (st st' : train_state) (reps : list epoch_report),
    run_epochs train_csv test_csv dict_new n inputs st = Ok (st', reps) →
    fl.is_nan (min_acc_loss st) = false →
    Forall (λ rep, fl.is_nan (loss_test rep) = false) reps →
    ∀ k rep, reps !! k = Some rep →
      best_updated rep = true
      ↔ fl_lt (loss_test rep) (min_acc_loss st)
        ∧ ∀ j rep', (j < k)%nat → reps !! j = Some rep' →
                    fl_lt (loss_test rep) (loss_test rep').
Proof.
  induction inputs as [|inp rest IH]; intros n st st' reps H Hm Hnan k rep Hk;
    simpl in H.
  - injection H as _ <-. done.
  - bind_inv H. destruct a as [st1 rep0].
    bind_inv H. destruct a as [st2 reps'].
    injection H as _ <-.
    apply train_epoch_best in E as (_ & Hb & Hlow & _).
    inversion Hnan as [|? ? Hnan0 Hnan']; subst.
    destruct k as [|k]; simpl in Hk.
    + injection Hk as <-. rewrite Hb. unfold update_best, fl_lt.
      destruct (fl.ltb (loss_test rep0) (min_acc_loss st)); simpl.
      * split; [|done]. intros _. split; [done|]. intros j rep' Hj. lia.
      * split; [done|]. by intros [? _].
    + assert (fl.is_nan (loss_test rep) = false) as Hrep.
      { eapply (proj1 (Forall_lookup _ _) Hnan'); eauto. }
      assert (fl.is_nan (min_acc_loss st1) = false) as Hm1.
      { rewrite Hlow. by apply update_best_not_nan. }
      rewrite (IH _ _ _ _ E0 Hm1 Hnan' k rep Hk).
      rewrite Hlow. unfold update_best.
      replace ((if fl.ltb (loss_test rep0) (min_acc_loss st)
                then (true, loss_test rep0)
                else (false, min_acc_loss st)).2)
        with (if fl.ltb (loss_test rep0) (min_acc_loss st)
              then loss_test rep0 else min_acc_loss st)
        by (by destruct (fl.ltb _ _)).
      rewrite (min_step _ _ _ Hrep Hnan0 Hm).
      split.
      * intros [[Hlt Hlt0] Hprev]. split; [done|].
        intros [|j] rep' Hj Hj'; simpl in Hj'.
        -- by injection Hj' as <-.
        -- eapply Hprev; [|done]. lia.
      * intros [Hlt Hprev]. split; [split; [done|]|].
        -- apply (Hprev 0%nat); [lia|done].
        -- intros j rep' Hj Hj'. apply (Hprev (S j)); [lia|done].
Qed.

End BestCheckpoint.

(** C4, as stated, fails: in a run with test losses 12 and then 11, the
    second epoch's loss is strictly lower than that of every prior epoch,
    and the first epoch has no prior epoch at all, yet neither epoch
    writes the best checkpoint. *)
Lemma best_checkpoint_not_as_stated :
  ∃ st rep1 rep2,
    demo_run [demo_epoch (0.3, 0.7) 12; demo_epoch (0.4, 0.6) 11]
    = Ok (st, [rep1; rep2])
    ∧ fl.eqv (loss_test rep1) (Fin 12)
    ∧ fl.eqv (loss_test rep2) (Fin 11)
    ∧ fl_lt (loss_test rep2) (loss_test rep1)
    ∧ best_updated rep1 = false
    ∧ best_updated rep2 = false
    ∧ best_ckpt st = None.
Proof.
  eexists _, _, _. split; [vm_compute; reflexivity|].
  repeat split; reflexivity.
Qed.

(** C4, amended. In every run, with test losses that are not NaN, the
    best checkpoint is written after an epoch exactly when that epoch's
    test loss is strictly lower than 10, the initial [min_acc_loss], and
    strictly lower than the test loss of every prior epoch of the run; on
    a tie or a higher loss it is not written. *)
Theorem best_checkpoint_rule (train_csv test_csv : list (string * Z))
    (dict_new : dict (list Q)) (inputs : list epoch_input)
    (st : train_state) (reps : list epoch_report) :
  run_epochs train_csv test_csv dict_new 1 inputs (initial_state train_csv)
  = Ok (st, reps) →
  Forall (λ rep, fl.is_nan (loss_test rep) = false) reps →
  ∀ k rep, reps !! k = Some rep →
    best_updated rep = true
    ↔ fl_lt (loss_test rep) (Fin 10)
      ∧ ∀ j rep', (j < k)%nat → reps !! j = Some rep' →
                  fl_lt (loss_test rep) (loss_test rep').
Proof.
  intros H Hnan k rep Hk.
  by apply (run_epochs_best train_csv test_csv dict_new inputs 1
              (initial_state train_csv) st reps H).
Qed.

Lemma best_checkpoint_rule_witness :
  ∃ st rep1 rep2,
    demo_run [demo_epoch (0.3, 0.7) 0.9; demo_epoch (0.4, 0.6) 0.4]
    = Ok (st, [rep1; rep2])
    ∧ (best_updated rep2 = true
       ↔ fl_lt (loss_test rep2) (Fin 10)
         ∧ ∀ j rep', (j < 1)%nat → [rep1; rep2] !! j = Some rep' →
                     fl_lt (loss_test rep2) (loss_test rep'))
    ∧ best_updated rep2 = true
    ∧ best_ckpt st = Some 2%nat.
Proof.
  eexists _, _, _. split; [vm_compute; reflexivity|].
  split; [|split; reflexivity].
  refine (best_checkpoint_rule demo_train_csv scenario_csv demo_features
            [demo_epoch (0.3, 0.7) 0.9; demo_epoch (0.4, 0.6) 0.4]
            _ _ _ _ 1%nat _ _).
  - vm_compute; reflexivity.
  - repeat constructor.
  - reflexivity.
Defined.

(** ** The training accumulator across epochs *)

Lemma append_lookup {V} (d d' : dict (list V)) (k key : string) (v : V)
    (outs : list V) :
  dict_ops.append d k v = Ok d' →
  items d !! key = Some outs →
  items d' !! key = Some (if bool_decide (k = key) then outs ++ [v] else outs).
Proof.
  unfold dict_ops.append. intros H Hkey.
  destruct (items d !! k) as [l|] eqn:Ek; [|discriminate].
  injection H as <-. simpl. case_bool_decide as Hk.
  - subst key. rewrite lookup_insert_eq. congruence.
  - by rewrite lookup_insert_ne.
Qed.

Lemma record_slices_lookup (l : list (string * vec2)) :
  ∀ (d d' : dict (list vec2)) (key : string) (outs : list vec2),
    foldM (λ d s, dict_ops.append d s.1 s.2) d l = Ok d' →
    items d !! key = Some outs →
    items d' !! key = Some (outs ++ slice_outputs key l).
Proof.
  induction l as [|s r IH]; intros d d' key outs H Hkey; simpl in H.
  - injection H as <-. simpl. by rewrite app_nil_r.
  - bind_inv H. pose proof (append_lookup _ _ _ key _ outs E Hkey) as Ha.
    rewrite (IH _ _ key _ H Ha). simpl.
    case_bool_decide; [by rewrite <- app_assoc | done].
Qed.

Lemma record_pass_lookup (dict_new : dict (list Q)) (steps : list batch) :
  ∀ (d d' : dict (list vec2)) (key : string) (outs : list vec2),
    foldM (record_batch dict_new) d steps = Ok d' →
    items d !! key = Some outs →
    items d' !! key = Some (outs ++ pass_outputs key steps).
Proof.
  induction steps as [|b r IH]; intros d d' key outs H Hkey; simpl in H.
  - injection H as <-. simpl. by rewrite app_nil_r.
  - bind_inv H. unfold record_batch in E. bind_inv E.
    pose proof (record_slices_lookup _ _ _ key outs E Hkey) as Ha.
    rewrite (IH _ _ key _ H Ha). simpl. by rewrite <- app_assoc.
Qed.

(** An epoch appends its outputs to what [dict_last] already holds:
    nothing is cleared between epochs. *)
Lemma train_epoch_appends (train_csv test_csv : list (string * Z))
    (dict_new : dict (list Q)) (n : nat) (inp : epoch_input)
    (st st1 : train_state) (rep : epoch_report) (key : string)
    (outs : list vec2) :
  train_epoch train_csv test_csv dict_new n inp st = Ok (st1, rep) →
  items (dict_last st) !! key = Some outs →
  items (dict_last st1) !! key
  = Some (outs ++ pass_outputs key (train_steps inp)).
Proof.
  intros H Hkey. unfold train_epoch in H.
  bind_inv H. pose proof (record_pass_lookup _ _ _ _ key outs E Hkey) as Ha.
  do 2 bind_inv H. destruct a1 as [[acc_2 acc_4] cm]. bind_inv H.
  destruct (update_best _ _) as [b low]. by injection H as <- _.
Qed.

(** C3 fails on the code.  [dict_last] is built once, before the epoch
    loop.  In a run of two epochs where the only training slice yields
    [0.1, 0.9] and then [0.6, 0.4], the patient's entry after the second
    epoch holds both vectors, and the second epoch's training confusion
    matrix counts the patient at [1][1] (from the mean of both vectors),
    whereas the second epoch's output alone puts the patient at [1][0]. *)
Theorem dict_last_keeps_earlier_epochs :
  (∃ st rep1 rep2,
     demo_run [demo_epoch (0.1, 0.9) 0.9; demo_epoch (0.6, 0.4) 0.4]
     = Ok (st, [rep1; rep2])
     ∧ items (dict_last st) !! "t1" = Some [(0.1, 0.9); (0.6, 0.4)]
     ∧ conf_matrix_train rep2 = [[0; 0]; [0; 1]]%Z)
  ∧ (∃ st rep,
       demo_run [demo_epoch (0.6, 0.4) 0.4] = Ok (st, [rep])
       ∧ items (dict_last st) !! "t1" = Some [(0.6, 0.4)]
       ∧ conf_matrix_train rep = [[0; 0]; [1; 0]]%Z).
Proof.
  split.
  - eexists _, _, _. split; [vm_compute; reflexivity|].
    split; [vm_compute|]; reflexivity.
  - eexists _, _. split; [vm_compute; reflexivity|].
    split; [vm_compute|]; reflexivity.
Qed.

(** ** Loading a slice *)

Section Loading.

Context {Image : Type}.
Variable fits : Image → bool.
Variable fs : gmap string Image.

Lemma Image_open_missing (p : string) :
  fs !! p = None → Image_open fs p = Raise (FileNotFoundError p).
Proof. unfold Image_open. by intros ->. Qed.

Lemma Image_open_present (p : string) (im : Image) :
  fs !! p = Some im → Image_open fs p = Ok im.
Proof. unfold Image_open. by intros ->. Qed.

(** Membership in a list written out. *)
Ltac mem :=
  repeat first [apply list_elem_of_here | apply list_elem_of_further].

(** C9. When a companion file of a slice (the path with T1 replaced by
    T2, T1c or FLAIR) does not exist, loading the slice raises
    [FileNotFoundError] for a path among the slice's four modality files
    that does not exist, and returns nothing; when the three other files
    exist, the error names the missing companion itself. *)
Theorem missing_modality_raises (self : GetLoader) (index : nat)
    (file : Path) (companion : string) :
  pic_files self !! index = Some file →
  companion ∈ [str.replace (path.str file) "T1" "T2";
               str.replace (path.str file) "T1" "T1c";
               str.replace (path.str file) "T1" "FLAIR"] →
  fs !! companion = None →
  ∃ missing,
    getitem fits fs self index = Raise (FileNotFoundError missing)
    ∧ fs !! missing = None
    ∧ missing ∈ [path.str file;
                 str.replace (path.str file) "T1" "T2";
                 str.replace (path.str file) "T1" "T1c";
                 str.replace (path.str file) "T1" "FLAIR"]
    ∧ ((∀ p, p ∈ [path.str file;
                  str.replace (path.str file) "T1" "T2";
                  str.replace (path.str file) "T1" "T1c";
                  str.replace (path.str file) "T1" "FLAIR"] →
             p ≠ companion → is_Some (fs !! p)) →
       missing = companion).
Proof.
  intros Hfile Hin Hnone. unfold getitem. rewrite Hfile. simpl.
  set (t1 := path.str file) in *.
  set (t2 := str.replace t1 "T1" "T2") in *.
  set (t1c := str.replace t1 "T1" "T1c") in *.
  set (flair := str.replace t1 "T1" "FLAIR") in *.
  assert (∀ p, fs !! p = None →
               (∀ q, q ∈ [t1; t2; t1c; flair] → q ≠ companion →
                     is_Some (fs !! q)) →
               p ∈ [t1; t2; t1c; flair] → p = companion) as Honly.
  { intros p Hp Hall Hpin. destruct (decide (p = companion)); [done|].
    destruct (Hall p Hpin n) as [im Him]. congruence. }
  destruct (fs !! t1) as [i1|] eqn:E1;
    [rewrite (Image_open_present _ _ E1)
    |rewrite (Image_open_missing _ E1); exists t1;
     repeat split; [done|mem|intros; apply Honly; [done|done|mem]]].
  simpl. destruct (fs !! t2) as [i2|] eqn:E2;
    [rewrite (Image_open_present _ _ E2)
    |rewrite (Image_open_missing _ E2); exists t2;
     repeat split; [done|mem|intros; apply Honly; [done|done|mem]]].
  simpl. destruct (fs !! t1c) as [i3|] eqn:E3;
    [rewrite (Image_open_present _ _ E3)
    |rewrite (Image_open_missing _ E3); exists t1c;
     repeat split; [done|mem|intros; apply Honly; [done|done|mem]]].
  simpl. destruct (fs !! flair) as [i4|] eqn:E4;
    [|rewrite (Image_open_missing _ E4); exists flair;
      repeat split; [done|mem|intros; apply Honly; [done|done|mem]]].
  exfalso. rewrite !elem_of_cons, elem_of_nil in Hin.
  destruct Hin as [Hc|[Hc|[Hc|[]]]]; rewrite Hc in Hnone; congruence.
Qed.

(** In a training data set, a slice whose patient label is not 2 gets
    the test pipeline and leaves it installed in [self.transform]; a
    slice with label 2 gets whatever [self.transform] holds. *)
Lemma getitem_pipeline (self self' : GetLoader) (index : nat)
    (rs : sample Image) :
  getitem fits fs self index = Ok (rs, self') →
  type_ self = "train" →
  (patient_label rs ≠ 2%Z →
     pipeline rs = test_compose ∧ transform self' = test_compose)
  ∧ (patient_label rs = 2%Z →
       pipeline rs = transform self ∧ transform self' = transform self)
  ∧ type_ self' = type_ self.
Proof.
  intros H Hty. unfold getitem in H.
  do 7 bind_inv H. rename a5 into y.
  unfold patient_label, pipeline. rewrite Hty in H. simpl in H.
  destruct (Z.eqb_spec y 2) as [->|Hy];
    injection H as <- <-; simpl; (split; [|split]); try done; lia.
Qed.

(** Once the test pipeline is installed, every later slice gets it,
    whatever its label. *)
Lemma fetch_after_test_compose (idxs : list nat) :
  ∀ (self self' : GetLoader) (got : list (sample Image)),
    fetch fits fs self idxs = Ok (got, self') →
    type_ self = "train" →
    transform self = test_compose →
    Forall (λ rs, pipeline rs = test_compose) got.
Proof.
  induction idxs as [|i rest IH]; intros self self' got H Hty Htr;
    simpl in H.
  - injection H as <- _. constructor.
  - bind_inv H. destruct a as [rs self1].
    bind_inv H. destruct a as [more self2]. injection H as <- _.
    destruct (getitem_pipeline _ _ _ _ E Hty) as (Hmaj & Hmin & Hty1).
    assert (pipeline rs = test_compose ∧ transform self1 = test_compose)
      as [Hp Ht1].
    { destruct (decide (patient_label rs = 2%Z)) as [Hl|Hl].
      - destruct (Hmin Hl) as [-> ->]. done.
      - by apply Hmaj. }
    constructor; [done|].
    eapply IH; [done| congruence | done].
Qed.

End Loading.

Lemma missing_modality_raises_witness :
  let fs := delete "FLAIR_segment_aug/pB/7.png" demo_fs in
  let self := Loader "train" train_compose (dict_ops.of_rows demo_split_csv)
                [["T1_segment_aug"; "pA"; "7.png"];
                 ["T1_segment_aug"; "pB"; "7.png"]] in
  getitem (λ _, true) fs self 1 = Raise (FileNotFoundError "FLAIR_segment_aug/pB/7.png")
  ∧ ∃ missing,
      getitem (λ _, true) fs self 1 = Raise (FileNotFoundError missing)
      ∧ fs !! missing = None.
Proof.
  intros fs self. split; [vm_compute; reflexivity|].
  destruct (missing_modality_raises (λ _, true) fs self 1
              ["T1_segment_aug"; "pB"; "7.png"]
              "FLAIR_segment_aug/pB/7.png")
    as (missing & Hraise & Hnone & _).
  - reflexivity.
  - vm_compute. do 2 apply list_elem_of_further. apply list_elem_of_here.
  - vm_compute; reflexivity.
  - exists missing. by split.
Defined.

(** C2 fails on the code.  With the majority slice fetched first, the
    minority slice (label 2) fetched after it gets the test pipeline; and
    with the minority slice first, it gets the train pipeline in the first
    pass over the data and the test pipeline in the second. *)
Theorem minority_slice_gets_test_pipeline :
  (∃ self got self',
     init demo_root "train" demo_split_csv demo_rglob (@rev Path) = Ok self
     ∧ transform self = train_compose
     ∧ fetch (λ _, true) demo_fs self [0; 1]%nat = Ok (got, self')
     ∧ map observed got
       = [("pA", 4%Z, test_compose); ("pB", 2%Z, test_compose)])
  ∧ (∃ self got self',
       init demo_root "train" demo_split_csv demo_rglob (λ l, l) = Ok self
       ∧ transform self = train_compose
       ∧ fetch (λ _, true) demo_fs self [0; 1; 0; 1]%nat = Ok (got, self')
       ∧ map observed got
         = [("pB", 2%Z, train_compose); ("pA", 4%Z, test_compose);
            ("pB", 2%Z, test_compose); ("pA", 4%Z, test_compose)]).
Proof.
  split; eexists _, _, _;
    (split; [vm_compute; reflexivity|]);
    (split; [reflexivity|]);
    (split; [vm_compute; reflexivity|]);
    vm_compute; reflexivity.
Qed.

(** ** A well-formed evaluation pass completes *)

Lemma mapM_returns {A B} (f : A → result B) (l : list A) :
  (∀ x, x ∈ l → ∃ y, f x = Ok y) → ∃ r, mapM f l = Ok r.
Proof.
  induction l as [|x l IH]; intros H; simpl; [by eexists|].
  destruct (H x) as [y ->]; [apply list_elem_of_here|].
  destruct IH as [r ->]; [|by eexists].
  intros z Hz. apply H. by apply list_elem_of_further.
Qed.

Lemma append_dom {V} (d d' : dict (list V)) (k key : string) (v : V) :
  dict_ops.append d k v = Ok d' →
  is_Some (items d !! key) → is_Some (items d' !! key).
Proof.
  intros H [outs Ho]. rewrite (append_lookup _ _ _ _ _ _ H Ho). eauto.
Qed.

Lemma record_slices_returns (l : list (string * vec2)) :
  ∀ d : dict (list vec2),
    (∀ s, s ∈ l → is_Some (items d !! s.1)) →
    ∃ d', foldM (λ d s, dict_ops.append d s.1 s.2) d l = Ok d'
          ∧ ∀ key, is_Some (items d !! key) → is_Some (items d' !! key).
Proof.
  induction l as [|s r IH]; intros d H; simpl; [by eexists|].
  destruct (H s) as [outs Ho]; [apply list_elem_of_here|].
  assert (∃ d1, dict_ops.append d s.1 s.2 = Ok d1) as [d1 E].
  { unfold dict_ops.append. rewrite Ho. eauto. }
  rewrite E. simpl.
  destruct (IH d1) as (d' & -> & Hdom).
  - intros z Hz. eapply append_dom; [exact E|].
    apply H. by apply list_elem_of_further.
  - eexists. split; [done|]. intros key Hkey.
    apply Hdom. by eapply append_dom.
Qed.

Lemma foldM_cons {A B} (f : A → B → result A) (a : A) (b : B) (r : list B) :
  foldM f a (b :: r) = f a b ≫= λ a1, foldM f a1 r.
Proof. reflexivity. Qed.

Lemma bind_Ok_l {A B} (a : A) (k : A → result B) : Ok a ≫= k = k a.
Proof. reflexivity. Qed.

Lemma record_batch_returns (dict_new : dict (list Q)) (b : batch)
    (d : dict (list vec2)) :
  (∀ s, s ∈ slices b →
        is_Some (items dict_new !! s.1) ∧ is_Some (items d !! s.1)) →
  ∃ d', record_batch dict_new d b = Ok d'
        ∧ ∀ key, is_Some (items d !! key) → is_Some (items d' !! key).
Proof.
  intros H. unfold record_batch.
  destruct (mapM_returns (λ s, dict_ops.get dict_new s.1) (slices b))
    as [fs ->].
  { intros s Hs. destruct (H s Hs) as [[v Hv] _].
    unfold dict_ops.get. rewrite Hv. eauto. }
  rewrite bind_Ok_l. apply record_slices_returns.
  intros s Hs. by apply H.
Qed.

Lemma record_pass_returns (dict_new : dict (list Q)) (steps : list batch) :
  ∀ d : dict (list vec2),
    (∀ b s, b ∈ steps → s ∈ slices b →
            is_Some (items dict_new !! s.1) ∧ is_Some (items d !! s.1)) →
    ∃ d', foldM (record_batch dict_new) d steps = Ok d'.
Proof.
  induction steps as [|b r IH]; intros d H; [by eexists|].
  rewrite foldM_cons.
  destruct (record_batch_returns dict_new b d) as (d1 & -> & Hdom).
  { intros s Hs. by apply (H b s); [apply list_elem_of_here|]. }
  rewrite bind_Ok_l. apply IH. intros b' s Hb' Hs.
  destruct (H b' s) as [Hn Hd]; [by apply list_elem_of_further|done|].
  split; [done|]. by apply Hdom.
Qed.

Lemma aggregate_finite (outs : list vec2) :
  outs ≠ [] → ∃ a b, aggregate outs = (Fin a, Fin b).
Proof.
  intros Hne. unfold aggregate.
  destruct (accumulate_sum outs 0 0) as (a & b & -> & _).
  simpl. unfold fl.of_int.
  rewrite (Qeq_bool_false _ 0 (length_pos_Q outs Hne)). eauto.
Qed.

Lemma finite_scores_returns (l : list npfloat) :
  Forall (λ x, fl.is_fin x = true) l → ∃ qs, metrics.finite_scores l = Some qs.
Proof.
  induction 1 as [|x r Hx _ [qs IH]]; simpl; [by eexists|].
  destruct x; try discriminate. rewrite IH. by eexists.
Qed.

Lemma binary_labels_bits (l : list Z) :
  l ≠ [] → Forall bit l → metrics.binary_labels l = true.
Proof.
  intros Hne Hbits. unfold metrics.binary_labels.
  rewrite bool_decide_eq_false_2 by done. simpl.
  apply orb_true_iff. left. apply forallb_forall.
  intros t Ht. apply (proj1 (List.Forall_forall _ _) Hbits) in Ht.
  destruct Ht as [-> | ->]; reflexivity.
Qed.

Lemma test_body_returns (steps : list batch) (dict_test : dict (list vec2))
    (dict_label : dict Z) (dict_new : dict (list Q)) :
  well_formed_pass steps dict_test dict_label dict_new →
  ∃ v, test_body steps dict_test dict_label dict_new = Ok v.
Proof.
  intros (Hsteps & Hkeys & Hslices & Hpatients). unfold test_body.
  destruct (record_pass_returns dict_new steps dict_test Hslices) as [d Hd].
  rewrite Hd. simpl.
  unfold loss_average. rewrite bool_decide_eq_false_2 by done. simpl.
  assert (∀ k, k ∈ keys dict_test →
               ∃ q, score_patient d dict_label k
                    = Ok (patient_truth (default 0%Z (items dict_label !! k)),
                          Fin q)) as Hscore.
  { intros k Hk. destruct (Hpatients k Hk) as ([t Ht] & outs & Ho & Hne).
    unfold score_patient, dict_ops.get.
    rewrite (record_pass_lookup _ _ _ _ _ _ Hd Ho), Ht.
    unfold mbind, result_bind. cbv beta iota.
    destruct (aggregate_finite _ Hne) as (a & b & ->). simpl. eauto. }
  rewrite (record_all_keys _ _ _ _ Hd).
  destruct (mapM_returns (score_patient d dict_label) (keys dict_test))
    as [scored Hs].
  { intros k Hk. destruct (Hscore k Hk) as [q ->]. eauto. }
  rewrite Hs. simpl.
  pose proof (scored_truth_bits _ _ _ _ Hs) as [Hlen Hbits].
  assert (Forall (λ x, fl.is_fin x = true) (map snd scored)) as Hfin.
  { apply mapM_Ok in Hs. clear -Hs Hscore.
    induction Hs as [|k s ks scored Hk _ IH]; simpl; constructor.
    - destruct (Hscore k) as [q Hq]; [apply list_elem_of_here|].
      rewrite Hq in Hk. by injection Hk as <-.
    - apply IH. intros k' Hk'. apply Hscore. by apply list_elem_of_further. }
  destruct (finite_scores_returns _ Hfin) as [qs Hqs].
  assert (∃ c, metrics.roc_curve (map fst scored) (map snd scored) = Ok c)
    as [c Hc].
  { unfold metrics.roc_curve. rewrite binary_labels_bits; [|
      intros E; apply (f_equal length) in E; rewrite length_map, Hlen in E;
      by destruct (keys dict_test) | done].
    rewrite !length_map, Nat.eqb_refl, Hqs. simpl. eauto. }
  destruct (statis_auc_returns _ _ _ Hc) as [st ->]. simpl. eauto.
Qed.

(** * Further properties of the code *)

(** ** The data set *)

Lemma prefix_split (old s : string) :
  String.prefix old s = true → ∃ post, s = old +:+ post.
Proof.
  revert s. induction old as [|a old IH]; intros s H; [by exists s|].
  destruct s as [|b s]; [done|]. simpl in H.
  destruct (Ascii.ascii_dec a b) as [->|]; [|done].
  destruct (IH s H) as [post ->]. by exists post.
Qed.

Lemma replace_go_no_occurrence (old new : string) (s : string) :
  ¬ occurs old s → str.replace_go old new 0 s = s.
Proof.
  induction s as [|c r IH]; intros Hno; [done|].
  cbn [str.replace_go].
  destruct (String.prefix old (String c r)) eqn:E.
  - exfalso. apply Hno. destruct (prefix_split _ _ E) as [post Hp].
    exists "", post. by rewrite Hp.
  - f_equal. apply IH. intros (pre & post & ->).
    apply Hno. by exists (String c pre), post.
Qed.

Lemma replace_no_occurrence (s old new : string) :
  ¬ occurs old s → str.replace s old new = s.
Proof. apply replace_go_no_occurrence. Qed.

Lemma prefix_append (old post : string) : String.prefix old (old +:+ post) = true.
Proof.
  induction old as [|a old IH]; [by destruct post|].
  simpl. by destruct (Ascii.ascii_dec a a).
Qed.

Lemma occursb_complete (old s : string) : occurs old s → occursb old s = true.
Proof.
  intros (pre & post & ->). induction pre as [|c pre IH].
  - change ("" +:+ old +:+ post) with (old +:+ post).
    pose proof (prefix_append old post) as Hp.
    destruct (old +:+ post) as [|c r]; cbn [occursb]; by rewrite Hp.
  - change (String c pre +:+ old +:+ post)
      with (String c (pre +:+ old +:+ post)).
    cbn [occursb]. rewrite IH. apply orb_true_r.
Qed.

Lemma occursb_false (old s : string) : occursb old s = false → ¬ occurs old s.
Proof. intros H Ho. apply occursb_complete in Ho. congruence. Qed.

Section LoaderFacts.

Context {Image : Type}.
Variable fits : Image → bool.
Variable fs : gmap string Image.

Lemma getitem_not_train (self self' : GetLoader) (index : nat)
    (rs : sample Image) :
  getitem fits fs self index = Ok (rs, self') →
  type_ self ≠ "train" →
  self' = self ∧ pipeline rs = transform self.
Proof.
  intros H Hty. unfold getitem in H. do 7 bind_inv H.
  apply String.eqb_neq in Hty. rewrite Hty in H.
  destruct (a5 =? 2)%Z; injection H as <- <-; by destruct self.
Qed.

(** X1. While a training pass has fetched label-2 slices only, a slice
    gets the train pipeline; from the first slice with another label on,
    no slice does: the k-th fetched slice gets [train_compose] exactly when
    it and all slices fetched before it have label 2. *)
Theorem train_pipeline_until_first_majority (idxs : list nat) :
  ∀ (self self' : GetLoader) (got : list (sample Image)),
    fetch fits fs self idxs = Ok (got, self') →
    type_ self = "train" →
    transform self = train_compose →
    ∀ k rs, got !! k = Some rs →
      pipeline rs = train_compose
      ↔ ∀ j rs', (j ≤ k)%nat → got !! j = Some rs' →
                 patient_label rs' = 2%Z.
Proof.
  induction idxs as [|i rest IH]; intros self self' got H Hty Htr k rs Hk;
    simpl in H.
  - injection H as <- _. done.
  - bind_inv H. destruct a as [rs0 self1].
    bind_inv H. destruct a as [more self2]. injection H as <- _.
    destruct (getitem_pipeline _ _ _ _ _ _ E Hty) as (Hmaj & Hmin & Hty1).
    destruct (decide (patient_label rs0 = 2%Z)) as [Hl|Hl].
    + destruct (Hmin Hl) as [Hp Ht1].
      destruct k as [|k]; simpl in Hk.
      * injection Hk as <-. split; [|congruence].
        intros _ j rs' Hj Hj'. assert (j = 0%nat) as -> by lia.
        simpl in Hj'. by injection Hj' as <-.
      * rewrite (IH _ _ _ E0 ltac:(congruence) ltac:(congruence) k rs Hk).
        split.
        -- intros Hall [|j] rs' Hj Hj'; simpl in Hj'.
           ++ by injection Hj' as <-.
           ++ apply (Hall j); [lia|done].
        -- intros Hall j rs' Hj Hj'. apply (Hall (S j)); [lia|done].
    + destruct (Hmaj Hl) as [Hp Ht1].
      assert (pipeline rs = test_compose) as Hrs.
      { destruct k as [|k]; simpl in Hk; [by injection Hk as <-|].
        pose proof (fetch_after_test_compose _ _ _ _ _ _ E0
                      ltac:(congruence) Ht1) as Hall.
        by apply (proj1 (Forall_lookup _ _) Hall k). }
      rewrite Hrs. split; [done|].
      intros Hall. exfalso. apply Hl. apply (Hall 0%nat); [lia|done].
Qed.

(** X2. Fetching from a data set that is not of type 'train' leaves the
    object as it was, and every sample gets the object's transform. *)
Theorem test_loader_unchanged (idxs : list nat) :
  ∀ (self self' : GetLoader) (got : list (sample Image)),
    fetch fits fs self idxs = Ok (got, self') →
    type_ self ≠ "train" →
    self' = self ∧ Forall (λ rs, pipeline rs = transform self) got.
Proof.
  induction idxs as [|i rest IH]; intros self self' got H Hty; simpl in H.
  - by injection H as <- <-.
  - bind_inv H. destruct a as [rs0 self1].
    bind_inv H. destruct a as [more self2]. injection H as <- <-.
    destruct (getitem_not_train _ _ _ _ E Hty) as [-> Hp].
    destruct (IH _ _ _ E0 Hty) as [-> Hall]. by split; [|constructor].
Qed.


(** X4. When the four modality files of a slice exist and fit but the
    directory holding the canonical file is not a patient of the manifest
    (a PNG found in a nested directory, say), loading the slice raises
    [KeyError] for that directory name. *)
Theorem unknown_directory_raises (self : GetLoader) (index : nat)
    (file : Path) (i1 i2 i3 i4 : Image) :
  pic_files self !! index = Some file →
  fs !! path.str file = Some i1 →
  fs !! str.replace (path.str file) "T1" "T2" = Some i2 →
  fs !! str.replace (path.str file) "T1" "T1c" = Some i3 →
  fs !! str.replace (path.str file) "T1" "FLAIR" = Some i4 →
  fits i1 && fits i2 && fits i3 && fits i4 = true →
  items (people_classify self) !! path.parent_name file = None →
  getitem fits fs self index = Raise (KeyError (path.parent_name file)).
Proof.
  intros Hf H1 H2 H3 H4 Hfit Hkey. unfold getitem. rewrite Hf. simpl.
  rewrite (Image_open_present _ _ _ H1). simpl.
  rewrite (Image_open_present _ _ _ H2). simpl.
  rewrite (Image_open_present _ _ _ H3). simpl.
  rewrite (Image_open_present _ _ _ H4). simpl.
  unfold stack. rewrite Hfit. simpl.
  unfold dict_ops.get. by rewrite Hkey.
Qed.


(** X5. When the canonical path holds no "T1", the three substitutions
    leave it unchanged, and a slice that loads has the one file in all
    four channels. *)
Theorem no_token_same_image (self self' : GetLoader) (index : nat)
    (file : Path) (rs : sample Image) :
  pic_files self !! index = Some file →
  ¬ occurs "T1" (path.str file) →
  getitem fits fs self index = Ok (rs, self') →
  fs !! path.str file = Some (ch0 (img rs).2)
  ∧ ch1 (img rs).2 = ch0 (img rs).2
  ∧ ch2 (img rs).2 = ch0 (img rs).2
  ∧ ch3 (img rs).2 = ch0 (img rs).2.
Proof.
  intros Hf Hno H. unfold getitem in H. rewrite Hf in H. simpl in H.
  rewrite !(replace_no_occurrence _ _ _ Hno) in H.
  unfold Image_open in H.
  destruct (fs !! path.str file) as [im|]; [|discriminate]. simpl in H.
  do 2 bind_inv H.
  unfold stack in E. destruct (fits im && _ && _ && _); [|discriminate].
  injection E as <-.
  destruct (a0 =? 2)%Z; by injection H as <- _.
Qed.

End LoaderFacts.

Lemma train_pipeline_until_first_majority_witness :
  ∃ got self' rs,
    fetch (λ _, true) demo_fs demo_loader [0; 1; 0; 1]%nat = Ok (got, self')
    ∧ got !! 2%nat = Some rs
    ∧ patient_label rs = 2%Z
    ∧ pipeline rs = test_compose
    ∧ (pipeline rs = train_compose
       ↔ ∀ j rs', (j ≤ 2)%nat → got !! j = Some rs' →
                  patient_label rs' = 2%Z).
Proof.
  eexists _, _, _. split; [vm_compute; reflexivity|].
  split; [reflexivity|]. split; [reflexivity|]. split; [reflexivity|].
  eapply (train_pipeline_until_first_majority (λ _, true) demo_fs
            [0; 1; 0; 1]%nat demo_loader).
  - vm_compute; reflexivity.
  - reflexivity.
  - reflexivity.
  - reflexivity.
Defined.

Lemma test_loader_unchanged_witness :
  ∃ got self',
    fetch (λ _, true) demo_fs demo_test_loader [1; 0; 1]%nat = Ok (got, self')
    ∧ self' = demo_test_loader
    ∧ Forall (λ rs, pipeline rs = test_compose) got.
Proof.
  eexists _, _. split; [vm_compute; reflexivity|].
  eapply (test_loader_unchanged (λ _, true) demo_fs [1; 0; 1]%nat
            demo_test_loader).
  - vm_compute; reflexivity.
  - discriminate.
Defined.


Lemma unknown_directory_raises_witness :
  let fs : gmap string nat :=
    list_to_map
      [("T1_segment_aug/pB/sub/7.png", 1%nat);
       ("T2_segment_aug/pB/sub/7.png", 2%nat);
       ("T1c_segment_aug/pB/sub/7.png", 3%nat);
       ("FLAIR_segment_aug/pB/sub/7.png", 4%nat)] in
  let self := Loader "train" train_compose (dict_ops.of_rows demo_split_csv)
                [["T1_segment_aug"; "pB"; "sub"; "7.png"]] in
  getitem (λ _, true) fs self 0 = Raise (KeyError "sub").
Proof.
  intros fs self.
  apply (unknown_directory_raises (λ _, true) fs self 0
           ["T1_segment_aug"; "pB"; "sub"; "7.png"] 1%nat 2%nat 3%nat 4%nat);
    vm_compute; reflexivity.
Defined.

Lemma no_token_same_image_witness :
  let fs : gmap string nat := {["scans/pB/7.png" := 9%nat]} in
  let self := Loader "train" train_compose (dict_ops.of_rows demo_split_csv)
                [["scans"; "pB"; "7.png"]] in
  ∃ rs self',
    getitem (λ _, true) fs self 0 = Ok (rs, self')
    ∧ (img rs).2 = Stack 9%nat 9%nat 9%nat 9%nat
    ∧ ch1 (img rs).2 = ch0 (img rs).2
    ∧ ch3 (img rs).2 = ch0 (img rs).2.
Proof.
  intros fs self. eexists _, _. split; [vm_compute; reflexivity|].
  split; [reflexivity|].
  destruct (no_token_same_image (λ _, true) fs self self 0
              ["scans"; "pB"; "7.png"]
              (Sample (train_compose, Stack 9 9 9 9)%nat 0%Z [0; 1]%Z
                 "pB" "scans/pB/7.png"))
    as (_ & H1 & _ & H3).
  - reflexivity.
  - apply occursb_false. vm_compute; reflexivity.
  - vm_compute; reflexivity.
  - by split.
Defined.

(** ** Building the data set *)

Lemma init_buckets (classify : dict Z) (root : Path)
    (rglob : Path → list Path) (ks : list string) :
  ∀ four two : list Path,
    fold_left
      (λ '(four, two) p,
         let pic_file := rglob (root ++ [p]) in
         if bool_decide (items classify !! p = Some 4%Z)
         then (four ++ pic_file, two)
         else (four, two ++ pic_file))
      ks (four, two)
    = (four ++ patient_files root rglob
                 (filter (λ p, label4 classify p = true) ks),
       two ++ patient_files root rglob
                (filter (λ p, label4 classify p = false) ks)).
Proof.
  unfold patient_files, label4.
  induction ks as [|k ks IH]; intros four two.
  - simpl. by rewrite !app_nil_r.
  - cbn [fold_left]. rewrite !filter_cons.
    destruct (bool_decide (items classify !! k = Some 4%Z)) eqn:E.
    + rewrite IH, decide_True, decide_False by done.
      simpl. by rewrite app_assoc.
    + rewrite IH, decide_False, decide_True by done.
      simpl. by rewrite app_assoc.
Qed.

Lemma patient_files_partition (root : Path) (rglob : Path → list Path)
    (P : string → bool) (ks : list string) :
  (length (patient_files root rglob (filter (λ p, P p = true) ks))
   + length (patient_files root rglob (filter (λ p, P p = false) ks))
   = length (patient_files root rglob ks))%nat.
Proof.
  unfold patient_files. induction ks as [|k ks IH]; [done|].
  rewrite !filter_cons. destruct (P k) eqn:E.
  - rewrite decide_True, decide_False by done.
    simpl. rewrite !length_app. lia.
  - rewrite decide_False, decide_True by done.
    simpl. rewrite !length_app. lia.
Qed.

(** X6. A data set of any type other than 'train' is built without an
    error: it uses the test pipeline and lists the files of the label-4
    patients, in manifest order, before the files of all other patients;
    its length is the number of PNG files of the manifest's patients. *)
Theorem init_test_order (root : Path) (ty : string) (csv : list (string * Z))
    (rglob : Path → list Path) (shuffle : list Path → list Path) :
  ty ≠ "train" →
  let classify := dict_ops.of_rows csv in
  ∃ self,
    init root ty csv rglob shuffle = Ok self
    ∧ transform self = test_compose
    ∧ pic_files self
      = patient_files root rglob
          (filter (λ p, label4 classify p = true) (keys classify))
        ++ patient_files root rglob
             (filter (λ p, label4 classify p = false) (keys classify))
    ∧ len self = length (patient_files root rglob (keys classify)).
Proof.
  intros Hty classify. apply String.eqb_neq in Hty.
  unfold init. fold classify. rewrite init_buckets, Hty. simpl.
  eexists. split; [reflexivity|]. split; [reflexivity|].
  split; [reflexivity|]. unfold len. simpl.
  rewrite length_app. apply patient_files_partition.
Qed.

Lemma init_test_order_witness :
  ∃ self,
    init demo_root "test" demo_split_csv demo_rglob (@rev Path) = Ok self
    ∧ transform self = test_compose
    ∧ pic_files self
      = [["T1_segment_aug"; "pA"; "7.png"]; ["T1_segment_aug"; "pB"; "7.png"]]
    ∧ len self = 2%nat.
Proof.
  destruct (init_test_order demo_root "test" demo_split_csv demo_rglob
              (@rev Path) ltac:(discriminate))
    as (self & Hi & Ht & Hp & Hl).
  exists self. repeat split; [exact Hi|exact Ht| |].
  - rewrite Hp. vm_compute. reflexivity.
  - rewrite Hl. vm_compute. reflexivity.
Defined.

(** X7. Building a 'train' data set raises [ZeroDivisionError] exactly
    when the patients whose label is not 4 have no PNG file at all, also
    when label-4 files exist; otherwise it succeeds, without label-4 files
    too, with the train pipeline and the shuffled list of the other
    patients' files followed by the label-4 patients' files. *)
Theorem init_train_buckets (root : Path) (csv : list (string * Z))
    (rglob : Path → list Path) (shuffle : list Path → list Path) :
  let classify := dict_ops.of_rows csv in
  let two_pic := patient_files root rglob
                   (filter (λ p, label4 classify p = false) (keys classify)) in
  let four_pic := patient_files root rglob
                    (filter (λ p, label4 classify p = true) (keys classify)) in
  init root "train" csv rglob shuffle
  = if bool_decide (two_pic = [])
    then Raise ZeroDivisionError
    else Ok (Loader "train" train_compose classify
               (shuffle (two_pic ++ four_pic))).
Proof.
  intros classify two_pic four_pic. unfold init. fold classify.
  rewrite init_buckets. simpl. fold two_pic four_pic.
  destruct two_pic; reflexivity.
Qed.

(** ** [confusion_matrix] *)

Lemma Zsum_insert (l : list Z) :
  ∀ (p : nat) (v w : Z),
    l !! p = Some v → Zsum (<[p := w]> l) = (Zsum l - v + w)%Z.
Proof.
  induction l as [|x l IH]; intros p v w H; [done|].
  destruct p as [|p]; simpl in *.
  - injection H as ->. lia.
  - rewrite (IH p v w H). lia.
Qed.

Lemma add_at_total (m m' : matrix) (t p : nat) (num : Z) (rows cols : nat) :
  rectangular rows cols m →
  add_at m t p num = Ok m' →
  rectangular rows cols m' ∧ total m' = (total m + num)%Z.
Proof.
  intros [Hr Hc] H. unfold add_at in H.
  destruct (m !! t) as [row|] eqn:Et; [|discriminate].
  destruct (row !! p) as [v|] eqn:Ep; [|discriminate].
  injection H as <-. change matrix with (list (list Z)) in *.
  split; [split|].
  - by rewrite length_insert.
  - apply Forall_insert; [done|]. cbv beta. rewrite length_insert.
    by apply (proj1 (Forall_lookup _ _) Hc t).
  - unfold total. rewrite list_fmap_insert.
    rewrite (Zsum_insert _ t (Zsum row)) by (by rewrite list_lookup_fmap, Et).
    rewrite (Zsum_insert _ p v) by done. lia.
Qed.

Lemma add_at_returns (m : matrix) (t p : nat) (num : Z) (rows cols : nat) :
  rectangular rows cols m →
  (t < rows)%nat → (p < cols)%nat →
  ∃ m', add_at m t p num = Ok m'.
Proof.
  intros [Hr Hc] Ht Hp. unfold add_at.
  change matrix with (list (list Z)) in *.
  destruct (lookup_lt_is_Some_2 m t ltac:(lia)) as [row Er]. rewrite Er.
  pose proof (proj1 (Forall_lookup _ _) Hc t row Er) as Hl. cbv beta in Hl.
  destruct (lookup_lt_is_Some_2 row p ltac:(lia)) as [v ->]. eauto.
Qed.

Lemma add_at_raises (m : matrix) (t p : nat) (num : Z) (rows cols : nat) :
  rectangular rows cols m →
  (rows ≤ t ∨ cols ≤ p)%nat →
  add_at m t p num = Raise IndexError.
Proof.
  intros [Hr Hc] Hout. unfold add_at.
  change matrix with (list (list Z)) in *.
  destruct (m !! t) as [row|] eqn:Er; [|done].
  pose proof (proj1 (Forall_lookup _ _) Hc t row Er) as Hl. cbv beta in Hl.
  apply lookup_lt_Some in Er.
  destruct (row !! p) as [v|] eqn:Ep; [|done].
  apply lookup_lt_Some in Ep. lia.
Qed.

(** X8. When [confusion_matrix] returns, the matrix has the shape it had
    and the sum of its cells has grown by [num] for every pair of
    [zip(preds, labels)], the longer list being cut to the shorter. *)
Theorem confusion_matrix_total (preds : list nat) :
  ∀ (labels : list nat) (m m' : matrix) (num : Z) (rows cols : nat),
    rectangular rows cols m →
    confusion_matrix preds labels m num = Ok m' →
    rectangular rows cols m'
    ∧ total m'
      = (total m + num * Z.of_nat (length preds `min` length labels))%Z.
Proof.
  induction preds as [|p ps IH]; intros labels m m' num rows cols Hm H.
  - simpl in H. injection H as <-. split; [done|]. simpl. lia.
  - destruct labels as [|t ts]; simpl in H.
    + injection H as <-. split; [done|]. simpl. lia.
    + bind_inv H. destruct (add_at_total _ _ _ _ _ _ _ Hm E) as [Hm1 Ht1].
      destruct (IH _ _ _ _ _ _ Hm1 H) as [Hm2 Ht2].
      split; [done|]. rewrite Ht2, Ht1. simpl length.
      rewrite <- Nat.succ_min_distr. lia.
Qed.

Lemma confusion_matrix_total_witness :
  ∃ m', confusion_matrix [0; 1; 1]%nat [1; 1]%nat (zeros 2 2) 5 = Ok m'
        ∧ rectangular 2 2 m' ∧ total m' = 10%Z.
Proof.
  eexists. split; [reflexivity|].
  apply (confusion_matrix_total [0; 1; 1]%nat [1; 1]%nat (zeros 2 2) _ 5 2 2).
  - split; [reflexivity|]. repeat constructor.
  - reflexivity.
Defined.

(** X9. On a matrix of [rows] x [cols] cells, [confusion_matrix] returns
    when every zipped pair has its label below [rows] and its prediction
    below [cols], and raises [IndexError] as soon as one pair has not. *)
Theorem confusion_matrix_bounds (preds : list nat) :
  ∀ (labels : list nat) (m : matrix) (num : Z) (rows cols : nat),
    rectangular rows cols m →
    if bool_decide (Forall (λ pt, (pt.2 < rows ∧ pt.1 < cols)%nat)
                      (zip preds labels))
    then ∃ m', confusion_matrix preds labels m num = Ok m'
    else confusion_matrix preds labels m num = Raise IndexError.
Proof.
  induction preds as [|p ps IH]; intros labels m num rows cols Hm.
  - rewrite bool_decide_eq_true_2 by constructor. simpl. eauto.
  - destruct labels as [|t ts].
    + rewrite bool_decide_eq_true_2 by constructor. simpl. eauto.
    + simpl zip. cbn [confusion_matrix].
      destruct (decide (t < rows ∧ p < cols)%nat) as [[Ht Hp]|Hout].
      * destruct (add_at_returns m t p num rows cols Hm Ht Hp) as [m1 E].
        rewrite E. simpl.
        destruct (add_at_total _ _ _ _ _ _ _ Hm E) as [Hm1 _].
        specialize (IH ts m1 num rows cols Hm1).
        case_bool_decide as Hall.
        -- rewrite bool_decide_eq_true_2; [done|]. by constructor.
        -- rewrite bool_decide_eq_false_2; [done|].
           intros Hc. apply Hall. by inversion Hc.
      * rewrite bool_decide_eq_false_2
          by (intros Hc; apply Hout; by inversion Hc).
        rewrite (add_at_raises m t p num rows cols Hm); [done|]. lia.
Qed.

Lemma confusion_matrix_bounds_witness :
  (∃ m', confusion_matrix [1]%nat [0]%nat (zeros 2 2) 1 = Ok m')
  ∧ confusion_matrix [0; 2]%nat [1; 1]%nat (zeros 2 2) 1 = Raise IndexError.
Proof.
  split.
  - apply (confusion_matrix_bounds [1]%nat [0]%nat (zeros 2 2) 1 2 2).
    split; [reflexivity|]. repeat constructor.
  - apply (confusion_matrix_bounds [0; 2]%nat [1; 1]%nat (zeros 2 2) 1 2 2).
    split; [reflexivity|]. repeat constructor.
Defined.

(** ** The curve and the threshold *)

Lemma roc_curve_inv (ytrue : list Z) (ypred : list npfloat)
    (c : metrics.curve) :
  metrics.roc_curve ytrue ypred = Ok c →
  ∃ scores,
    metrics.finite_scores ypred = Some scores
    ∧ length ytrue = length scores
    ∧ ytrue ≠ []
    ∧ let pts := metrics.drop_intermediate
                   (metrics.binary_clf_curve ytrue scores) in
      pts ≠ []
      ∧ c = metrics.Curve (metrics.rates (0%Z :: map metrics.fps pts))
              (metrics.rates (0%Z :: map metrics.tps pts))
              (PInf :: map (λ p, Fin (metrics.thr p)) pts)
      ∧ List.last (0%Z :: map metrics.tps pts) 0%Z
        = positives (zip (map (λ t, (t =? 1)%Z) ytrue) scores)
      ∧ List.last (0%Z :: map metrics.fps pts) 0%Z
        = (Z.of_nat (length ytrue)
           - positives (zip (map (λ t, (t =? 1)%Z) ytrue) scores))%Z.
Proof.
  unfold metrics.roc_curve. intros H.
  destruct (metrics.binary_labels ytrue) eqn:Hbin; [|discriminate].
  destruct (length ytrue =? length ypred)%nat eqn:Hlen; [|discriminate].
  destruct (metrics.finite_scores ypred) as [scores|] eqn:Hfin; [|discriminate].
  cbn [negb] in H. injection H as <-.
  apply Nat.eqb_eq in Hlen. pose proof (finite_scores_length _ _ Hfin) as Hsl.
  exists scores. split; [done|]. split; [lia|].
  assert (ytrue ≠ []) as Hne.
  { unfold metrics.binary_labels in Hbin. by destruct ytrue. }
  split; [done|]. cbv zeta. unfold metrics.binary_clf_curve.
  set (pairs := zip _ scores).
  assert (length pairs = length ytrue) as Hpl.
  { subst pairs. rewrite length_zip_with, length_map. lia. }
  assert (metrics.sort_desc pairs ≠ []) as Hs.
  { intros E. apply (f_equal length) in E.
    rewrite sort_desc_length, Hpl in E. by destruct ytrue. }
  pose proof (clf_walk_nonempty _ 0 0 Hs) as Hw.
  pose proof (drop_intermediate_nonempty _ Hw) as Hd.
  destruct (clf_walk_last _ 0 0 (metrics.Point 0 0 0) Hs) as [Ht Hf].
  rewrite positives_sort_desc in Ht, Hf.
  rewrite sort_desc_length, Hpl in Hf.
  split; [done|]. split; [done|].
  rewrite !(last_map_cons _ _ (metrics.Point 0 0 0) Hd),
    drop_intermediate_last.
  split; lia.
Qed.

Lemma positives_none (ytrue : list Z) :
  ∀ scores : list Q,
    1%Z ∉ ytrue → positives (zip (map (λ t, (t =? 1)%Z) ytrue) scores) = 0%Z.
Proof.
  induction ytrue as [|t r IH]; intros scores Hno; [done|].
  destruct scores as [|s scores]; [done|].
  apply not_elem_of_cons in Hno as [Ht Hr].
  simpl. rewrite (IH scores Hr).
  destruct (Z.eqb_spec t 1); [congruence|done].
Qed.

Lemma positives_all (ytrue : list Z) :
  ∀ scores : list Q,
    length ytrue = length scores →
    Forall (λ t, t = 1%Z) ytrue →
    positives (zip (map (λ t, (t =? 1)%Z) ytrue) scores)
    = Z.of_nat (length ytrue).
Proof.
  induction ytrue as [|t r IH]; intros scores Hlen Hall; [done|].
  destruct scores as [|s scores]; [done|].
  inversion Hall as [|? ? -> Hr]; subst. injection Hlen as Hlen.
  simpl positives. rewrite (IH scores Hlen Hr). simpl length. lia.
Qed.

Lemma rates_nan (counts : list Z) :
  (List.last counts 0 ≤ 0)%Z →
  metrics.rates counts = map (λ _, NaN) counts.
Proof.
  intros H. unfold metrics.rates.
  by destruct (Z.leb_spec (List.last counts 0%Z) 0); [|lia].
Qed.

Lemma argmax_go_nan (l : list npfloat) (bi i : nat) :
  np.argmax_go bi NaN i l = bi.
Proof. revert i. induction l as [|x r IH]; intros i; [done|]. apply IH. Qed.

Lemma trapz_nan_y (y x : list npfloat) :
  Forall (λ v, v = NaN) y → (2 ≤ length y)%nat → length x = length y →
  np.trapz y x = NaN.
Proof.
  intros Hy Hl Hx.
  destruct y as [|y0 [|y1 yr]]; simpl in Hl; [lia|lia|].
  destruct x as [|x0 [|x1 xr]]; simpl in Hx; [lia|lia|].
  inversion Hy as [|? ? -> Hy']; subst.
  inversion Hy' as [|? ? -> _]; subst.
  cbn [np.trapz]. by destruct (fl.sub x1 x0).
Qed.

Lemma trapz_nan_x (y x : list npfloat) :
  Forall (λ v, v = NaN) x → (2 ≤ length y)%nat → length x = length y →
  np.trapz y x = NaN.
Proof.
  intros Hx' Hl Hx.
  destruct y as [|y0 [|y1 yr]]; simpl in Hl; [lia|lia|].
  destruct x as [|x0 [|x1 xr]]; simpl in Hx; [lia|lia|].
  inversion Hx' as [|? ? -> Hx'']; subst.
  inversion Hx'' as [|? ? -> _]; subst.
  cbn [np.trapz]. done.
Qed.

Lemma statis_auc_inv (ytrue : list Z) (ypred : list npfloat)
    (c : metrics.curve) (st : auc_stats) :
  metrics.roc_curve ytrue ypred = Ok c →
  statis_auc ytrue ypred = Ok st →
  ∃ k, np.argmax (youden c) = Ok k
       ∧ metrics.thresholds c !! k = Some (optimal_threshold st)
       ∧ stat_fpr st = metrics.fpr c
       ∧ stat_tpr st = metrics.tpr c
       ∧ metrics.auc (metrics.fpr c) (metrics.tpr c) = Ok (stat_auc st).
Proof.
  intros Hc Hst. unfold statis_auc in Hst. rewrite Hc in Hst. simpl in Hst.
  bind_inv Hst. rename a into k, E into Hk.
  bind_inv Hst. rename a into t, E into Ht.
  do 3 bind_inv Hst. injection Hst as <-. simpl.
  exists k. repeat split; eauto using index_Ok.
Qed.

(** X10. When the labels hold no 1, or nothing but 1 (a test split of one
    class), [statis_auc] raises nothing: it returns the threshold [inf]
    and the area [nan]. *)
Theorem single_class_threshold (ytrue : list Z) (ypred : list npfloat)
    (c : metrics.curve) :
  metrics.roc_curve ytrue ypred = Ok c →
  1%Z ∉ ytrue ∨ Forall (λ t, t = 1%Z) ytrue →
  ∃ st, statis_auc ytrue ypred = Ok st
        ∧ optimal_threshold st = PInf
        ∧ stat_auc st = NaN.
Proof.
  intros Hc Hone.
  destruct (statis_auc_returns _ _ _ Hc) as [st Hst]. exists st.
  split; [done|].
  destruct (statis_auc_inv _ _ _ _ Hc Hst) as (k & Hk & Hthr & _ & _ & Hauc).
  destruct (roc_curve_shape _ _ _ Hc) as (Hlf & Hlt & Hl2 & Hdx).
  destruct (roc_curve_inv _ _ _ Hc)
    as (scores & Hfin & Hlen & Hne & Hpts & -> & Htp & Hfp).
  cbn [metrics.fpr metrics.tpr metrics.thresholds] in *.
  set (pts := metrics.drop_intermediate _) in *.
  assert (metrics.rates (0%Z :: map metrics.tps pts)
          = map (λ _, NaN) (0%Z :: map metrics.tps pts)
          ∨ metrics.rates (0%Z :: map metrics.fps pts)
            = map (λ _, NaN) (0%Z :: map metrics.fps pts)) as Hnan.
  { destruct Hone as [Hno|Hall].
    - left. apply rates_nan. rewrite Htp, (positives_none _ _ Hno). lia.
    - right. apply rates_nan.
      rewrite Hfp, (positives_all _ _ Hlen Hall). lia. }
  assert (k = 0%nat) as ->.
  { unfold youden in Hk. cbn [metrics.fpr metrics.tpr] in Hk.
    destruct Hnan as [E|E]; rewrite E in Hk; rewrite map_cons in Hk.
    - destruct (metrics.rates (0%Z :: map metrics.fps pts)) as [|f0 fr];
        [done|].
      cbn [zip_with np.argmax] in Hk.
      change (fl.sub NaN f0) with NaN in Hk.
      rewrite argmax_go_nan in Hk. by injection Hk.
    - destruct (metrics.rates (0%Z :: map metrics.tps pts)) as [|t0 tr];
        [done|].
      cbn [zip_with np.argmax] in Hk.
      replace (fl.sub t0 NaN) with NaN in Hk by (by destruct t0).
      rewrite argmax_go_nan in Hk. by injection Hk. }
  split; [simpl in Hthr; congruence|].
  unfold metrics.auc in Hauc. rewrite Hlf, Hlt, Nat.eqb_refl in Hauc.
  cbn [negb] in Hauc.
  rewrite (proj2 (Nat.ltb_ge _ _) Hl2), Hdx in Hauc. injection Hauc as <-.
  destruct Hnan as [E|E]; rewrite E.
  - apply trapz_nan_y.
    + apply Forall_map. by apply Forall_forall.
    + rewrite length_map. simpl. rewrite length_map.
      destruct pts; [done|simpl; lia].
    + rewrite rates_length, !length_map. simpl. by rewrite !length_map.
  - apply trapz_nan_x.
    + apply Forall_map. by apply Forall_forall.
    + rewrite rates_length. simpl. rewrite length_map.
      destruct pts; [done|simpl; lia].
    + rewrite rates_length, !length_map. simpl. by rewrite !length_map.
Qed.

Lemma single_class_threshold_witness :
  let ytrue := [1; 1; 1]%Z in
  let ypred := [Fin 0.9; Fin 0.3; Fin 0.6] in
  ∃ c st,
    metrics.roc_curve ytrue ypred = Ok c
    ∧ statis_auc ytrue ypred = Ok st
    ∧ optimal_threshold st = PInf
    ∧ stat_auc st = NaN.
Proof.
  intros ytrue ypred.
  assert (∃ c, metrics.roc_curve ytrue ypred = Ok c) as [c Hc]
    by (eexists; vm_compute; reflexivity).
  destruct (single_class_threshold ytrue ypred c Hc) as (st & Hst & Ht & Ha).
  { right. repeat constructor. }
  by exists c, st.
Defined.

Lemma insert_elem (x y : bool * Q) (l : list (bool * Q)) :
  y ∈ metrics.insert x l → y = x ∨ y ∈ l.
Proof.
  induction l as [|z r IH]; simpl.
  - intros ->%list_elem_of_singleton. by left.
  - destruct (Qle_bool x.2 z.2).
    + intros [->|H]%elem_of_cons; [by left|by right].
    + intros [->|H]%elem_of_cons; [right; apply list_elem_of_here|].
      destruct (IH H) as [->|Hr]; [by left|].
      right. by apply list_elem_of_further.
Qed.

Lemma sort_desc_elem (y : bool * Q) (l : list (bool * Q)) :
  y ∈ metrics.sort_desc l → y ∈ l.
Proof.
  unfold metrics.sort_desc. intros H.
  apply list_elem_of_In, in_rev, list_elem_of_In in H. revert H.
  induction l as [|x r IH]; [done|]. simpl.
  intros [->|H]%insert_elem; [apply list_elem_of_here|].
  apply list_elem_of_further. by apply IH.
Qed.

Lemma clf_walk_thr (l : list (bool * Q)) :
  ∀ tp n : Z,
    Forall (λ p, metrics.thr p ∈ map snd l) (metrics.clf_walk tp n l).
Proof.
  induction l as [|[b s] r IH]; intros tp n; [constructor|].
  rewrite clf_walk_cons. cbv zeta.
  pose proof (IH (tp + (if b then 1 else 0))%Z (n + 1)%Z) as IH1.
  assert (Forall (λ p, metrics.thr p ∈ map snd ((b, s) :: r))
            (metrics.clf_walk (tp + (if b then 1 else 0)) (n + 1) r)) as IH2.
  { eapply Forall_impl; [exact IH1|]. intros p Hp. simpl.
    by apply list_elem_of_further. }
  destruct r as [|[b1 s1] r'].
  - repeat constructor.
  - destruct (Qeq_bool s s1); [done|]. constructor; [|done].
    simpl. apply list_elem_of_here.
Qed.

Lemma drop_intermediate_Forall (P : metrics.point → Prop)
    (l : list metrics.point) :
  Forall P l → Forall P (metrics.drop_intermediate l).
Proof.
  intros H. unfold metrics.drop_intermediate.
  destruct l as [|a [|b [|c r]]]; try done.
  constructor; [by inversion H|]. by apply corners_Forall.
Qed.

Lemma finite_scores_elem (l : list npfloat) (qs : list Q) (s : Q) :
  metrics.finite_scores l = Some qs → s ∈ qs → Fin s ∈ l.
Proof.
  revert qs. induction l as [|x r IH]; intros qs H Hs; simpl in H.
  - injection H as <-. by apply elem_of_nil in Hs.
  - destruct x; try discriminate.
    destruct (metrics.finite_scores r) as [qs'|]; [|discriminate].
    injection H as <-.
    apply elem_of_cons in Hs as [->|Hs]; [apply list_elem_of_here|].
    apply list_elem_of_further. by eapply IH.
Qed.

Lemma zip_snd_elem {A B} (l : list A) (k : list B) (x : A * B) :
  x ∈ zip l k → x.2 ∈ k.
Proof.
  revert k. induction l as [|a l IH]; intros k H; [by apply elem_of_nil in H|].
  destruct k as [|b k]; [by apply elem_of_nil in H|].
  simpl in H. apply elem_of_cons in H as [->|H]; [apply list_elem_of_here|].
  apply list_elem_of_further. by apply IH.
Qed.

(** X11. The threshold [statis_auc] returns is [inf] or the score of one
    of the patients. *)
Theorem threshold_is_a_score (ytrue : list Z) (ypred : list npfloat)
    (st : auc_stats) :
  statis_auc ytrue ypred = Ok st →
  optimal_threshold st = PInf ∨ optimal_threshold st ∈ ypred.
Proof.
  intros Hst.
  destruct (metrics.roc_curve ytrue ypred) as [c|e] eqn:Hc;
    [|unfold statis_auc in Hst; by rewrite Hc in Hst].
  destruct (statis_auc_inv _ _ _ _ Hc Hst) as (k & _ & Hthr & _).
  destruct (roc_curve_inv _ _ _ Hc) as (scores & Hfin & _ & _ & _ & -> & _).
  cbn [metrics.thresholds] in Hthr.
  destruct k as [|k]; simpl in Hthr; [left; congruence|right].
  rewrite list_lookup_fmap in Hthr.
  destruct (_ !! k) as [p|] eqn:Ep; [|discriminate].
  injection Hthr as <-.
  assert (metrics.thr p ∈ scores) as Hp.
  { apply list_elem_of_lookup_2 in Ep. revert p Ep. apply Forall_forall.
    apply drop_intermediate_Forall. unfold metrics.binary_clf_curve.
    eapply Forall_impl; [apply clf_walk_thr|]. intros p Hp. simpl in Hp.
    apply list_elem_of_fmap in Hp as (y & -> & Hy).
    apply sort_desc_elem in Hy. by apply zip_snd_elem in Hy. }
  by eapply finite_scores_elem.
Qed.

Lemma threshold_is_a_score_witness :
  ∃ st, statis_auc [0; 1; 0]%Z [Fin 0.2; Fin 0.8; Fin 0.6] = Ok st
        ∧ optimal_threshold st = Fin 0.8
        ∧ (optimal_threshold st = PInf
           ∨ optimal_threshold st ∈ [Fin 0.2; Fin 0.8; Fin 0.6]).
Proof.
  eexists. split; [vm_compute; reflexivity|]. split; [reflexivity|].
  apply (threshold_is_a_score [0; 1; 0]%Z). vm_compute; reflexivity.
Defined.

(** ** What [test] computes *)

Lemma binarize_unit_interval (ytrue : list Z) (t : Q) :
  Forall bit ytrue → 0 < t → t <= 1 → binarize ytrue (Fin t) = ytrue.
Proof.
  intros Hb H0 H1. induction Hb as [|y r Hy _ IH]; [done|].
  change (binarize (y :: r) (Fin t))
    with ((if fl.geb (fl.of_int y) (Fin t) then 1%Z else 0%Z)
          :: binarize r (Fin t)).
  rewrite IH. f_equal. unfold fl.of_int, fl.geb.
  destruct Hy as [-> | ->].
  - destruct (Qle_bool t (inject_Z 0)) eqn:E; [|done].
    apply Qle_bool_iff in E. change (inject_Z 0) with 0 in E. lra.
  - destruct (Qle_bool t (inject_Z 1)) eqn:E; [done|].
    exfalso. assert (Qle_bool t (inject_Z 1) = true); [|congruence].
    apply Qle_bool_iff. by change (inject_Z 1) with 1.
Qed.

Lemma binarize_inf (ytrue : list Z) :
  binarize ytrue PInf = map (λ _, 0%Z) ytrue.
Proof. unfold binarize. reflexivity. Qed.

Lemma count_where_same (f : Z → Z → bool) (l : list Z) :
  (∀ x, x ∈ l → f x x = false) → np.count_where f l l = 0%Z.
Proof.
  induction l as [|x r IH]; intros H; [done|].
  rewrite count_where_cons, H, IH; [done| |apply list_elem_of_here].
  intros y Hy. apply H. by apply list_elem_of_further.
Qed.

Lemma count_where_zeros (f : Z → Z → bool) (l : list Z) :
  (∀ x, f x 0%Z = false) → np.count_where f l (map (λ _, 0%Z) l) = 0%Z.
Proof.
  intros H. induction l as [|x r IH]; [done|].
  rewrite map_cons, count_where_cons, H, IH. done.
Qed.

Lemma test_body_inv (steps : list batch) (dict_test : dict (list vec2))
    (dict_label : dict Z) (dict_new : dict (list Q)) (v : test_locals) :
  test_body steps dict_test dict_label dict_new = Ok v →
  ∃ d scored,
    foldM (record_batch dict_new) dict_test steps = Ok d
    ∧ loss_average steps = Ok (loss_avg v)
    ∧ mapM (score_patient d dict_label) (keys d) = Ok scored
    ∧ ll_ytrue v = map fst scored
    ∧ ll_ypred v = map snd scored
    ∧ statis_auc (ll_ytrue v) (ll_ypred v) = Ok (stats v)
    ∧ y_pred_binary v = binarize (ll_ytrue v) (optimal_threshold (stats v))
    ∧ TP v = count_TP (ll_ytrue v) (y_pred_binary v)
    ∧ TN v = count_TN (ll_ytrue v) (y_pred_binary v)
    ∧ FP v = count_FP (ll_ytrue v) (y_pred_binary v)
    ∧ FN v = count_FN (ll_ytrue v) (y_pred_binary v)
    ∧ SEN v = sensitivity (TP v) (FN v)
    ∧ SPE v = specificity (TN v) (FP v)
    ∧ mAP v = balanced (SEN v) (SPE v)
    ∧ acc v = accuracy (TP v) (TN v) (FP v) (FN v).
Proof.
  intros H. unfold test_body in H.
  bind_inv H. rename a into d, E into Hd.
  bind_inv H. rename a into la, E into Hla.
  bind_inv H. rename a into scored, E into Hs.
  bind_inv H. rename a into st, E into Hst.
  bind_inv H. injection H as <-. simpl.
  exists d, scored. repeat split; done.
Qed.

Lemma confusion_counts_total (steps : list batch)
    (dict_test : dict (list vec2)) (dict_label : dict Z)
    (dict_new : dict (list Q)) (v : test_locals) :
  test_body steps dict_test dict_label dict_new = Ok v →
  (TP v + TN v + FP v + FN v)%Z = Z.of_nat (length (keys dict_test)).
Proof.
  intros H.
  destruct (test_body_inv _ _ _ _ _ H)
    as (d & scored & Hd & _ & Hs & Hyt & _ & _ & Hbin & Htp & Htn & Hfp
        & Hfn & _).
  pose proof (record_all_keys _ _ _ _ Hd) as Hk. rewrite Hk in Hs.
  destruct (scored_truth_bits _ _ _ _ Hs) as [Hlen Hbits].
  rewrite <- Hyt in Hbits.
  rewrite Htp, Htn, Hfp, Hfn, Hbin.
  rewrite counts_sum by (by apply binarize_bits).
  by rewrite Hyt, length_map, Hlen.
Qed.

(** X12. The predictions of a completed evaluation pass depend on the
    scores through the threshold only.  With a threshold in (0, 1] they
    are the true labels themselves, so FP and FN are 0 and every patient
    counts as right; with the threshold [inf] they are all 0, so TP and FN
    are 0 and the sensitivity is [nan]. *)
Theorem predictions_follow_labels (steps : list batch)
    (dict_test : dict (list vec2)) (dict_label : dict Z)
    (dict_new : dict (list Q)) (v : test_locals) :
  test_body steps dict_test dict_label dict_new = Ok v →
  (∀ t, optimal_threshold (stats v) = Fin t → 0 < t → t <= 1 →
        y_pred_binary v = ll_ytrue v
        ∧ FP v = 0%Z ∧ FN v = 0%Z
        ∧ (TP v + TN v)%Z = Z.of_nat (length (keys dict_test)))
  ∧ (optimal_threshold (stats v) = PInf →
       y_pred_binary v = map (λ _, 0%Z) (ll_ytrue v)
       ∧ TP v = 0%Z ∧ FN v = 0%Z ∧ SEN v = NaN).
Proof.
  intros H.
  destruct (test_body_inv _ _ _ _ _ H)
    as (d & scored & Hd & _ & Hs & Hyt & _ & _ & Hbin & Htp & Htn & Hfp
        & Hfn & Hsen & _).
  pose proof (record_all_keys _ _ _ _ Hd) as Hk. rewrite Hk in Hs.
  destruct (scored_truth_bits _ _ _ _ Hs) as [Hlen Hbits].
  rewrite <- Hyt in Hbits.
  split.
  - intros t Ht H0 H1. rewrite Ht in Hbin.
    rewrite (binarize_unit_interval _ _ Hbits H0 H1) in Hbin.
    assert (FP v = 0%Z) as HFP.
    { rewrite Hfp, Hbin. apply count_where_same.
      intros x _. by destruct (x =? 1)%Z eqn:E; [apply Z.eqb_eq in E as ->|]. }
    assert (FN v = 0%Z) as HFN.
    { rewrite Hfn, Hbin. apply count_where_same.
      intros x _. by destruct (x =? 0)%Z eqn:E; [apply Z.eqb_eq in E as ->|]. }
    repeat split; try done.
    pose proof (confusion_counts_total _ _ _ _ _ H) as Hsum. lia.
  - intros Ht. rewrite Ht, binarize_inf in Hbin.
    assert (TP v = 0%Z) as HTP.
    { rewrite Htp, Hbin. apply count_where_zeros.
      intros x. apply andb_false_r. }
    assert (FN v = 0%Z) as HFN.
    { rewrite Hfn, Hbin. apply count_where_zeros.
      intros x. apply andb_false_r. }
    repeat split; try done.
    rewrite Hsen, HTP, HFN. reflexivity.
Qed.

Lemma predictions_follow_labels_witness :
  ∃ v, scenario = Ok v
       ∧ optimal_threshold (stats v) = Fin 0.8
       ∧ y_pred_binary v = ll_ytrue v
       ∧ FP v = 0%Z ∧ FN v = 0%Z
       ∧ (TP v + TN v)%Z = 3%Z.
Proof.
  eexists. split; [vm_compute; reflexivity|]. split; [reflexivity|].
  refine (proj1 (predictions_follow_labels scenario_steps
                   (dict_ops.empty_lists scenario_csv)
                   (dict_ops.of_rows scenario_csv) scenario_features _ _)
            0.8 _ _ _).
  - vm_compute; reflexivity.
  - reflexivity.
  - reflexivity.
  - discriminate.
Defined.

Lemma append_lookup_None {V} (d d' : dict (list V)) (k key : string) (v : V) :
  dict_ops.append d k v = Ok d' →
  items d !! key = None → items d' !! key = None.
Proof.
  unfold dict_ops.append. intros H Hkey.
  destruct (items d !! k) as [l|] eqn:Ek; [|discriminate].
  injection H as <-. simpl. rewrite lookup_insert_ne; [done|congruence].
Qed.

Lemma record_pass_lookup_None (dict_new : dict (list Q)) (steps : list batch)
    (d d' : dict (list vec2)) (key : string) :
  foldM (record_batch dict_new) d steps = Ok d' →
  items d !! key = None → items d' !! key = None.
Proof.
  intros H Hkey.
  apply (foldM_invariant (λ x, items x !! key = None)) in H; [done| |done].
  intros x b y Hx Hy. unfold record_batch in Hy. bind_inv Hy.
  apply (foldM_invariant (λ z, items z !! key = None)) in Hy; [done| |done].
  intros z s w Hz Hw. by eapply append_lookup_None.
Qed.

Lemma score_patient_value (d : dict (list vec2)) (dict_label : dict Z)
    (k : string) (s : Z * npfloat) :
  score_patient d dict_label k = Ok s →
  ∃ outs target,
    items d !! k = Some outs ∧ items dict_label !! k = Some target
    ∧ s = (patient_truth target, (aggregate outs).1).
Proof.
  unfold score_patient, dict_ops.get. intros H.
  destruct (items d !! k) as [outs|]; [|discriminate].
  destruct (items dict_label !! k) as [target|]; [|discriminate].
  simpl in H. injection H as <-. eauto.
Qed.

(** X13. In a completed evaluation pass the scores follow the key order
    of [dict_test]: a patient's score is the first component of the mean
    of the outputs [dict_test] held for it before the pass followed by
    the outputs of its slices in the pass, and its true label is 0 for
    label 2 and 1 otherwise. *)
Theorem scores_in_key_order (steps : list batch)
    (dict_test : dict (list vec2)) (dict_label : dict Z)
    (dict_new : dict (list Q)) (v : test_locals) :
  test_body steps dict_test dict_label dict_new = Ok v →
  ll_ypred v
  = map (λ k, (aggregate (default [] (items dict_test !! k)
                          ++ pass_outputs k steps)).1) (keys dict_test)
  ∧ ll_ytrue v
    = map (λ k, patient_truth (default 0%Z (items dict_label !! k)))
        (keys dict_test).
Proof.
  intros H.
  destruct (test_body_inv _ _ _ _ _ H)
    as (d & scored & Hd & _ & Hs & -> & -> & _).
  rewrite (record_all_keys _ _ _ _ Hd) in Hs. apply mapM_Ok in Hs.
  induction Hs as [|k s ks scored Hk _ IH]; [done|].
  destruct IH as [IH1 IH2]. simpl. rewrite IH1, IH2.
  destruct (score_patient_value _ _ _ _ Hk) as (outs & target & Ho & Ht & ->).
  rewrite Ht. simpl.
  destruct (items dict_test !! k) as [outs0|] eqn:E0.
  - rewrite (record_pass_lookup _ _ _ _ _ _ Hd E0) in Ho.
    injection Ho as <-. done.
  - rewrite (record_pass_lookup_None _ _ _ _ _ Hd E0) in Ho. done.
Qed.

Lemma scores_in_key_order_witness :
  ∃ v, scenario = Ok v
       ∧ ll_ypred v
         = map (λ k, (aggregate
                        (default [] (items (dict_ops.empty_lists scenario_csv)
                                     !! k)
                         ++ pass_outputs k scenario_steps)).1)
             ["p1"; "p2"; "p3"]
       ∧ ll_ytrue v = [0; 1; 0]%Z.
Proof.
  eexists. split; [vm_compute; reflexivity|].
  destruct (scores_in_key_order scenario_steps
              (dict_ops.empty_lists scenario_csv)
              (dict_ops.of_rows scenario_csv) scenario_features
              _ ltac:(vm_compute; reflexivity)) as [H1 H2].
  split; [exact H1|reflexivity].
Defined.

Lemma finite_scores_nan (l : list npfloat) (x : npfloat) :
  x ∈ l → fl.is_fin x = false → metrics.finite_scores l = None.
Proof.
  intros Hx Hf. induction l as [|y r IH]; [by apply elem_of_nil in Hx|].
  apply elem_of_cons in Hx as [<-|Hx].
  - by destruct x.
  - simpl. rewrite (IH Hx). by destruct y.
Qed.

(** X14. An evaluation pass in which some patient of [dict_test] has no
    slice, and held none before, stops with [ValueError]: the patient's
    score is [nan], which [roc_curve] refuses. *)
Theorem patient_without_slices_raises (steps : list batch)
    (dict_test : dict (list vec2)) (dict_label : dict Z)
    (dict_new : dict (list Q)) (k0 : string) :
  steps ≠ [] →
  (∀ b s, b ∈ steps → s ∈ slices b →
          is_Some (items dict_new !! s.1) ∧ is_Some (items dict_test !! s.1)) →
  (∀ k, k ∈ keys dict_test →
        is_Some (items dict_label !! k) ∧ is_Some (items dict_test !! k)) →
  k0 ∈ keys dict_test →
  items dict_test !! k0 = Some [] →
  pass_outputs k0 steps = [] →
  test_body steps dict_test dict_label dict_new = Raise ValueError.
Proof.
  intros Hsteps Hslices Hpat Hk0 He Hp. unfold test_body.
  destruct (record_pass_returns dict_new steps dict_test Hslices) as [d Hd].
  rewrite Hd, bind_Ok_l.
  unfold loss_average. rewrite bool_decide_eq_false_2 by done.
  rewrite bind_Ok_l, (record_all_keys _ _ _ _ Hd).
  destruct (mapM_returns (score_patient d dict_label) (keys dict_test))
    as [scored Hs].
  { intros k Hk. destruct (Hpat k Hk) as [[t Ht] [outs Ho]].
    unfold score_patient, dict_ops.get.
    rewrite (record_pass_lookup _ _ _ _ _ _ Hd Ho), Ht. simpl. eauto. }
  rewrite Hs, bind_Ok_l.
  destruct (scored_truth_bits _ _ _ _ Hs) as [Hlen Hbits].
  assert (NaN ∈ map snd scored) as Hnan.
  { apply mapM_Ok in Hs.
    apply list_elem_of_lookup in Hk0 as [i Hi].
    destruct (Forall2_lookup_l _ _ _ _ _ Hs Hi) as (s & Hsi & Hsc).
    destruct (score_patient_value _ _ _ _ Hsc) as (outs & target & Ho & _ & ->).
    rewrite (record_pass_lookup _ _ _ _ _ _ Hd He), Hp in Ho.
    injection Ho as <-.
    apply list_elem_of_lookup. exists i.
    rewrite list_lookup_fmap, Hsi. reflexivity. }
  unfold statis_auc, metrics.roc_curve.
  rewrite binary_labels_bits; [| |done].
  - rewrite !length_map, Nat.eqb_refl.
    by rewrite (finite_scores_nan _ _ Hnan).
  - intros E. apply (f_equal length) in E. rewrite length_map, Hlen in E.
    destruct (keys dict_test); [by apply elem_of_nil in Hk0|done].
Qed.

Lemma patient_without_slices_raises_witness :
  test_body
    [Batch [("p1", (0.2, 0.8))] (Fin 0.7); Batch [("p2", (0.8, 0.2))] (Fin 0.3)]
    (dict_ops.empty_lists scenario_csv)
    (dict_ops.of_rows scenario_csv) scenario_features
  = Raise ValueError.
Proof.
  apply (patient_without_slices_raises _ _ _ _ "p3").
  - discriminate.
  - intros b s Hb Hs.
    repeat (apply elem_of_cons in Hb as [->|Hb];
            [apply list_elem_of_singleton in Hs as ->;
             split; vm_compute; eauto|]).
    by apply elem_of_nil in Hb.
  - intros k Hk. vm_compute in Hk.
    repeat (apply elem_of_cons in Hk as [->|Hk];
            [split; vm_compute; eauto|]).
    by apply elem_of_nil in Hk.
  - vm_compute. do 2 apply list_elem_of_further. apply list_elem_of_here.
  - vm_compute; reflexivity.
  - reflexivity.
Defined.

(** ** Recording a batch *)

Lemma lookup_all_cases {V} (d : dict V) (l : list (string * vec2)) :
  (∃ r, mapM (λ s, dict_ops.get d s.1) l = Ok r
        ∧ ∀ s, s ∈ l → is_Some (items d !! s.1))
  ∨ (∃ s, s ∈ l ∧ items d !! s.1 = None
          ∧ mapM (λ s, dict_ops.get d s.1) l = Raise (KeyError s.1)).
Proof.
  induction l as [|s r IH].
  - left. eexists. split; [reflexivity|]. by intros s ?%elem_of_nil.
  - change (mapM (λ s, dict_ops.get d s.1) (s :: r))
      with (dict_ops.get d s.1
            ≫= λ y, mapM (λ s, dict_ops.get d s.1) r
                    ≫= λ k, Ok (y :: k)).
    destruct (items d !! s.1) as [v|] eqn:E.
    + assert (dict_ops.get d s.1 = Ok v) as ->
        by (unfold dict_ops.get; by rewrite E).
      rewrite bind_Ok_l.
      destruct IH as [(r' & -> & Hall)|(s' & Hs' & Hn & ->)].
      * left. eexists. split; [reflexivity|].
        intros z [->|Hz]%elem_of_cons; [by rewrite E|by apply Hall].
      * right. exists s'. split; [by apply list_elem_of_further|done].
    + assert (dict_ops.get d s.1 = Raise (KeyError s.1)) as ->
        by (unfold dict_ops.get; by rewrite E).
      right. exists s. split; [apply list_elem_of_here|done].
Qed.

Lemma record_slices_cases (l : list (string * vec2)) :
  ∀ d : dict (list vec2),
    (∃ d', foldM (λ d s, dict_ops.append d s.1 s.2) d l = Ok d'
           ∧ ∀ s, s ∈ l → is_Some (items d !! s.1))
    ∨ (∃ s, s ∈ l ∧ items d !! s.1 = None
            ∧ foldM (λ d s, dict_ops.append d s.1 s.2) d l
              = Raise (KeyError s.1)).
Proof.
  induction l as [|s r IH]; intros d.
  - left. eexists. split; [reflexivity|]. by intros s ?%elem_of_nil.
  - rewrite foldM_cons.
    destruct (items d !! s.1) as [outs|] eqn:E.
    + set (d1 := Dict (keys d) (<[s.1 := outs ++ [s.2]]> (items d))).
      assert (dict_ops.append d s.1 s.2 = Ok d1) as ->
        by (unfold dict_ops.append; by rewrite E).
      rewrite bind_Ok_l.
      assert (∀ key, items d !! key = None → items d1 !! key = None) as Hn.
      { intros key Hkey. subst d1. simpl.
        rewrite lookup_insert_ne; [done|congruence]. }
      assert (∀ key, is_Some (items d1 !! key) → is_Some (items d !! key))
        as Hs.
      { intros key [v Hv]. destruct (items d !! key) eqn:Ek; [eauto|].
        rewrite (Hn key Ek) in Hv. done. }
      destruct (IH d1) as [(d' & -> & Hall)|(s' & Hs' & Hnone & ->)].
      * left. eexists. split; [reflexivity|].
        intros z [->|Hz]%elem_of_cons; [by rewrite E|]. apply Hs, Hall, Hz.
      * right. exists s'. split; [by apply list_elem_of_further|].
        split; [|done].
        destruct (items d !! s'.1) as [w|] eqn:Ew; [|done].
        assert (is_Some (items d1 !! s'.1)) as [u Hu]; [|congruence].
        subst d1. simpl. destruct (decide (s.1 = s'.1)) as [Heq|Hne].
        -- rewrite Heq, lookup_insert_eq. eauto.
        -- rewrite lookup_insert_ne by done. eauto.
    + assert (dict_ops.append d s.1 s.2 = Raise (KeyError s.1)) as ->
        by (unfold dict_ops.append; by rewrite E).
      right. exists s. split; [apply list_elem_of_here|done].
Qed.

(** X15. Recording a batch raises [KeyError] exactly when a slice of the
    batch belongs to a patient that has no radiomic vector in [dict_new]
    or no entry in the accumulator, and the error names such a patient;
    otherwise it returns, with the same keys. *)
Theorem record_batch_key_errors (dict_new : dict (list Q))
    (acc : dict (list vec2)) (b : batch) :
  (∃ acc', record_batch dict_new acc b = Ok acc'
           ∧ keys acc' = keys acc
           ∧ ∀ s, s ∈ slices b →
                  is_Some (items dict_new !! s.1)
                  ∧ is_Some (items acc !! s.1))
  ∨ (∃ s, s ∈ slices b
          ∧ (items dict_new !! s.1 = None ∨ items acc !! s.1 = None)
          ∧ record_batch dict_new acc b = Raise (KeyError s.1)).
Proof.
  unfold record_batch.
  destruct (lookup_all_cases dict_new (slices b))
    as [(r & -> & Hnew)|(s & Hs & Hn & ->)].
  - rewrite bind_Ok_l.
    destruct (record_slices_cases (slices b) acc)
      as [(d' & Hd & Hacc)|(s & Hs & Hn & ->)].
    + left. exists d'. split; [done|]. split; [|by split; auto].
      apply (foldM_invariant (λ x, keys x = keys acc)) in Hd; [done| |done].
      intros x s y Hx Hy. apply append_keys in Hy. congruence.
    + right. exists s. auto.
  - right. exists s. auto.
Qed.

(** ** The epoch loop *)

Ltac order3 x y z :=
  unfold fl_lt, fl_le;
  destruct x as [| | |x], y as [| | |y], z as [| | |z]; simpl;
  try discriminate; try done;
  rewrite ?Qltb_true, ?Qltb_false, ?Qle_bool_iff; intros; lra.

Lemma nn_lt_trans (x y z : npfloat) : fl_lt x y → fl_lt y z → fl_lt x z.
Proof. order3 x y z. Qed.

Lemma nn_lt_le_trans (x y z : npfloat) : fl_lt x y → fl_le y z → fl_lt x z.
Proof. order3 x y z. Qed.

Lemma nn_not_lt_le (x y : npfloat) :
  fl.is_nan x = false → fl.is_nan y = false →
  fl.ltb x y = false → fl_le y x.
Proof.
  unfold fl_le. destruct x as [| | |x], y as [| | |y]; simpl;
    try discriminate; try done.
  intros _ _. rewrite Qltb_false. apply Qle_bool_iff.
Qed.

Lemma nn_le_refl (x : npfloat) : fl.is_nan x = false → fl_le x x.
Proof.
  unfold fl_le. destruct x as [| | |x]; simpl; try done.
  intros _. apply Qle_bool_iff. lra.
Qed.

Lemma lt_not_nan_l (x y : npfloat) : fl_lt x y → fl.is_nan x = false.
Proof. unfold fl_lt. by destruct x, y. Qed.

Section EpochLoop.

Variable train_csv test_csv : list (string * Z).
Variable dict_new : dict (list Q).

Lemma run_epochs_numbered (inputs : list epoch_input) :
  ∀ (n : nat) (st st' : train_state) (reps : list epoch_report),
    run_epochs train_csv test_csv dict_new n inputs st = Ok (st', reps) →
    checkpoints st' = checkpoints st ++ seq n (length inputs)
    ∧ i_epoch <$> reps = seq n (length inputs).
Proof.
  induction inputs as [|inp rest IH]; intros n st st' reps H; simpl in H.
  - injection H as <- <-. by rewrite app_nil_r.
  - bind_inv H. destruct a as [st1 rep0].
    bind_inv H. destruct a as [st2 reps']. injection H as <- <-.
    apply train_epoch_best in E as (Hn & _ & _ & _ & Hc).
    destruct (IH _ _ _ _ E0) as [Hc' Hr'].
    split.
    + by rewrite Hc', Hc, <- app_assoc.
    + rewrite fmap_cons, Hr', Hn. reflexivity.
Qed.

Lemma run_epochs_best_ckpt (inputs : list epoch_input) :
  ∀ (n : nat) (st st' : train_state) (reps : list epoch_report),
    run_epochs train_csv test_csv dict_new n inputs st = Ok (st', reps) →
    best_ckpt st' = best_ckpt st
    ∨ ∃ k, (k < length inputs)%nat ∧ best_ckpt st' = Some (n + k)%nat.
Proof.
  induction inputs as [|inp rest IH]; intros n st st' reps H; simpl in H.
  - injection H as <- _. by left.
  - bind_inv H. destruct a as [st1 rep0].
    bind_inv H. destruct a as [st2 reps']. injection H as <- _.
    apply train_epoch_best in E as (_ & _ & _ & Hb & _).
    destruct (IH _ _ _ _ E0) as [Hb'|(k & Hk & Hb')].
    + rewrite Hb', Hb. destruct (best_updated rep0); [|by left].
      right. exists 0%nat. simpl. split; [lia|]. by rewrite Nat.add_0_r.
    + right. exists (S k). simpl. split; [lia|].
      rewrite Hb'. f_equal. lia.
Qed.

Lemma run_epochs_keys (inputs : list epoch_input) :
  ∀ (n : nat) (st st' : train_state) (reps : list epoch_report),
    run_epochs train_csv test_csv dict_new n inputs st = Ok (st', reps) →
    keys (dict_last st') = keys (dict_last st).
Proof.
  induction inputs as [|inp rest IH]; intros n st st' reps H; simpl in H.
  - by injection H as <- _.
  - bind_inv H. destruct a as [st1 rep0].
    bind_inv H. destruct a as [st2 reps']. injection H as <- _.
    rewrite (IH _ _ _ _ E0).
    unfold train_epoch in E. bind_inv E. apply record_all_keys in E1.
    do 2 bind_inv E. destruct a1 as [[acc_2 acc_4] cm]. bind_inv E.
    destruct (update_best _ _) as [b low]. by injection E as <- _.
Qed.

(** What a run does to the best checkpoint, from any state: it leaves it
    alone when no test loss is below [min_acc_loss], and else leaves the
    first epoch with the least test loss. *)
Lemma run_epochs_best_final (inputs : list epoch_input) :
  ∀ (n : nat) (st st' : train_state) (reps : list epoch_report),
    run_epochs train_csv test_csv dict_new n inputs st = Ok (st', reps) →
    fl.is_nan (min_acc_loss st) = false →
    Forall (λ rep, fl.is_nan (loss_test rep) = false) reps →
    (best_ckpt st' = best_ckpt st
     ∧ min_acc_loss st' = min_acc_loss st
     ∧ ∀ j rep', reps !! j = Some rep' →
                 fl.ltb (loss_test rep') (min_acc_loss st) = false)
    ∨ (∃ k rep,
         reps !! k = Some rep
         ∧ best_ckpt st' = Some (n + k)%nat
         ∧ min_acc_loss st' = loss_test rep
         ∧ fl_lt (loss_test rep) (min_acc_loss st)
         ∧ (∀ j rep', reps !! j = Some rep' →
                      fl_le (loss_test rep) (loss_test rep'))
         ∧ (∀ j rep', (j < k)%nat → reps !! j = Some rep' →
                      fl_lt (loss_test rep) (loss_test rep'))).
Proof.
  induction inputs as [|inp rest IH]; intros n st st' reps H Hm Hnan;
    simpl in H.
  - injection H as <- <-. left. by repeat split.
  - bind_inv H. destruct a as [st1 rep0].
    bind_inv H. destruct a as [st2 reps']. injection H as <- <-.
    apply train_epoch_best in E as (_ & Hb & Hlow & Hbest & _).
    inversion Hnan as [|? ? Hnan0 Hnan']; subst.
    unfold update_best in Hb, Hlow.
    destruct (fl.ltb (loss_test rep0) (min_acc_loss st)) eqn:Elt;
      simpl in Hb, Hlow; rewrite Hb in Hbest.
    + (* the epoch wrote the best checkpoint *)
      destruct (IH (S n) st1 st2 reps' E0) as
        [(Hb' & Hm' & Hnone)|(k & rep & Hk & Hb' & Hm' & Hlt & Hle & Hfirst)];
        [by rewrite Hlow|done| |].
      * right. exists 0%nat, rep0. rewrite Nat.add_0_r.
        repeat split; try congruence.
        -- intros [|j] rep' Hj; simpl in Hj.
           ++ injection Hj as <-. by apply nn_le_refl.
           ++ apply nn_not_lt_le; [|done|].
              ** by apply (proj1 (Forall_lookup _ _) Hnan' j).
              ** rewrite <- Hlow. by apply (Hnone j).
        -- intros j rep' Hj. lia.
      * rewrite Hlow in Hlt. right. exists (S k), rep.
        replace (n + S k)%nat with (S n + k)%nat by lia.
        repeat split; try done.
        -- by apply (nn_lt_trans _ (loss_test rep0)).
        -- intros [|j] rep' Hj; simpl in Hj.
           ++ injection Hj as <-. by apply fl_lt_le.
           ++ by apply (Hle j).
        -- intros [|j] rep' Hj Hj'; simpl in Hj'.
           ++ by injection Hj' as <-.
           ++ apply (Hfirst j); [lia|done].
    + (* the epoch did not *)
      destruct (IH (S n) st1 st2 reps' E0) as
        [(Hb' & Hm' & Hnone)|(k & rep & Hk & Hb' & Hm' & Hlt & Hle & Hfirst)];
        [by rewrite Hlow|done| |].
      * left. repeat split; try congruence.
        intros [|j] rep' Hj; simpl in Hj.
        -- by injection Hj as <-.
        -- rewrite <- Hlow. by apply (Hnone j).
      * rewrite Hlow in Hlt.
        assert (fl_lt (loss_test rep) (loss_test rep0)) as Hlt0.
        { apply (nn_lt_le_trans _ (min_acc_loss st)); [done|].
          by apply nn_not_lt_le. }
        right. exists (S k), rep.
        replace (n + S k)%nat with (S n + k)%nat by lia.
        repeat split; try done.
        -- intros [|j] rep' Hj; simpl in Hj.
           ++ injection Hj as <-. by apply fl_lt_le.
           ++ by apply (Hle j).
        -- intros [|j] rep' Hj Hj'; simpl in Hj'.
           ++ by injection Hj' as <-.
           ++ apply (Hfirst j); [lia|done].
Qed.

(** X16. After a run whose test losses are not [nan], [best_acc.pth.tar]
    has not been written when no epoch's test loss is below 10; otherwise
    it holds the first epoch of least test loss, and [min_acc_loss] is
    that loss. *)
Theorem best_checkpoint_is_first_minimum (inputs : list epoch_input)
    (st : train_state) (reps : list epoch_report) :
  run_epochs train_csv test_csv dict_new 1 inputs (initial_state train_csv)
  = Ok (st, reps) →
  Forall (λ rep, fl.is_nan (loss_test rep) = false) reps →
  (best_ckpt st = None →
   min_acc_loss st = Fin 10
   ∧ ∀ j rep, reps !! j = Some rep →
              fl.ltb (loss_test rep) (Fin 10) = false)
  ∧ (∀ n, best_ckpt st = Some n →
     ∃ k rep,
       n = S k ∧ reps !! k = Some rep ∧ i_epoch rep = n
       ∧ min_acc_loss st = loss_test rep
       ∧ fl_lt (loss_test rep) (Fin 10)
       ∧ (∀ j rep', reps !! j = Some rep' →
                    fl_le (loss_test rep) (loss_test rep'))
       ∧ (∀ j rep', (j < k)%nat → reps !! j = Some rep' →
                    fl_lt (loss_test rep) (loss_test rep'))).
Proof.
  intros H Hnan.
  destruct (run_epochs_best_final inputs 1 _ _ _ H ltac:(done) Hnan)
    as [(Hb & Hm & Hnone)|(k & rep & Hk & Hb & Hm & Hlt & Hle & Hfirst)].
  - rewrite Hb. simpl. split; [by split|]. intros n Hn. discriminate.
  - rewrite Hb. split; [intros Hn; discriminate|].
    intros n [= <-]. exists k, rep. repeat split; try done.
    pose proof (run_epochs_numbered _ _ _ _ _ H) as [_ Hnum].
    pose proof (f_equal length Hnum) as Hlen.
    rewrite length_fmap, length_seq in Hlen.
    apply lookup_lt_Some in Hk as Hlt'.
    apply (f_equal (λ l, l !! k)) in Hnum.
    rewrite list_lookup_fmap, Hk, lookup_seq_lt in Hnum by lia.
    simpl in Hnum. by injection Hnum.
Qed.

(** X17. A run of [train] that completes has written the per-epoch
    checkpoints 1 to 20, in this order, its reports carry these epoch
    numbers, and the best checkpoint, when there is one, is one of them. *)
Theorem train_writes_every_checkpoint (inputs : nat → epoch_input)
    (st : train_state) (reps : list epoch_report) :
  train train_csv test_csv dict_new inputs = Ok (st, reps) →
  checkpoints st = seq 1 20
  ∧ i_epoch <$> reps = seq 1 20
  ∧ ∀ n, best_ckpt st = Some n → n ∈ checkpoints st.
Proof.
  unfold train. intros H.
  pose proof (run_epochs_numbered _ _ _ _ _ H) as [Hc Hr].
  rewrite length_map, length_seq in Hc, Hr. simpl checkpoints in Hc.
  rewrite app_nil_l in Hc.
  split; [done|]. split; [done|].
  intros n Hn.
  destruct (run_epochs_best_ckpt _ _ _ _ _ H) as [Hb|(k & Hk & Hb)].
  - rewrite Hb in Hn. discriminate.
  - rewrite length_map, length_seq in Hk.
    rewrite Hb in Hn. injection Hn as <-. rewrite Hc.
    apply elem_of_seq. lia.
Qed.

Lemma tally_patient_counts (d : dict (list vec2)) (dl : dict Z)
    (key : string) (x2 x4 y2 y4 a b c e : Z) (cm : matrix) :
  tally_patient d dl (x2, x4, [[a; b]; [c; e]]) key = Ok (y2, y4, cm) →
  ∃ a' b' c' e',
    cm = [[a'; b']; [c'; e']]
    ∧ (a' - a = y4 - x4)%Z ∧ (e' - e = y2 - x2)%Z
    ∧ (a' + b' + c' + e' = a + b + c + e + 1)%Z
    ∧ (a ≤ a')%Z ∧ (b ≤ b')%Z ∧ (c ≤ c')%Z ∧ (e ≤ e')%Z.
Proof.
  unfold tally_patient, dict_ops.get. intros H.
  destruct (items d !! key) as [outs|]; [|discriminate].
  destruct (items dl !! key) as [target|]; [|discriminate].
  simpl in H.
  pose proof (target_index_lt target) as Ht.
  pose proof (torch_argmax_lt (aggregate outs)) as Hp.
  destruct (target_index target) as [|[|?]]; [| |lia];
    destruct (torch_argmax (aggregate outs)) as [|[|?]]; try lia;
    simpl in H; injection H as <- <- <-; simpl;
    eexists _, _, _, _; (split; [reflexivity|]); lia.
Qed.

Lemma tally_counts (d : dict (list vec2)) (dl : dict Z) (ks : list string) :
  ∀ (x2 x4 y2 y4 a b c e : Z) (cm : matrix),
    foldM (tally_patient d dl) (x2, x4, [[a; b]; [c; e]]) ks
    = Ok (y2, y4, cm) →
    ∃ a' b' c' e',
      cm = [[a'; b']; [c'; e']]
      ∧ (a' - a = y4 - x4)%Z ∧ (e' - e = y2 - x2)%Z
      ∧ (a' + b' + c' + e' = a + b + c + e + Z.of_nat (length ks))%Z
      ∧ (a ≤ a')%Z ∧ (b ≤ b')%Z ∧ (c ≤ c')%Z ∧ (e ≤ e')%Z.
Proof.
  induction ks as [|k r IH]; intros x2 x4 y2 y4 a b c e cm H; simpl in H.
  - injection H as <- <- <-. exists a, b, c, e. simpl. repeat split; lia.
  - bind_inv H. destruct a0 as [[z2 z4] m].
    apply tally_patient_counts in E
      as (a1 & b1 & c1 & e1 & -> & Ha & He & Hs & ? & ? & ? & ?).
    apply IH in H as (a' & b' & c' & e' & -> & Ha' & He' & Hs' & ? & ? & ? & ?).
    exists a', b', c', e'. simpl length. repeat split; lia.
Qed.

(** X18. In every epoch that completes, the training confusion matrix
    is 2 by 2 with non-negative cells that add up to the number of patients
    of [dict_last]; the reported train accuracy is its diagonal over the
    constant 364, and the reported train mAP the mean of cell [1][1] over
    78 and cell [0][0] over 286, whatever the number of patients. *)
Theorem train_accuracy_denominators (n : nat) (inp : epoch_input)
    (st st1 : train_state) (rep : epoch_report) :
  train_epoch train_csv test_csv dict_new n inp st = Ok (st1, rep) →
  ∃ c00 c01 c10 c11 : Z,
    conf_matrix_train rep = [[c00; c01]; [c10; c11]]
    ∧ (0 ≤ c00)%Z ∧ (0 ≤ c01)%Z ∧ (0 ≤ c10)%Z ∧ (0 ≤ c11)%Z
    ∧ (c00 + c01 + c10 + c11)%Z = Z.of_nat (length (keys (dict_last st)))
    ∧ train_acc_all rep
      = fl.mul (np.true_divide (c11 + c00) 364) (Fin 100)
    ∧ train_mAP rep
      = fl.mul (fl.div (fl.add (np.true_divide c11 78)
                               (np.true_divide c00 286)) (Fin 2)) (Fin 100).
Proof.
  intros H. unfold train_epoch in H.
  bind_inv H. apply record_all_keys in E as Hkeys.
  do 2 bind_inv H. destruct a1 as [[acc_2 acc_4] cm]. bind_inv H.
  destruct (update_best _ _) as [b low]. injection H as _ <-.
  apply tally_counts in E1
    as (c00 & c01 & c10 & c11 & -> & H00 & H11 & Hs & ? & ? & ? & ?).
  exists c00, c01, c10, c11. simpl. rewrite <- Hkeys.
  replace acc_2 with c11 by lia. replace acc_4 with c00 by lia.
  repeat split; try done; lia.
Qed.

Lemma set_items {V} (k : string) (v : V) (d : dict V) :
  items (dict_ops.set k v d) = <[k := v]> (items d).
Proof. unfold dict_ops.set. by destruct (items d !! k). Qed.

Lemma empty_lists_fold {A V} (rows : list (string * A)) :
  ∀ (d : dict (list V)) (key : string),
    (∀ k v, items d !! k = Some v → v = []) →
    key ∈ rows.*1 ∨ is_Some (items d !! key) →
    items (fold_left (λ d kv, dict_ops.set kv.1 kv.2 d)
             (map (λ kv : string * A, (kv.1, @nil V)) rows) d) !! key
    = Some [].
Proof.
  induction rows as [|[k x] r IH]; intros d key Hd Hkey; simpl.
  - destruct Hkey as [Hin|[v Hv]]; [by apply elem_of_nil in Hin|].
    by rewrite Hv, (Hd _ _ Hv).
  - apply IH.
    + intros k' v. rewrite set_items. simpl.
      destruct (decide (k = k')) as [->|Hne].
      * rewrite lookup_insert_eq. by intros [= <-].
      * rewrite lookup_insert_ne by done. apply Hd.
    + rewrite set_items. simpl.
      destruct (decide (k = key)) as [->|Hne].
      * right. rewrite lookup_insert_eq. eauto.
      * rewrite lookup_insert_ne by done.
        destruct Hkey as [Hin|Hs]; [|by right].
        simpl in Hin. apply elem_of_cons in Hin as [->|Hin]; [done|by left].
Qed.

Lemma empty_lists_lookup {A V} (rows : list (string * A)) (key : string) :
  key ∈ rows.*1 →
  items (dict_ops.empty_lists (V:=V) rows) !! key = Some [].
Proof.
  intros Hkey. unfold dict_ops.empty_lists, dict_ops.of_rows.
  apply empty_lists_fold; [|by left].
  intros k v. unfold dict_ops.empty. simpl. by rewrite lookup_empty.
Qed.

Lemma run_epochs_appends (inputs : list epoch_input) :
  ∀ (n : nat) (st st' : train_state) (reps : list epoch_report)
    (key : string) (outs : list vec2),
    run_epochs train_csv test_csv dict_new n inputs st = Ok (st', reps) →
    items (dict_last st) !! key = Some outs →
    items (dict_last st') !! key = Some (outs ++ run_outputs key inputs).
Proof.
  induction inputs as [|inp rest IH]; intros n st st' reps key outs H Hkey;
    simpl in H.
  - injection H as <- _. unfold run_outputs. simpl. by rewrite app_nil_r.
  - bind_inv H. destruct a as [st1 rep0].
    bind_inv H. destruct a as [st2 reps']. injection H as <- _.
    pose proof (train_epoch_appends _ _ _ _ _ _ _ _ key outs E Hkey) as Ha.
    rewrite (IH _ _ _ _ key _ E0 Ha).
    unfold run_outputs. simpl. by rewrite <- app_assoc.
Qed.

(** X19. After any number of completed epochs, the entry of [dict_last]
    for a patient of train.csv holds the outputs of the patient's slices
    from every epoch so far, the first epoch's first, and the keys of
    [dict_last] are unchanged: nothing is ever removed. *)
Theorem dict_last_holds_all_epochs (inputs : list epoch_input)
    (st : train_state) (reps : list epoch_report) (key : string) :
  run_epochs train_csv test_csv dict_new 1 inputs (initial_state train_csv)
  = Ok (st, reps) →
  key ∈ train_csv.*1 →
  items (dict_last st) !! key = Some (run_outputs key inputs)
  ∧ keys (dict_last st) = keys (dict_last (initial_state train_csv)).
Proof.
  intros H Hkey. split.
  - apply (run_epochs_appends _ _ _ _ _ key []) in H; [done|].
    simpl. by apply empty_lists_lookup.
  - by apply run_epochs_keys in H.
Qed.

End EpochLoop.

Lemma best_checkpoint_is_first_minimum_witness :
  ∃ st reps,
    demo_run [demo_epoch (0.3, 0.7) 12; demo_epoch (0.4, 0.6) 0.4;
              demo_epoch (0.4, 0.6) 0.9; demo_epoch (0.4, 0.6) 0.4]
    = Ok (st, reps)
    ∧ best_ckpt st = Some 2%nat
    ∧ (best_ckpt st = None →
       min_acc_loss st = Fin 10
       ∧ ∀ j rep, reps !! j = Some rep →
                  fl.ltb (loss_test rep) (Fin 10) = false)
    ∧ (∀ n, best_ckpt st = Some n →
       ∃ k rep,
         n = S k ∧ reps !! k = Some rep ∧ i_epoch rep = n
         ∧ min_acc_loss st = loss_test rep
         ∧ fl_lt (loss_test rep) (Fin 10)
         ∧ (∀ j rep', reps !! j = Some rep' →
                      fl_le (loss_test rep) (loss_test rep'))
         ∧ (∀ j rep', (j < k)%nat → reps !! j = Some rep' →
                      fl_lt (loss_test rep) (loss_test rep'))).
Proof.
  eexists _, _. split; [vm_compute; reflexivity|].
  split; [reflexivity|].
  refine (best_checkpoint_is_first_minimum demo_train_csv scenario_csv
            demo_features
            [demo_epoch (0.3, 0.7) 12; demo_epoch (0.4, 0.6) 0.4;
             demo_epoch (0.4, 0.6) 0.9; demo_epoch (0.4, 0.6) 0.4]
            _ _ _ _).
  - vm_compute; reflexivity.
  - repeat constructor.
Defined.

Lemma train_writes_every_checkpoint_witness :
  ∃ st reps,
    train demo_train_csv scenario_csv demo_features
      (λ n, demo_epoch (0.3, 0.7) (if (n <? 5)%nat then 0.9 else 0.4))
    = Ok (st, reps)
    ∧ best_ckpt st = Some 5%nat
    ∧ checkpoints st = seq 1 20
    ∧ i_epoch <$> reps = seq 1 20
    ∧ ∀ n, best_ckpt st = Some n → n ∈ checkpoints st.
Proof.
  eexists _, _. split; [vm_compute; reflexivity|].
  split; [reflexivity|].
  refine (train_writes_every_checkpoint demo_train_csv scenario_csv
            demo_features
            (λ n, demo_epoch (0.3, 0.7) (if (n <? 5)%nat then 0.9 else 0.4))
            _ _ _).
  vm_compute; reflexivity.
Defined.

Lemma train_accuracy_denominators_witness :
  ∃ st rep,
    train_epoch demo_train_csv scenario_csv demo_features 1
      (demo_epoch (0.3, 0.7) 0.9) (initial_state demo_train_csv)
    = Ok (st, rep)
    ∧ train_acc_all rep = Fin (100 # 364)
    ∧ ∃ c00 c01 c10 c11 : Z,
        conf_matrix_train rep = [[c00; c01]; [c10; c11]]
        ∧ (0 ≤ c00)%Z ∧ (0 ≤ c01)%Z ∧ (0 ≤ c10)%Z ∧ (0 ≤ c11)%Z
        ∧ (c00 + c01 + c10 + c11)%Z
          = Z.of_nat (length (keys (dict_last (initial_state demo_train_csv))))
        ∧ train_acc_all rep
          = fl.mul (np.true_divide (c11 + c00) 364) (Fin 100)
        ∧ train_mAP rep
          = fl.mul (fl.div (fl.add (np.true_divide c11 78)
                                   (np.true_divide c00 286)) (Fin 2))
              (Fin 100).
Proof.
  eexists _, _. split; [vm_compute; reflexivity|].
  split; [vm_compute; reflexivity|].
  refine (train_accuracy_denominators demo_train_csv scenario_csv
            demo_features 1 (demo_epoch (0.3, 0.7) 0.9)
            (initial_state demo_train_csv) _ _ _).
  vm_compute; reflexivity.
Defined.

Lemma dict_last_holds_all_epochs_witness :
  ∃ st reps,
    demo_run [demo_epoch (0.1, 0.9) 0.9; demo_epoch (0.6, 0.4) 0.4;
              demo_epoch (0.2, 0.8) 0.4]
    = Ok (st, reps)
    ∧ items (dict_last st) !! "t1"
      = Some (run_outputs "t1"
                [demo_epoch (0.1, 0.9) 0.9; demo_epoch (0.6, 0.4) 0.4;
                 demo_epoch (0.2, 0.8) 0.4])
    ∧ keys (dict_last st) = keys (dict_last (initial_state demo_train_csv)).
Proof.
  eexists _, _. split; [vm_compute; reflexivity|].
  refine (dict_last_holds_all_epochs demo_train_csv scenario_csv
            demo_features
            [demo_epoch (0.1, 0.9) 0.9; demo_epoch (0.6, 0.4) 0.4;
             demo_epoch (0.2, 0.8) 0.4] _ _ "t1" _ _).
  - vm_compute; reflexivity.
  - simpl. apply list_elem_of_here.
Defined.

(** ** The augmentations *)

Lemma slice_tail {A} (r : nat) (a : list A) :
  (0 < r ≤ length a)%nat →
  ndarray.slice (Some (- Z.of_nat r)%Z) None a = drop (length a - r) a.
Proof.
  intros Hr. unfold ndarray.slice, ndarray.start, ndarray.stop, ndarray.bound.
  destruct (Z.ltb_spec (- Z.of_nat r) 0); [|lia].
  replace (Z.to_nat (Z.max 0 (Z.of_nat (length a) + - Z.of_nat r)))
    with (length a - r)%nat by lia.
  apply take_ge. rewrite length_drop. lia.
Qed.

Lemma slice_but_tail {A} (r : nat) (a : list A) :
  (0 < r ≤ length a)%nat →
  ndarray.slice None (Some (- Z.of_nat r)%Z) a = take (length a - r) a.
Proof.
  intros Hr. unfold ndarray.slice, ndarray.start, ndarray.stop, ndarray.bound.
  destruct (Z.ltb_spec (- Z.of_nat r) 0); [|lia].
  replace (Z.to_nat (Z.max 0 (Z.of_nat (length a) + - Z.of_nat r)))
    with (length a - r)%nat by lia.
  rewrite drop_0. f_equal. lia.
Qed.

Lemma slice_head {A} (r : nat) (a : list A) :
  (r ≤ length a)%nat →
  ndarray.slice None (Some (Z.of_nat r)) a = take r a.
Proof.
  intros Hr. unfold ndarray.slice, ndarray.start, ndarray.stop, ndarray.bound.
  destruct (Z.ltb_spec (Z.of_nat r) 0); [lia|].
  rewrite Nat2Z.id, drop_0. f_equal. lia.
Qed.

Lemma slice_but_head {A} (r : nat) (a : list A) :
  (r ≤ length a)%nat →
  ndarray.slice (Some (Z.of_nat r)) None a = drop r a.
Proof.
  intros Hr. unfold ndarray.slice, ndarray.start, ndarray.stop, ndarray.bound.
  destruct (Z.ltb_spec (Z.of_nat r) 0); [lia|].
  rewrite Nat2Z.id. replace (Nat.min (length a) r) with r by lia.
  apply take_ge. rewrite length_drop. lia.
Qed.

Lemma set_slice_head {A} (r : nat) (dst src : list A) :
  (r ≤ length dst)%nat → length src = r →
  ndarray.set_slice None (Some (Z.of_nat r)) dst src = Ok (src ++ drop r dst).
Proof.
  intros Hr Hs.
  unfold ndarray.set_slice, ndarray.start, ndarray.stop, ndarray.bound.
  destruct (Z.ltb_spec (Z.of_nat r) 0); [lia|].
  rewrite Nat2Z.id. replace (Nat.min (length dst) r - 0)%nat with r by lia.
  rewrite (proj2 (Nat.eqb_eq _ _) Hs). by rewrite take_0.
Qed.

Lemma set_slice_but_head {A} (r : nat) (dst src : list A) :
  (r ≤ length dst)%nat → length src = (length dst - r)%nat →
  ndarray.set_slice (Some (Z.of_nat r)) None dst src = Ok (take r dst ++ src).
Proof.
  intros Hr Hs.
  unfold ndarray.set_slice, ndarray.start, ndarray.stop, ndarray.bound.
  destruct (Z.ltb_spec (Z.of_nat r) 0); [lia|].
  rewrite Nat2Z.id. replace (Nat.min (length dst) r) with r by lia.
  rewrite (proj2 (Nat.eqb_eq _ _) Hs).
  rewrite (drop_ge dst) by lia. by rewrite app_nil_r.
Qed.

Lemma set_slice_tail {A} (r : nat) (dst src : list A) :
  (0 < r ≤ length dst)%nat → length src = r →
  ndarray.set_slice (Some (- Z.of_nat r)%Z) None dst src
  = Ok (take (length dst - r) dst ++ src).
Proof.
  intros Hr Hs.
  unfold ndarray.set_slice, ndarray.start, ndarray.stop, ndarray.bound.
  destruct (Z.ltb_spec (- Z.of_nat r) 0); [|lia].
  replace (Z.to_nat (Z.max 0 (Z.of_nat (length dst) + - Z.of_nat r)))
    with (length dst - r)%nat by lia.
  replace (length dst - (length dst - r))%nat with r by lia.
  rewrite (proj2 (Nat.eqb_eq _ _) Hs).
  rewrite (drop_ge dst) by lia. by rewrite app_nil_r.
Qed.

Lemma set_slice_but_tail {A} (r : nat) (dst src : list A) :
  (0 < r ≤ length dst)%nat → length src = (length dst - r)%nat →
  ndarray.set_slice None (Some (- Z.of_nat r)%Z) dst src
  = Ok (src ++ drop (length dst - r) dst).
Proof.
  intros Hr Hs.
  unfold ndarray.set_slice, ndarray.start, ndarray.stop, ndarray.bound.
  destruct (Z.ltb_spec (- Z.of_nat r) 0); [|lia].
  replace (Z.to_nat (Z.max 0 (Z.of_nat (length dst) + - Z.of_nat r)) - 0)%nat
    with (length dst - r)%nat by lia.
  rewrite (proj2 (Nat.eqb_eq _ _) Hs). by rewrite take_0.
Qed.

Lemma mapM_pointwise {A B} (f : A → result B) (g : A → B) (l : list A) :
  Forall (λ x, f x = Ok (g x)) l → mapM f l = Ok (map g l).
Proof.
  induction 1 as [|x l Hx _ IH]; [done|].
  change (mapM f (x :: l)) with (y ← f x; k ← mapM f l; mret (y :: k)).
  by rewrite Hx, IH.
Qed.

Lemma rotate_small {A} (k : nat) (l : list A) :
  (k < length l)%nat → rotate k l = drop k l ++ take k l.
Proof. intros Hk. unfold rotate. by rewrite Nat.mod_small. Qed.

(** A shift along the first axis, in the two directions. *)
Lemma shift_down {B} (r : nat) (z a : list B) :
  length z = length a → (0 < r < length a)%nat →
  (m ← ndarray.set_slice None (Some (Z.of_nat r)) z
         (ndarray.slice (Some (- Z.of_nat r)%Z) None a);
   ndarray.set_slice (Some (Z.of_nat r)) None m
     (ndarray.slice None (Some (- Z.of_nat r)%Z) a))
  = Ok (rotate (length a - r) a).
Proof.
  intros Hz Hr.
  rewrite slice_tail, slice_but_tail by lia.
  rewrite set_slice_head by (rewrite ?length_drop; lia).
  rewrite bind_Ok_l.
  rewrite set_slice_but_head
    by (rewrite ?length_app, ?length_drop, ?length_take; lia).
  rewrite take_app_length' by (rewrite length_drop; lia).
  by rewrite rotate_small by lia.
Qed.

Lemma shift_up {B} (r : nat) (z a : list B) :
  length z = length a → (0 < r < length a)%nat →
  (m ← ndarray.set_slice (Some (- Z.of_nat r)%Z) None z
         (ndarray.slice None (Some (Z.of_nat r)) a);
   ndarray.set_slice None (Some (- Z.of_nat r)%Z) m
     (ndarray.slice (Some (Z.of_nat r)) None a))
  = Ok (rotate r a).
Proof.
  intros Hz Hr.
  rewrite slice_head, slice_but_head by lia.
  rewrite set_slice_tail by (rewrite ?length_take; lia).
  rewrite bind_Ok_l.
  rewrite set_slice_but_tail
    by (rewrite ?length_app, ?length_drop, ?length_take; lia).
  rewrite length_app, !length_take.
  replace (length z - r `min` length z + r `min` length a - r)%nat
    with (length z - r)%nat by lia.
  rewrite drop_app_length' by (rewrite length_take; lia).
  by rewrite rotate_small by lia.
Qed.

Lemma set_cols_cons {B} (lo hi : option Z) (d s : list B)
    (ds ss : list (list B)) :
  ndarray.set_cols lo hi (d :: ds) (s :: ss)
  = y ← ndarray.set_slice lo hi d s;
    k ← ndarray.set_cols lo hi ds ss; Ok (y :: k).
Proof. reflexivity. Qed.

(** Two column assignments in a row, done row by row. *)
Lemma two_stage_cols {B} (lo1 hi1 lo2 hi2 : option Z)
    (s1 s2 g : list B → list B) (z a : list (list B)) :
  Forall2 (λ zr ar,
             (m ← ndarray.set_slice lo1 hi1 zr (s1 ar);
              ndarray.set_slice lo2 hi2 m (s2 ar)) = Ok (g ar)) z a →
  (m ← ndarray.set_cols lo1 hi1 z (map s1 a);
   ndarray.set_cols lo2 hi2 m (map s2 a)) = Ok (map g a).
Proof.
  induction 1 as [|zr ar z a Hrow _ IH]; [done|].
  apply bind_Ok in Hrow as (y1 & Hy1 & Hy2).
  apply bind_Ok in IH as (m1 & Hm1 & Hm2).
  rewrite !map_cons, set_cols_cons, Hy1, bind_Ok_l, Hm1, !bind_Ok_l.
  by rewrite set_cols_cons, Hy2, bind_Ok_l, Hm2.
Qed.

Lemma rotate_back {B} (k : nat) (l : list B) :
  (0 < k < length l)%nat → rotate (length l - k) (rotate k l) = l.
Proof.
  intros Hk. rewrite (rotate_small k) by lia.
  rewrite rotate_small by (rewrite length_app, length_drop, length_take; lia).
  replace (length l - k)%nat with (length (drop k l))
    by (rewrite length_drop; lia).
  rewrite drop_app_length, take_app_length. apply take_drop.
Qed.

Lemma Forall2_with_right {B C} (P : B → C → Prop) (Q : C → Prop)
    (l : list B) (k : list C) :
  Forall2 P l k → Forall Q k → Forall2 (λ x y, P x y ∧ Q y) l k.
Proof.
  induction 1 as [|x y l k Hxy _ IH]; intros Hk; [constructor|].
  inversion Hk; subst. constructor; auto.
Qed.

Lemma Forall_rotate_length {B} (k w : nat) (img : list (list B)) :
  Forall (λ r, length r = w) img →
  Forall (λ r, length r = w) (map (rotate k) img).
Proof.
  intros H. apply Forall_fmap. eapply Forall_impl; [exact H|].
  intros r Hr. simpl. by rewrite length_rotate.
Qed.

Lemma rect_rotate {B} (k h w : nat) (img : list (list B)) :
  rect h w img → rect h w (rotate k img).
Proof.
  intros [Hh Hw]. split; [by rewrite length_rotate|].
  unfold rotate. apply Forall_app. split.
  - by apply Forall_drop.
  - by apply Forall_take.
Qed.

Lemma rect_width {B} (h w : nat) (img : list (list B)) :
  rect h w img → (0 < h)%nat → width img = w ∧ height img = h.
Proof.
  intros [Hh Hw] Hpos. unfold height. split; [|done].
  destruct img as [|r img]; simpl in *; [lia|].
  by inversion Hw.
Qed.

Section Shift.

Context {A : Type}.
Variable zero : A.

Lemma zeros_like_length (img : list (list A)) :
  length (zeros_like zero img) = length img.
Proof. unfold zeros_like. by rewrite length_map. Qed.

Lemma zeros_like_rows (img : list (list A)) :
  Forall2 (λ zr ar, length zr = length ar) (zeros_like zero img) img.
Proof.
  induction img as [|r img IH]; constructor; [|done].
  by rewrite length_map.
Qed.

Lemma move_shifts (h w r : nat) (directions : Q) (img : list (list A)) :
  rect h w img →
  (Nat.min w h / 4 ≤ r < Nat.min w h / 2)%nat →
  (0 < r)%nat →
  move zero (Z.of_nat r) directions img
  = Ok (if fl.Qltb directions 0.25 then rotate (h - r) img
        else if fl.Qltb directions 0.5 then rotate r img
        else if fl.Qltb directions 0.75 then map (rotate r) img
        else map (rotate (w - r)) img).
Proof.
  intros Hrect Hr Hpos.
  assert (r < h ∧ r < w)%nat as [Hrh Hrw].
  { pose proof (Nat.Div0.div_le_upper_bound (Nat.min w h) 2 (Nat.min w h)).
    pose proof (Nat.Div0.mul_div_le (Nat.min w h) 2). lia. }
  destruct (rect_width h w img Hrect ltac:(lia)) as [Hw Hh].
  destruct Hrect as [Hlen Hrows].
  unfold move. rewrite Hw, Hh. unfold ndarray.randint.
  destruct (Z.ltb_spec (Z.of_nat (Nat.min w h / 4))
              (Z.of_nat (Nat.min w h / 2))); [|lia].
  rewrite bind_Ok_l.
  destruct (fl.Qltb directions 0.25);
    [|destruct (fl.Qltb directions 0.5);
      [|destruct (fl.Qltb directions 0.75)]].
  - rewrite shift_down by (rewrite ?zeros_like_length; lia).
    by rewrite Hlen.
  - by rewrite shift_up by (rewrite ?zeros_like_length; lia).
  - unfold ndarray.cols. apply two_stage_cols.
    eapply Forall2_impl;
      [apply (Forall2_with_right _ _ _ _ (zeros_like_rows img) Hrows)|].
    intros zr ar [Hz Ha]. simpl in Ha. apply shift_up; lia.
  - unfold ndarray.cols. apply two_stage_cols.
    eapply Forall2_impl;
      [apply (Forall2_with_right _ _ _ _ (zeros_like_rows img) Hrows)|].
    intros zr ar [Hz Ha]. simpl in Ha. rewrite <- Ha.
    apply shift_down; lia.
Qed.

End Shift.

Lemma rotate_Permutation {B} (k : nat) (l : list B) : rotate k l ≡ₚ l.
Proof.
  unfold rotate. rewrite Permutation_app_comm. by rewrite take_drop.
Qed.

Lemma rotate_rows_Permutation {B} (k : nat) (img : list (list B)) :
  concat (map (rotate k) img) ≡ₚ concat img.
Proof.
  induction img as [|r img IH]; [done|].
  simpl. by rewrite rotate_Permutation, IH.
Qed.

Lemma rotate_rows_back {B} (k w : nat) (img : list (list B)) :
  Forall (λ r, length r = w) img → (0 < k < w)%nat →
  map (rotate (w - k)) (map (rotate k) img) = img.
Proof.
  intros Hrows Hk. induction Hrows as [|r img Hr _ IH]; [done|].
  simpl. rewrite IH. f_equal. rewrite <- Hr. apply rotate_back. lia.
Qed.

Section ShiftFacts.

Context {A : Type}.
Variable zero : A.

(** X20. On an image of [h] rows of [w] pixels, with a drawn rate that is
    not 0, [move] returns an image of the same size that holds the same
    pixels: the rows, or the pixels of every row, rotated by [rate]
    places, in the direction the second draw selects. *)
Theorem cyclic_shift_rotates (h w r : nat) (directions : Q)
    (img : list (list A)) :
  rect h w img →
  (Nat.min w h / 4 ≤ r < Nat.min w h / 2)%nat →
  (0 < r)%nat →
  ∃ img',
    move zero (Z.of_nat r) directions img = Ok img'
    ∧ img' = (if fl.Qltb directions 0.25 then rotate (h - r) img
              else if fl.Qltb directions 0.5 then rotate r img
              else if fl.Qltb directions 0.75 then map (rotate r) img
              else map (rotate (w - r)) img)
    ∧ rect h w img'
    ∧ concat img' ≡ₚ concat img.
Proof.
  intros Hrect Hr Hpos. eexists. split; [by apply (move_shifts zero h w)|].
  split; [done|].
  destruct (fl.Qltb directions 0.25);
    [|destruct (fl.Qltb directions 0.5);
      [|destruct (fl.Qltb directions 0.75)]].
  - split; [by apply rect_rotate|]. by rewrite rotate_Permutation.
  - split; [by apply rect_rotate|]. by rewrite rotate_Permutation.
  - split; [|apply rotate_rows_Permutation].
    destruct Hrect as [Hh Hw]. split; [by rewrite length_map|].
    by apply Forall_rotate_length.
  - split; [|apply rotate_rows_Permutation].
    destruct Hrect as [Hh Hw]. split; [by rewrite length_map|].
    by apply Forall_rotate_length.
Qed.

(** X21. A shift is undone by the shift in the opposite direction with
    the same rate: up after down, down after up, right after left and
    left after right give the image back. *)
Theorem opposite_shift_undoes (h w r : nat) (d1 d2 : Q)
    (img : list (list A)) :
  rect h w img →
  (Nat.min w h / 4 ≤ r < Nat.min w h / 2)%nat →
  (0 < r)%nat →
  opposite d1 d2 = true →
  move zero (Z.of_nat r) d1 img ≫= move zero (Z.of_nat r) d2 = Ok img.
Proof.
  intros Hrect Hr Hpos Hopp.
  assert (r < h ∧ r < w)%nat as [Hrh Hrw].
  { pose proof (Nat.Div0.mul_div_le (Nat.min w h) 2). lia. }
  rewrite (move_shifts zero h w) by done.
  rewrite bind_Ok_l.
  pose proof Hrect as [Hh Hw].
  unfold opposite, side in Hopp.
  destruct (fl.Qltb d1 0.25);
    [|destruct (fl.Qltb d1 0.5); [|destruct (fl.Qltb d1 0.75)]];
    (destruct (fl.Qltb d2 0.25) eqn:E1;
     [|destruct (fl.Qltb d2 0.5) eqn:E2;
       [|destruct (fl.Qltb d2 0.75) eqn:E3]]); try discriminate.
  - rewrite (move_shifts zero h w) by (try apply rect_rotate; done).
    rewrite E1, E2. f_equal.
    replace r with (length img - (h - r))%nat at 1 by lia.
    apply rotate_back. lia.
  - rewrite (move_shifts zero h w) by (try apply rect_rotate; done).
    rewrite E1. f_equal. rewrite <- Hh. apply rotate_back. lia.
  - rewrite (move_shifts zero h w); [| |done|done].
    + rewrite E1, E2, E3. f_equal. by apply rotate_rows_back.
    + split; [by rewrite length_map|]. by apply Forall_rotate_length.
  - rewrite (move_shifts zero h w); [| |done|done].
    + rewrite E1, E2, E3. f_equal.
      replace r with (w - (w - r))%nat at 1 by lia.
      apply rotate_rows_back; [done|lia].
    + split; [by rewrite length_map|]. by apply Forall_rotate_length.
Qed.

(** X22. On an image whose smaller side is below 4 pixels [CyclicShift]
    cannot shift: when its first draw is below [p] it raises [ValueError]
    whatever else is drawn, and otherwise it returns the image as it is.
    Below 2 pixels [randint] has an empty range, and with 2 or 3 pixels
    the only rate is 0, for which the two sides of the first slice
    assignment differ in size. *)
Theorem small_image_shift_raises (h w : nat) (self_p p : Q) (rate : Z)
    (directions : Q) (img : list (list A)) :
  rect h w img →
  (Nat.min w h < 4)%nat →
  ((Nat.min w h / 4 < Nat.min w h / 2)%nat →
   (Z.of_nat (Nat.min w h / 4) ≤ rate < Z.of_nat (Nat.min w h / 2))%Z) →
  CyclicShift_call zero self_p p rate directions img
  = if fl.Qltb p self_p then Raise ValueError else Ok img.
Proof.
  intros Hrect Hsmall Hdraw. unfold CyclicShift_call.
  destruct (fl.Qltb p self_p); [|done].
  destruct (decide (h = 0%nat)) as [->|Hh0].
  { destruct Hrect as [Hlen _]. destruct img; [|discriminate]. done. }
  destruct (rect_width h w img Hrect ltac:(lia)) as [Hw Hh].
  unfold move. rewrite Hw, Hh. unfold ndarray.randint.
  destruct (Z.ltb_spec (Z.of_nat (Nat.min w h / 4))
              (Z.of_nat (Nat.min w h / 2))) as [Hlt|Hge]; [|done].
  assert (Nat.min w h = 2 ∨ Nat.min w h = 3)%nat as Hmin.
  { destruct (Nat.min w h) as [|[|[|[|?]]]]; simpl in Hlt; lia. }
  assert (rate = 0%Z) as ->.
  { assert (Nat.min w h / 4 < Nat.min w h / 2)%nat as Hn by lia.
    specialize (Hdraw Hn).
    destruct Hmin as [E|E]; rewrite E in Hdraw; simpl in Hdraw; lia. }
  rewrite bind_Ok_l. destruct Hrect as [Hlen Hrows].
  assert (2 ≤ w ∧ 2 ≤ h)%nat as [Hw2 Hh2] by lia.
  clear Hw Hh Hdraw Hlt Hmin Hsmall.
  destruct img as [|r0 [|r1 img]]; simpl in Hlen; [lia|lia|].
  apply Forall_cons in Hrows as [Hr0 _].
  destruct r0 as [|x0 [|x1 r0]]; simpl in Hr0; [lia|lia|].
  clear Hr0 Hlen.
  destruct (fl.Qltb directions 0.25);
    [|destruct (fl.Qltb directions 0.5);
      [|destruct (fl.Qltb directions 0.75)]]; reflexivity.
Qed.

End ShiftFacts.

Lemma cyclic_shift_rotates_witness :
  rect 4 5 demo_image
  ∧ ∃ img',
      move 0%Z 1 0.6 demo_image = Ok img'
      ∧ img' = [[12; 13; 14; 15; 11]; [22; 23; 24; 25; 21];
                [32; 33; 34; 35; 31]; [42; 43; 44; 45; 41]]%Z
      ∧ rect 4 5 img'
      ∧ concat img' ≡ₚ concat demo_image.
Proof.
  split; [split; [reflexivity|repeat constructor]|].
  apply (cyclic_shift_rotates 0%Z 4 5 1 0.6 demo_image).
  - split; [reflexivity|repeat constructor].
  - simpl. lia.
  - lia.
Defined.

Lemma opposite_shift_undoes_witness :
  move 0%Z 1 0.1 demo_image
  = Ok ([[41; 42; 43; 44; 45]; [11; 12; 13; 14; 15];
         [21; 22; 23; 24; 25]; [31; 32; 33; 34; 35]]%Z)
  ∧ move 0%Z 1 0.1 demo_image ≫= move 0%Z 1 0.3 = Ok demo_image.
Proof.
  split; [reflexivity|].
  apply (opposite_shift_undoes 0%Z 4 5 1 0.1 0.3 demo_image).
  - split; [reflexivity|repeat constructor].
  - simpl. lia.
  - lia.
  - reflexivity.
Defined.

Lemma small_image_shift_raises_witness :
  CyclicShift_call 0%Z 0.5 0.2 0 0.9 [[1; 2; 3]; [4; 5; 6]; [7; 8; 9]]%Z
  = Raise ValueError.
Proof.
  apply (small_image_shift_raises 0%Z 3 3 0.5 0.2 0 0.9
           [[1; 2; 3]; [4; 5; 6]; [7; 8; 9]]%Z).
  - split; [reflexivity|repeat constructor].
  - simpl. lia.
  - simpl. lia.
Defined.

(** ** Salt and pepper noise *)

Lemma imap_Forall2 {B C} (P : C → B → Prop) (l : list B) :
  ∀ f : nat → B → C,
    (∀ i x, l !! i = Some x → P (f i x) x) → Forall2 P (imap f l) l.
Proof.
  induction l as [|x l IH]; intros f H; simpl; constructor.
  - by apply (H 0%nat).
  - apply IH. intros i y Hi. by apply (H (S i)).
Qed.

Lemma imap_id_on {B} (l : list B) :
  ∀ f : nat → B → B,
    (∀ i x, l !! i = Some x → f i x = x) → imap f l = l.
Proof.
  induction l as [|x l IH]; intros f H; simpl; [done|].
  rewrite (H 0%nat x) by done. f_equal.
  apply IH. intros i y Hi. by apply (H (S i)).
Qed.

Lemma uint8_byte (px : list Z) :
  Forall (λ v, (0 ≤ v < 256)%Z) px → uint8 px = px.
Proof.
  induction 1 as [|v px Hv _ IH]; [done|].
  unfold uint8 in *. simpl. rewrite IH. f_equal. by apply Z.mod_small.
Qed.

(** X23. With a noise level above 1/2 the two tests of
    [add_salt_pepper_noise] overlap: when [AddPepperNoise] applies it, the
    result has the shape of the image and every pixel of it is black or
    white, in all channels; no pixel of the image is kept. *)
Theorem heavy_noise_keeps_no_pixel (snr self_p u : Q) (rdn : nat → nat → Q)
    (img : list (list (list Z))) :
  u < self_p →
  1 # 2 < snr →
  Forall2 (Forall2 (λ o px, o = fill 0 px ∨ o = fill 255 px))
    (AddPepperNoise_call snr self_p u rdn img) img.
Proof.
  intros Hu Hsnr. unfold AddPepperNoise_call.
  rewrite (proj2 (Qltb_true _ _) Hu).
  unfold add_salt_pepper_noise.
  apply imap_Forall2. intros i row _.
  apply imap_Forall2. intros j px _.
  destruct (fl.Qltb (rdn i j) snr) eqn:E1; [by left|]. right.
  apply Qltb_false in E1.
  assert (1 - snr < rdn i j) as E2 by lra.
  by rewrite (proj2 (Qltb_true _ _) E2).
Qed.

(** X24. [AddPepperNoise] returns an image of 8-bit channel values as it
    is when its draw is not below [p], and also when the noise level is 0
    or less: no draw in [0, 1) is then below the level or above 1 minus
    the level. *)
Theorem no_noise_keeps_image (snr self_p u : Q) (rdn : nat → nat → Q)
    (img : list (list (list Z))) :
  self_p <= u ∨ snr <= 0 →
  (∀ i j, 0 <= rdn i j ∧ rdn i j < 1) →
  Forall (Forall (Forall (λ v, (0 ≤ v < 256)%Z))) img →
  AddPepperNoise_call snr self_p u rdn img = img.
Proof.
  intros Hcase Hrdn Hbytes. unfold AddPepperNoise_call.
  destruct (fl.Qltb u self_p) eqn:Eu; [|done].
  apply Qltb_true in Eu. destruct Hcase as [Hp|Hsnr]; [lra|].
  unfold add_salt_pepper_noise.
  apply imap_id_on. intros i row Hrow.
  apply imap_id_on. intros j px Hpx.
  destruct (Hrdn i j) as [H0 H1].
  assert (fl.Qltb (rdn i j) snr = false) as -> by (apply Qltb_false; lra).
  assert (fl.Qltb (1 - snr) (rdn i j) = false) as ->
    by (apply Qltb_false; lra).
  apply uint8_byte.
  apply (proj1 (Forall_lookup _ _) Hbytes) in Hrow.
  by apply (proj1 (Forall_lookup _ _) Hrow) in Hpx.
Qed.

Lemma heavy_noise_keeps_no_pixel_witness :
  AddPepperNoise_call 0.75 0.5 0.2 (λ i j, if (i =? j)%nat then 0.3 else 0.8)
    demo_rgb
  = [[[0; 0; 0]; [255; 255; 255]]; [[255; 255; 255]; [0; 0; 0]]]%Z
  ∧ Forall2 (Forall2 (λ o px, o = fill 0 px ∨ o = fill 255 px))
      (AddPepperNoise_call 0.75 0.5 0.2
         (λ i j, if (i =? j)%nat then 0.3 else 0.8) demo_rgb) demo_rgb.
Proof.
  split; [reflexivity|].
  apply (heavy_noise_keeps_no_pixel 0.75 0.5 0.2
           (λ i j, if (i =? j)%nat then 0.3 else 0.8) demo_rgb).
  - reflexivity.
  - reflexivity.
Defined.

Lemma no_noise_keeps_image_witness :
  AddPepperNoise_call 0 0.5 0.2 (λ _ _, 0.3) demo_rgb = demo_rgb.
Proof.
  apply (no_noise_keeps_image 0 0.5 0.2 (λ _ _, 0.3) demo_rgb).
  - right. discriminate.
  - intros i j. split; [discriminate|reflexivity].
  - repeat constructor; lia.
Defined.

(** ** The network *)

Lemma nn_bind_Ok {A B} (m : nn.outcome A) (k : A → nn.outcome B) (b : B) :
  m ≫= k = nn.Ok b → ∃ a, m = nn.Ok a ∧ k a = nn.Ok b.
Proof. destruct m as [a|e]; [eauto | discriminate]. Qed.

Lemma nn_bind_Ok_l {A B} (a : A) (k : A → nn.outcome B) :
  nn.Ok a ≫= k = k a.
Proof. reflexivity. Qed.

Ltac nn_inv H :=
  let a := fresh "a" in
  let E := fresh "E" in
  apply nn_bind_Ok in H as (a & E & H); cbv beta in H.

Lemma down_1 (n : nat) : (1 ≤ n)%nat → down 1 n = n.
Proof. intros Hn. unfold down. rewrite Nat.div_1_r. lia. Qed.

Lemma down_pos (s n : nat) : (1 ≤ down s n)%nat.
Proof. unfold down. lia. Qed.

Lemma down_lower (s n m : nat) :
  s = 1%nat ∨ s = 2%nat → (2 * m - 1 ≤ n)%nat → (1 ≤ m)%nat →
  (m ≤ down s n)%nat.
Proof.
  intros [-> | ->] Hn Hm; unfold down.
  - rewrite Nat.div_1_r. lia.
  - assert (m - 1 ≤ (n - 1) / 2)%nat; [|lia].
    apply Nat.div_le_lower_bound; lia.
Qed.

Lemma single_value (N h w s : nat) :
  (N * (h * w))%nat = 1%nat → (N * (down s h * down s w))%nat = 1%nat.
Proof.
  intros H. apply Nat.eq_mul_1 in H as [-> H].
  apply Nat.eq_mul_1 in H as [-> ->].
  unfold down. simpl. by rewrite Nat.Div0.div_0_l.
Qed.

Lemma window_same (n k s p d : nat) :
  (2 * p = d * (k - 1))%nat → (1 ≤ n)%nat →
  nn.window_out n k s p d = Some (down s n).
Proof.
  intros Hp Hn. unfold nn.window_out, down.
  destruct (Nat.ltb_spec (n + 2 * p) (d * (k - 1) + 1)); [lia|].
  do 3 f_equal. lia.
Qed.

Lemma Conv2d_init_Ok (cin cout k s p d g : nat) (m : nn.Conv2d) :
  nn.Conv2d_init cin cout k s p d g = nn.Ok m →
  m = nn.MkConv2d cin cout k s p d g ∧ (1 ≤ g)%nat.
Proof.
  unfold nn.Conv2d_init.
  destruct (Nat.eqb_spec g 0); [discriminate|].
  destruct (negb _); [discriminate|].
  destruct (negb _); [discriminate|].
  intros [= <-]. split; [done|lia].
Qed.

Lemma Conv2d_init_1 (cin cout k s p d : nat) :
  nn.Conv2d_init cin cout k s p d 1 = nn.Ok (nn.MkConv2d cin cout k s p d 1).
Proof.
  unfold nn.Conv2d_init. change (1 =? 0)%nat with false. cbv iota.
  by rewrite !Nat.mod_1_r.
Qed.

Lemma Conv2d_forward_same (cin cout k s p d g N H W : nat) :
  (2 * p = d * (k - 1))%nat → (1 ≤ s)%nat → (1 ≤ H)%nat → (1 ≤ W)%nat →
  nn.Conv2d_forward (nn.MkConv2d cin cout k s p d g) (nn.Shape4 N cin H W)
  = nn.Ok (nn.Shape4 N cout (down s H) (down s W)).
Proof.
  intros Hp Hs HH HW. unfold nn.Conv2d_forward. simpl.
  rewrite Nat.eqb_refl. simpl.
  destruct (Nat.eqb_spec s 0); [lia|].
  by rewrite !window_same.
Qed.

Lemma BatchNorm2d_forward_Ok (training : bool) (c N H W : nat) :
  training = false ∨ (N * (H * W))%nat ≠ 1%nat →
  nn.BatchNorm2d_forward training c (nn.Shape4 N c H W)
  = nn.Ok (nn.Shape4 N c H W).
Proof.
  intros Hc. unfold nn.BatchNorm2d_forward. simpl.
  rewrite Nat.eqb_refl. simpl.
  destruct Hc as [-> | Hne]; [done|].
  destruct (Nat.eqb_spec (N * (H * W)) 1); [done|].
  by rewrite andb_false_r.
Qed.

Lemma iadd_same (x : nn.shape4) : nn.iadd x x = nn.Ok x.
Proof.
  unfold nn.iadd, nn.broadcasts. by rewrite !Nat.eqb_refl.
Qed.

Lemma Downsample_forward_Ok (training : bool) (cin cout s N H W : nat) :
  (1 ≤ s)%nat → (1 ≤ H)%nat → (1 ≤ W)%nat →
  training = false ∨ (N * (down s H * down s W))%nat ≠ 1%nat →
  nn.Downsample_forward training
    (nn.MkDownsample (nn.MkConv2d cin cout 1 s 0 1 1) cout)
    (nn.Shape4 N cin H W)
  = nn.Ok (nn.Shape4 N cout (down s H) (down s W)).
Proof.
  intros Hs HH HW Hc. unfold nn.Downsample_forward.
  cbn [nn.ds_conv nn.ds_bn].
  rewrite Conv2d_forward_same by (simpl; lia). rewrite nn_bind_Ok_l.
  by apply BatchNorm2d_forward_Ok.
Qed.

(** What the shortcut of a block must be for the block to add two
    tensors of one shape. *)
Lemma block_init_maps (cls : nn.block_class) (cin planes s g bw dil : nat)
    (ds : option nn.Downsample) (b : nn.Block) :
  nn.block_init cls cin planes s ds g bw dil = nn.Ok b →
  (1 ≤ s)%nat →
  match ds with
  | None => s = 1%nat ∧ cin = (planes * nn.expansion cls)%nat
  | Some d =>
      d = nn.MkDownsample
            (nn.MkConv2d cin (planes * nn.expansion cls) 1 s 0 1 1)
            (planes * nn.expansion cls)
  end →
  maps b cin (planes * nn.expansion cls) s
  ∧ Block_downsample b = ds ∧ Block_stride b = s.
Proof.
  intros Hb Hs Hds. destruct cls; unfold nn.block_init in Hb; nn_inv Hb;
    injection Hb as <-.
  - (* BasicBlock *)
    unfold nn.BasicBlock_init in E.
    destruct (negb (g =? 1)%nat || negb (bw =? 64)%nat); [discriminate|].
    destruct (1 <? dil)%nat; [discriminate|].
    unfold nn.conv3x3 in E. rewrite !Conv2d_init_1, !nn_bind_Ok_l in E.
    injection E as <-. split; [|done].
    intros training N H W HH HW Hc.
    unfold nn.Block_forward, nn.BasicBlock_forward.
    cbn [nn.bb_conv1 nn.bb_bn1 nn.bb_conv2 nn.bb_bn2 nn.bb_downsample
         nn.expansion].
    rewrite Nat.mul_1_r.
    rewrite Conv2d_forward_same by (simpl; lia). rewrite nn_bind_Ok_l.
    rewrite BatchNorm2d_forward_Ok by done. rewrite nn_bind_Ok_l.
    rewrite Conv2d_forward_same by (simpl; try apply down_pos; lia).
    rewrite !down_1 by apply down_pos. rewrite nn_bind_Ok_l.
    rewrite BatchNorm2d_forward_Ok by done. rewrite nn_bind_Ok_l.
    destruct ds as [d|].
    + subst d. cbn [nn.expansion]. rewrite Nat.mul_1_r.
      rewrite Downsample_forward_Ok by done.
      rewrite nn_bind_Ok_l. apply iadd_same.
    + destruct Hds as [-> ->]. cbn [nn.expansion].
      rewrite Nat.mul_1_r, nn_bind_Ok_l, !down_1 by done. apply iadd_same.
  - (* Bottleneck *)
    unfold nn.Bottleneck_init in E.
    unfold nn.conv1x1, nn.conv3x3 in E.
    rewrite !Conv2d_init_1, !nn_bind_Ok_l in E.
    nn_inv E. apply Conv2d_init_Ok in E0 as [-> Hg].
    rewrite nn_bind_Ok_l in E. injection E as <-. split; [|done].
    intros training N H W HH HW Hc.
    unfold nn.Block_forward, nn.Bottleneck_forward.
    cbn [nn.bn_conv1 nn.bn_bn1 nn.bn_conv2 nn.bn_bn2 nn.bn_conv3 nn.bn_bn3
         nn.bn_downsample nn.expansion].
    rewrite Conv2d_forward_same by (simpl; lia).
    rewrite !down_1 by done. rewrite nn_bind_Ok_l.
    rewrite BatchNorm2d_forward_Ok; [|destruct Hc as [?|Hc]; [by left|right]].
    2:{ intros H1. apply Hc. by apply single_value. }
    rewrite nn_bind_Ok_l.
    rewrite Conv2d_forward_same by (simpl; lia). rewrite nn_bind_Ok_l.
    rewrite BatchNorm2d_forward_Ok by done. rewrite nn_bind_Ok_l.
    rewrite Conv2d_forward_same by (simpl; try apply down_pos; lia).
    rewrite !down_1 by apply down_pos. rewrite nn_bind_Ok_l.
    rewrite BatchNorm2d_forward_Ok by done. rewrite nn_bind_Ok_l.
    destruct ds as [d|].
    + subst d. cbn [nn.expansion].
      rewrite Downsample_forward_Ok by done.
      rewrite nn_bind_Ok_l. apply iadd_same.
    + destruct Hds as [-> ->]. cbn [nn.expansion].
      rewrite nn_bind_Ok_l, !down_1 by done. apply iadd_same.
Qed.

Lemma nn_mapM_seq {B} (o : nn.outcome B) (n : nat) :
  ∀ a : nat,
    mapM (λ _, o) (seq a n)
    = match n with
      | O => nn.Ok []
      | S _ =>
          match o with
          | nn.Ok b => nn.Ok (replicate n b)
          | nn.Raise e => nn.Raise e
          end
      end.
Proof.
  induction n as [|n IH]; intros a; [done|].
  change (mapM (λ _ : nat, o) (seq a (S n)))
    with (y ← o; k ← mapM (λ _ : nat, o) (seq (S a) n); mret (y :: k)).
  rewrite IH. destruct o as [b|e]; [|done]. by destruct n.
Qed.

(** The blocks [_make_layer] returns, and the attributes it leaves. *)
Lemma make_layer_inv (self self' : nn.attrs) (cls : nn.block_class)
    (planes blocks stride : nat) (dilate : bool) (layer : list nn.Block) :
  nn._make_layer self cls planes blocks stride dilate = nn.Ok (layer, self') →
  (1 ≤ stride)%nat →
  self' = nn.Attrs (planes * nn.expansion cls)
            (if dilate then nn.self_dilation self * stride
             else nn.self_dilation self)%nat
            (nn.self_groups self) (nn.self_base_width self)
  ∧ ∃ first rest,
      layer = first :: rest
      ∧ length rest = (blocks - 1)%nat
      ∧ maps first (nn.self_inplanes self) (planes * nn.expansion cls)
          (if dilate then 1%nat else stride)
      ∧ Block_stride first = (if dilate then 1%nat else stride)
      ∧ (Block_downsample first = None
         ↔ (if dilate then 1%nat else stride) = 1%nat
           ∧ nn.self_inplanes self = (planes * nn.expansion cls)%nat)
      ∧ Forall (λ b, maps b (planes * nn.expansion cls)
                       (planes * nn.expansion cls) 1
                     ∧ Block_downsample b = None
                     ∧ Block_stride b = 1%nat) rest.
Proof.
  intros H Hs. unfold nn._make_layer in H.
  set (s := if dilate then 1%nat else stride).
  set (dil' := (if dilate then nn.self_dilation self * stride
                else nn.self_dilation self)%nat).
  assert (1 ≤ s)%nat as Hs' by (unfold s; destruct dilate; lia).
  assert (∃ ds first,
            match ds with
            | None => s = 1%nat
                      ∧ nn.self_inplanes self = (planes * nn.expansion cls)%nat
            | Some d =>
                d = nn.MkDownsample
                      (nn.MkConv2d (nn.self_inplanes self)
                         (planes * nn.expansion cls) 1 s 0 1 1)
                      (planes * nn.expansion cls)
                ∧ ¬ (s = 1%nat
                     ∧ nn.self_inplanes self
                       = (planes * nn.expansion cls)%nat)
            end
            ∧ nn.block_init cls (nn.self_inplanes self) planes s ds
                (nn.self_groups self) (nn.self_base_width self)
                (nn.self_dilation self) = nn.Ok first
            ∧ (rest ← mapM (λ _, nn.block_init cls
                                   (planes * nn.expansion cls) planes 1 None
                                   (nn.self_groups self)
                                   (nn.self_base_width self) dil')
                        (seq 1 (blocks - 1));
               nn.Ok (first :: rest,
                      nn.Attrs (planes * nn.expansion cls) dil'
                        (nn.self_groups self) (nn.self_base_width self)))
              = nn.Ok (layer, self')) as (ds & first & Hds & Hfirst & Hrest).
  { unfold s, dil'. destruct dilate; cbn [nn.self_inplanes nn.self_dilation
      nn.self_groups nn.self_base_width] in H.
    - destruct (Nat.eqb_spec 1 1) as [_|]; [|done]. cbn [negb orb] in H.
      destruct (Nat.eqb_spec (nn.self_inplanes self)
                  (planes * nn.expansion cls)) as [Heq|Hne];
        cbn [negb] in H.
      + rewrite nn_bind_Ok_l in H. nn_inv H. exists None, a. by repeat split.
      + unfold nn.conv1x1 in H.
        rewrite Conv2d_init_1, !nn_bind_Ok_l in H. nn_inv H.
        eexists (Some _), a. split; [split; [reflexivity|]|by split].
        intros [_ ?]. done.
    - destruct (Nat.eqb_spec stride 1) as [Heq|Hne]; cbn [negb orb] in H.
      + destruct (Nat.eqb_spec (nn.self_inplanes self)
                    (planes * nn.expansion cls)) as [Heq'|Hne'];
          cbn [negb] in H.
        * rewrite nn_bind_Ok_l in H. nn_inv H.
          exists None, a. by repeat split.
        * unfold nn.conv1x1 in H.
          rewrite Conv2d_init_1, !nn_bind_Ok_l in H. nn_inv H.
          eexists (Some _), a. split; [split; [reflexivity|]|by split].
          intros [_ ?]. done.
      + unfold nn.conv1x1 in H.
        rewrite Conv2d_init_1, !nn_bind_Ok_l in H. nn_inv H.
        eexists (Some _), a. split; [split; [reflexivity|]|by split].
        intros [? _]. done. }
  clear H. nn_inv Hrest. injection Hrest as <- <-. split; [done|].
  assert (match ds with
          | None => s = 1%nat
                    ∧ nn.self_inplanes self = (planes * nn.expansion cls)%nat
          | Some d =>
              d = nn.MkDownsample
                    (nn.MkConv2d (nn.self_inplanes self)
                       (planes * nn.expansion cls) 1 s 0 1 1)
                    (planes * nn.expansion cls)
          end) as Hds' by (destruct ds; [apply Hds|done]).
  destruct (block_init_maps _ _ _ _ _ _ _ _ _ Hfirst Hs' Hds')
    as (Hmaps & Hdown & Hstride).
  assert (Block_downsample first = None
          ↔ s = 1%nat
            ∧ nn.self_inplanes self = (planes * nn.expansion cls)%nat)
    as Hiff.
  { rewrite Hdown. destruct ds as [d|]; [|done].
    destruct Hds as [_ Hnot]. split; [discriminate|done]. }
  rewrite nn_mapM_seq in E.
  destruct (blocks - 1)%nat as [|n] eqn:En.
  - injection E as <-. exists first, [].
    do 5 (split; [done|]). constructor.
  - destruct (nn.block_init cls (planes * nn.expansion cls) planes 1 None
                (nn.self_groups self) (nn.self_base_width self) dil')
      as [other|e] eqn:Eo; [|discriminate].
    injection E as <-.
    exists first, (replicate (S n) other).
    rewrite length_replicate. do 5 (split; [done|]).
    apply Forall_replicate.
    by apply (block_init_maps _ _ _ _ _ _ _ _ _ Eo).
Qed.

Lemma Sequential_same (training : bool) (c N H W : nat)
    (rest : list nn.Block) :
  Forall (λ b, maps b c c 1 ∧ Block_downsample b = None
               ∧ Block_stride b = 1%nat) rest →
  (1 ≤ H)%nat → (1 ≤ W)%nat →
  training = false ∨ (N * (H * W))%nat ≠ 1%nat →
  nn.Sequential_forward training rest (nn.Shape4 N c H W)
  = nn.Ok (nn.Shape4 N c H W).
Proof.
  intros Hrest HH HW Hc.
  induction Hrest as [|b rest (Hb & _ & _) _ IH]; [done|].
  cbn [nn.Sequential_forward].
  rewrite (Hb training N H W) by (rewrite ?down_1 by done; done).
  rewrite !down_1 by done. by rewrite nn_bind_Ok_l.
Qed.

(** A layer takes [(N, inplanes, H, W)] to
    [(N, planes * expansion, ceil(H/s), ceil(W/s))], where [s] is 1 when
    the stride is replaced by a dilation. *)
Lemma make_layer_forward (self self' : nn.attrs) (cls : nn.block_class)
    (planes blocks stride : nat) (dilate : bool) (layer : list nn.Block)
    (training : bool) (N H W : nat) :
  nn._make_layer self cls planes blocks stride dilate = nn.Ok (layer, self') →
  (1 ≤ stride)%nat → (1 ≤ H)%nat → (1 ≤ W)%nat →
  training = false
  ∨ (N * (down (if dilate then 1 else stride) H
          * down (if dilate then 1 else stride) W))%nat ≠ 1%nat →
  nn.Sequential_forward training layer
    (nn.Shape4 N (nn.self_inplanes self) H W)
  = nn.Ok (nn.Shape4 N (planes * nn.expansion cls)
             (down (if dilate then 1 else stride) H)
             (down (if dilate then 1 else stride) W)).
Proof.
  intros Hl Hs HH HW Hc.
  apply make_layer_inv in Hl
    as (_ & first & rest & -> & _ & Hfirst & _ & _ & Hrest); [|done].
  cbn [nn.Sequential_forward].
  rewrite (Hfirst training N H W) by done. rewrite nn_bind_Ok_l.
  apply Sequential_same; [done|apply down_pos|apply down_pos|done].
Qed.

Lemma several_values (training : bool) (m N h w : nat) :
  training = false ∨ (2 ≤ N)%nat ∨ (m ≤ h)%nat → (2 ≤ m)%nat →
  training = false ∨ (N * (h * w))%nat ≠ 1%nat.
Proof.
  intros [Ht|[Hn|Hh]] Hm; [by left|right|right]; intros Hone;
    apply Nat.eq_mul_1 in Hone as [? Hone];
    apply Nat.eq_mul_1 in Hone as [? ?]; lia.
Qed.

Lemma stride_or_dilation (dilate : bool) :
  (if dilate then 1%nat else 2%nat) = 1%nat
  ∨ (if dilate then 1%nat else 2%nat) = 2%nat.
Proof. destruct dilate; auto. Qed.

(** The parts of a network [ResNet.__init__] returns. *)
Lemma ResNet_init_inv (cls : nn.block_class) (layers : list nat)
    (num_classes groups width : nat) (rswd : option (list bool))
    (net : nn.ResNet) :
  nn.ResNet_init cls layers num_classes groups width rswd = nn.Ok net →
  ∃ l0 l1 l2 l3 f0 f1 f2 a1 a2 a3 a4,
    layers !! 0%nat = Some l0 ∧ layers !! 1%nat = Some l1
    ∧ layers !! 2%nat = Some l2 ∧ layers !! 3%nat = Some l3
    ∧ (rswd = None ∧ f0 = false ∧ f1 = false ∧ f2 = false
       ∨ rswd = Some [f0; f1; f2])
    ∧ nn.conv1 net = nn.MkConv2d 4 64 7 2 3 1 1
    ∧ nn.bn1 net = 64%nat
    ∧ nn._make_layer (nn.Attrs 64 1 groups width) cls 64 l0 1 false
      = nn.Ok (nn.layer1 net, a1)
    ∧ nn._make_layer a1 cls 128 l1 2 f0 = nn.Ok (nn.layer2 net, a2)
    ∧ nn._make_layer a2 cls 256 l2 2 f1 = nn.Ok (nn.layer3 net, a3)
    ∧ nn._make_layer a3 cls 512 l3 2 f2 = nn.Ok (nn.layer4 net, a4)
    ∧ nn.fc net = nn.MkLinear (512 * nn.expansion cls) 14
    ∧ nn.fc2 net = nn.MkLinear 28 num_classes.
Proof.
  intros H. unfold nn.ResNet_init in H.
  set (flags := match rswd with Some l => l | None => [false; false; false] end)
    in H.
  destruct (Nat.eqb_spec (length flags) 3) as [Hlen|]; [|discriminate].
  cbn [negb nn.self_inplanes] in H.
  rewrite Conv2d_init_1, nn_bind_Ok_l in H.
  unfold nn.item in H.
  destruct flags as [|f0 [|f1 [|f2 [|]]]] eqn:Ef; try discriminate.
  destruct (layers !! 0%nat) as [l0|] eqn:L0; [|discriminate].
  rewrite nn_bind_Ok_l in H. nn_inv H. destruct a as [layer1 a1].
  destruct (layers !! 1%nat) as [l1|] eqn:L1; [|discriminate].
  rewrite nn_bind_Ok_l in H. cbn [lookup list_lookup] in H.
  rewrite nn_bind_Ok_l in H. nn_inv H. destruct a as [layer2 a2].
  destruct (layers !! 2%nat) as [l2|] eqn:L2; [|discriminate].
  rewrite !nn_bind_Ok_l in H. nn_inv H. destruct a as [layer3 a3].
  destruct (layers !! 3%nat) as [l3|] eqn:L3; [|discriminate].
  rewrite !nn_bind_Ok_l in H. nn_inv H. destruct a as [layer4 a4].
  injection H as <-.
  exists l0, l1, l2, l3, f0, f1, f2, a1, a2, a3, a4.
  cbn [nn.conv1 nn.bn1 nn.layer1 nn.layer2 nn.layer3 nn.layer4 nn.fc nn.fc2].
  repeat split; try done.
  unfold flags in Ef. destruct rswd as [l|]; [right; by subst|left].
  by injection Ef as <- <- <-.
Qed.

Lemma bound_step (training : bool) (s N n m k : nat) :
  training = false ∨ (2 ≤ N)%nat ∨ (k ≤ n)%nat →
  s = 1%nat ∨ s = 2%nat → (2 * m - 1 ≤ k)%nat → (1 ≤ m)%nat →
  training = false ∨ (2 ≤ N)%nat ∨ (m ≤ down s n)%nat.
Proof.
  intros [?|[?|?]] Hs Hk Hm; [by left|right; by left|right; right].
  apply down_lower; [done|lia|done].
Qed.

Lemma bound_keep (training : bool) (N n k : nat) :
  training = false ∨ (2 ≤ N)%nat ∨ (k ≤ n)%nat → (1 ≤ k)%nat →
  training = false ∨ (2 ≤ N)%nat ∨ (k ≤ down 1 n)%nat.
Proof.
  intros [?|[?|?]] Hk; [by left|right; by left|right; right].
  rewrite down_1; lia.
Qed.

(** X25. A network that [ResNet.__init__] has built, with either block
    class and any layer sizes, takes a batch of [N] images of 4 channels
    and any size, together with [N] vectors of 14 features, to [N] rows of
    [num_classes] logits; with another number of channels, of vectors or
    of features the forward pass raises [RuntimeError].  This holds in
    evaluation mode, and in training mode for batches of two images or
    more or images of 33 rows or more. *)
Theorem forward_shape (block : nn.block_class) (layers : list nat)
    (kw : nn.kwargs) (net : nn.ResNet) (training : bool)
    (N C H W M K : nat) :
  nn.ResNet_kw block layers kw = nn.Ok net →
  (1 ≤ nn.kw_width_per_group kw)%nat →
  (1 ≤ N)%nat → (1 ≤ H)%nat → (1 ≤ W)%nat →
  training = false ∨ (2 ≤ N)%nat ∨ (33 ≤ H)%nat →
  nn.forward training net (nn.Shape4 N C H W) (nn.Shape2 M K)
  = if (C =? 4)%nat && (M =? N)%nat && (K =? 14)%nat
    then nn.Ok (nn.Shape2 N (nn.kw_num_classes kw))
    else nn.Raise nn.RuntimeError.
Proof.
  intros Hnet _ _ HH HW Hc. unfold nn.ResNet_kw in Hnet.
  apply ResNet_init_inv in Hnet
    as (l0 & l1 & l2 & l3 & f0 & f1 & f2 & a1 & a2 & a3 & a4
        & _ & _ & _ & _ & _ & Hconv1 & Hbn1 & H1 & H2 & H3 & H4
        & Hfc & Hfc2).
  unfold nn.forward. rewrite Hconv1, Hbn1, Hfc, Hfc2.
  destruct (Nat.eqb_spec C 4) as [->|HC].
  2:{ unfold nn.Conv2d_forward. cbn [nn.dim_c nn.in_channels].
      by rewrite (proj2 (Nat.eqb_neq C 4) HC). }
  pose proof (bound_step training 2 N H 17 33 Hc
                ltac:(by right) ltac:(lia) ltac:(lia)) as B1.
  pose proof (bound_step training 2 N _ 9 17 B1
                ltac:(by right) ltac:(lia) ltac:(lia)) as B2.
  pose proof (bound_keep training N _ 9 B2 ltac:(lia)) as B3.
  pose proof (bound_step training _ N _ 5 9 B3
                (stride_or_dilation f0) ltac:(lia) ltac:(lia)) as B4.
  pose proof (bound_step training _ N _ 3 5 B4
                (stride_or_dilation f1) ltac:(lia) ltac:(lia)) as B5.
  pose proof (bound_step training _ N _ 2 3 B5
                (stride_or_dilation f2) ltac:(lia) ltac:(lia)) as B6.
  rewrite Conv2d_forward_same by (simpl; lia). rewrite nn_bind_Ok_l.
  rewrite BatchNorm2d_forward_Ok
    by (apply (several_values training 17); [done|lia]).
  rewrite nn_bind_Ok_l.
  unfold nn.MaxPool2d_forward. cbn [nn.dim_n nn.dim_c nn.dim_h nn.dim_w].
  rewrite !window_same by (simpl; try apply down_pos; lia).
  rewrite nn_bind_Ok_l.
  pose proof (make_layer_inv _ _ _ _ _ _ _ _ H1 ltac:(lia)) as [Ha1 _].
  subst a1.
  pose proof (make_layer_inv _ _ _ _ _ _ _ _ H2 ltac:(lia)) as [Ha2 _].
  subst a2.
  pose proof (make_layer_inv _ _ _ _ _ _ _ _ H3 ltac:(lia)) as [Ha3 _].
  subst a3.
  pose proof (make_layer_forward _ _ _ _ _ _ _ _ training N
                (down 2 (down 2 H))
                (down 2 (down 2 W)) H1
                ltac:(lia) (down_pos _ _) (down_pos _ _)
                (several_values training 9 N _ _ B3 ltac:(lia))) as F.
  cbn [nn.self_inplanes] in F. rewrite F, nn_bind_Ok_l. clear F.
  pose proof (make_layer_forward _ _ _ _ _ _ _ _ training N
                (down 1 (down 2 (down 2 H)))
                (down 1 (down 2 (down 2 W))) H2
                ltac:(lia) (down_pos _ _) (down_pos _ _)
                (several_values training 5 N _ _ B4 ltac:(lia))) as F.
  cbn [nn.self_inplanes] in F. rewrite F, nn_bind_Ok_l. clear F.
  pose proof (make_layer_forward _ _ _ _ _ _ _ _ training N
                (down (if f0 then 1 else 2) (down 1 (down 2 (down 2 H))))
                (down (if f0 then 1 else 2) (down 1 (down 2 (down 2 W)))) H3
                ltac:(lia) (down_pos _ _) (down_pos _ _)
                (several_values training 3 N _ _ B5 ltac:(lia))) as F.
  cbn [nn.self_inplanes] in F. rewrite F, nn_bind_Ok_l. clear F.
  pose proof (make_layer_forward _ _ _ _ _ _ _ _ training N
                (down (if f1 then 1 else 2) (down (if f0 then 1 else 2) (down 1 (down 2 (down 2 H)))))
                (down (if f1 then 1 else 2) (down (if f0 then 1 else 2) (down 1 (down 2 (down 2 W))))) H4
                ltac:(lia) (down_pos _ _) (down_pos _ _)
                (several_values training 2 N _ _ B6 ltac:(lia))) as F.
  cbn [nn.self_inplanes] in F. rewrite F, nn_bind_Ok_l. clear F.
  unfold nn.AdaptiveAvgPool2d_forward, nn.flatten, nn.Linear_forward,
    nn.cat1.
  cbn [nn.dim_n nn.dim_c nn.dim_h nn.dim_w nn.dim_rows nn.dim_features
       nn.in_features nn.out_features].
  rewrite !Nat.mul_1_r, Nat.eqb_refl. cbn [negb]. rewrite nn_bind_Ok_l.
  cbn [nn.dim_rows nn.dim_features].
  rewrite (Nat.eqb_sym M N).
  destruct (Nat.eqb_spec N M) as [<-|HM]; cbn [negb andb]; [|done].
  rewrite nn_bind_Ok_l. cbn [nn.dim_rows nn.dim_features].
  destruct (Nat.eqb_spec K 14) as [->|HK].
  - done.
  - replace (14 + K =? 28)%nat with false; [done|].
    symmetry. apply Nat.eqb_neq. lia.
Qed.

Lemma forward_shape_witness :
  ∃ net,
    nn.resnet50 nn.defaults = nn.Ok net
    ∧ nn.forward true net (nn.Shape4 16 4 160 160) (nn.Shape2 16 14)
      = nn.Ok (nn.Shape2 16 2)
    ∧ nn.forward true net (nn.Shape4 16 4 160 160) (nn.Shape2 16 13)
      = nn.Raise nn.RuntimeError.
Proof.
  eexists. split; [vm_compute; reflexivity|]. split.
  - refine (forward_shape nn.Bottleneck_class [3; 4; 6; 3]%nat nn.defaults
              _ true 16 4 160 160 16 14 _ _ _ _ _ _).
    + vm_compute; reflexivity.
    + simpl; lia.
    + lia.
    + lia.
    + lia.
    + right. left. lia.
  - vm_compute; reflexivity.
Defined.

(** X26. [_make_layer] returns at least one block, also for [blocks] = 0:
    [max(1, blocks)] of them.  It leaves [inplanes] at
    [planes * expansion] and multiplies [dilation] by the stride when
    [dilate] is set; the first block has the stride (1 under [dilate]) and
    has a shortcut convolution exactly when that stride is not 1 or the
    channel numbers differ; the others have stride 1 and none. *)
Theorem make_layer_blocks (self self' : nn.attrs) (block : nn.block_class)
    (planes blocks stride : nat) (dilate : bool) (layer : list nn.Block) :
  nn._make_layer self block planes blocks stride dilate
  = nn.Ok (layer, self') →
  (1 ≤ stride)%nat →
  length layer = Nat.max 1 blocks
  ∧ nn.self_inplanes self' = (planes * nn.expansion block)%nat
  ∧ nn.self_dilation self'
    = (if dilate then nn.self_dilation self * stride
       else nn.self_dilation self)%nat
  ∧ ∃ first rest,
      layer = first :: rest
      ∧ Block_stride first = (if dilate then 1%nat else stride)
      ∧ (Block_downsample first = None
         ↔ (if dilate then 1%nat else stride) = 1%nat
           ∧ nn.self_inplanes self = (planes * nn.expansion block)%nat)
      ∧ Forall (λ b, Block_downsample b = None ∧ Block_stride b = 1%nat)
          rest.
Proof.
  intros H Hs.
  apply make_layer_inv in H
    as (-> & first & rest & -> & Hlen & _ & Hstride & Hdown & Hrest);
    [|done].
  split; [simpl; lia|]. split; [done|]. split; [done|].
  exists first, rest. do 3 (split; [done|]).
  eapply Forall_impl; [exact Hrest|]. by intros b (_ & ? & ?).
Qed.

Lemma make_layer_blocks_witness :
  ∃ layer self',
    nn._make_layer (nn.Attrs 64 1 1 64) nn.Bottleneck_class 64 0 1 false
    = nn.Ok (layer, self')
    ∧ length layer = 1%nat
    ∧ length layer = Nat.max 1 0
    ∧ nn.self_inplanes self' = (64 * nn.expansion nn.Bottleneck_class)%nat
    ∧ nn.self_dilation self' = 1%nat
    ∧ ∃ first rest,
        layer = first :: rest
        ∧ Block_stride first = 1%nat
        ∧ (Block_downsample first = None
           ↔ 1%nat = 1%nat
             ∧ 64%nat = (64 * nn.expansion nn.Bottleneck_class)%nat)
        ∧ Forall (λ b, Block_downsample b = None ∧ Block_stride b = 1%nat)
            rest.
Proof.
  eexists _, _. split; [vm_compute; reflexivity|].
  split; [reflexivity|].
  refine (make_layer_blocks (nn.Attrs 64 1 1 64) _ nn.Bottleneck_class
            64 0 1 false _ _ _).
  - vm_compute; reflexivity.
  - lia.
Defined.

Lemma raised_bind {A B} (m : nn.outcome A) (k : A → nn.outcome B) :
  raised (m ≫= k)
  = match m with
    | nn.Ok a => raised (k a)
    | nn.Raise e => Some e
    end.
Proof. by destruct m. Qed.

(** [_make_layer] with [BasicBlock]: the first block refuses the dilation
    the layers before have left, the others the dilation of this
    layer. *)
Lemma make_layer_basic (ip dil planes blocks stride : nat) (dilate : bool) :
  raised (nn._make_layer (nn.Attrs ip dil 1 64) nn.BasicBlock_class planes
            blocks stride dilate)
  = if (1 <? dil)%nat
       || (1 <? (if dilate then dil * stride else dil))%nat
          && (2 <=? blocks)%nat
    then Some nn.NotImplementedError else None.
Proof.
  unfold nn._make_layer.
  cbn [nn.self_inplanes nn.self_dilation nn.self_groups nn.self_base_width].
  set (dil' := (if dilate then dil * stride else dil)%nat).
  assert (∀ (s : nat) (ds : option nn.Downsample)
            (k : nn.Block → nn.outcome (list nn.Block * nn.attrs)),
            raised (first ← nn.block_init nn.BasicBlock_class ip planes s ds
                              1 64 dil; k first)
            = if (1 <? dil)%nat then Some nn.NotImplementedError
              else raised (k (nn.Basic (nn.MkBasicBlock
                                 (nn.MkConv2d ip planes 3 s 1 1 1) planes
                                 (nn.MkConv2d planes planes 3 1 1 1 1) planes
                                 ds s)))) as Hfirst.
  { intros s ds k. unfold nn.block_init, nn.BasicBlock_init.
    cbn [Nat.eqb negb orb]. destruct (1 <? dil)%nat; [done|].
    unfold nn.conv3x3. by rewrite !Conv2d_init_1, !nn_bind_Ok_l. }
  assert (∀ (first : nn.Block) (a : nn.attrs),
            raised (rest ← mapM (λ _, nn.block_init nn.BasicBlock_class
                                        (planes * 1) planes 1 None 1 64 dil')
                             (seq 1 (blocks - 1));
                    nn.Ok (first :: rest, a))
            = if (1 <? dil')%nat && (2 <=? blocks)%nat
              then Some nn.NotImplementedError else None) as Hrest.
  { intros first a. rewrite nn_mapM_seq.
    destruct (Nat.leb_spec 2 blocks) as [Hb|Hb].
    - destruct (blocks - 1)%nat as [|n] eqn:En; [lia|].
      unfold nn.block_init, nn.BasicBlock_init.
      cbn [Nat.eqb negb orb]. destruct (1 <? dil')%nat; [done|].
      unfold nn.conv3x3. by rewrite !Conv2d_init_1, !nn_bind_Ok_l.
    - replace (blocks - 1)%nat with 0%nat by lia.
      by rewrite andb_false_r. }
  assert (∀ s, raised
            (downsample ←
               (if negb (s =? 1)%nat
                   || negb (ip =? planes * nn.expansion nn.BasicBlock_class)%nat
                then
                  conv ← nn.conv1x1 ip
                           (planes * nn.expansion nn.BasicBlock_class) s;
                  nn.Ok (Some (nn.MkDownsample conv
                                 (planes
                                  * nn.expansion nn.BasicBlock_class)))
                else nn.Ok None);
             first ← nn.block_init nn.BasicBlock_class ip planes s downsample
                       1 64 dil;
             rest ← mapM (λ _, nn.block_init nn.BasicBlock_class
                                 (planes * nn.expansion nn.BasicBlock_class)
                                 planes 1 None 1 64 dil')
                      (seq 1 (blocks - 1));
             nn.Ok (first :: rest,
                    nn.Attrs (planes * nn.expansion nn.BasicBlock_class)
                      dil' 1 64))
          = if (1 <? dil)%nat || (1 <? dil')%nat && (2 <=? blocks)%nat
            then Some nn.NotImplementedError else None) as Hall.
  { intros s. cbn [nn.expansion].
    destruct (negb (s =? 1)%nat || negb (ip =? planes * 1)%nat).
    - unfold nn.conv1x1. rewrite Conv2d_init_1, !nn_bind_Ok_l.
      rewrite Hfirst. destruct (1 <? dil)%nat; [done|]. apply Hrest.
    - rewrite nn_bind_Ok_l, Hfirst.
      destruct (1 <? dil)%nat; [done|]. apply Hrest. }
  unfold dil' in *. destruct dilate; apply Hall.
Qed.

Lemma make_layer_basic_refused (ip dil g w planes blocks stride : nat)
    (dilate : bool) :
  negb (g =? 1)%nat || negb (w =? 64)%nat = true →
  raised (nn._make_layer (nn.Attrs ip dil g w) nn.BasicBlock_class planes
            blocks stride dilate)
  = Some nn.ValueError.
Proof.
  intros Hbad. unfold nn._make_layer.
  cbn [nn.self_inplanes nn.self_dilation nn.self_groups nn.self_base_width].
  assert (∀ s ds (k : nn.Block → nn.outcome (list nn.Block * nn.attrs)),
            raised (first ← nn.block_init nn.BasicBlock_class ip planes s ds
                              g w dil; k first)
            = Some nn.ValueError) as Hfirst.
  { intros s ds k. unfold nn.block_init, nn.BasicBlock_init.
    by rewrite Hbad. }
  destruct dilate;
    cbn [nn.self_inplanes nn.self_dilation nn.self_groups
         nn.self_base_width];
    match goal with
    | |- context [if ?c then _ else _] => destruct c
    end;
    unfold nn.conv1x1;
    rewrite ?Conv2d_init_1, ?nn_bind_Ok_l; apply Hfirst.
Qed.

Ltac basic_stage L1 L2 L3 :=
  rewrite raised_bind;
  match goal with
  | |- context [nn._make_layer (nn.Attrs ?ip ?dil 1 64) nn.BasicBlock_class
                  ?p ?b ?s ?d] =>
      let R := fresh "R" in
      let E := fresh "E" in
      pose proof (make_layer_basic ip dil p b s d) as R;
      destruct (nn._make_layer (nn.Attrs ip dil 1 64) nn.BasicBlock_class
                  p b s d) as [[? ?]|?] eqn:E;
      rewrite ?L1, ?L2, ?L3 in R; cbn in R;
      [ first
          [ discriminate R
          | apply make_layer_inv in E as [-> _]; [|lia];
            cbn [nn.self_inplanes nn.self_dilation nn.self_groups
                 nn.self_base_width nn.expansion Nat.mul Nat.add] ]
      | first [ discriminate R | injection R as ->; reflexivity ] ]
  end.

Lemma basic_resnet_outcome (l0 l1 l2 l3 : nat) (kw : nn.kwargs) :
  raised (nn.ResNet_kw nn.BasicBlock_class [l0; l1; l2; l3] kw)
  = match flags_of kw with
    | [f0; f1; f2] =>
        if negb (nn.kw_groups kw =? 1)%nat
           || negb (nn.kw_width_per_group kw =? 64)%nat
        then Some nn.ValueError
        else if f0 || f1 || f2 && (2 <=? l3)%nat
             then Some nn.NotImplementedError
             else None
    | _ => Some nn.ValueError
    end.
Proof.
  unfold nn.ResNet_kw, nn.ResNet_init, flags_of.
  destruct kw as [nc g w rswd].
  cbn [nn.kw_num_classes nn.kw_groups nn.kw_width_per_group
       nn.kw_replace_stride_with_dilation].
  set (flags := match rswd with Some l => l | None => [false; false; false] end).
  destruct flags as [|f0 [|f1 [|f2 [|]]]]; try reflexivity.
  cbn [length Nat.eqb negb nn.self_inplanes].
  rewrite Conv2d_init_1, nn_bind_Ok_l.
  unfold nn.item. cbn [lookup list_lookup]. rewrite !nn_bind_Ok_l.
  destruct (negb (g =? 1)%nat || negb (w =? 64)%nat) eqn:Hbad.
  { rewrite raised_bind.
    pose proof (make_layer_basic_refused 64 1 g w 64 l0 1 false Hbad) as R.
    destruct (nn._make_layer _ _ _ _ _ _) as [[? ?]|?]; [discriminate|].
    by injection R as ->. }
  apply orb_false_elim in Hbad as [Hg Hw].
  apply negb_false_iff, Nat.eqb_eq in Hg, Hw. subst g w.
  destruct (2 <=? l1)%nat eqn:L1, (2 <=? l2)%nat eqn:L2,
    (2 <=? l3)%nat eqn:L3, f0, f1, f2;
    cbn [orb andb];
    basic_stage L1 L2 L3;
    repeat (rewrite ?nn_bind_Ok_l; basic_stage L1 L2 L3);
    reflexivity.
Qed.

(** X27. [resnet18] and [resnet34] can only be built with the defaults:
    with [groups] other than 1 or [width_per_group] other than 64 the
    first block raises [ValueError], as does a list of flags that has not
    three entries, and with any stride replaced by a dilation a block
    raises [NotImplementedError]. *)
Theorem basic_resnets_accept_defaults_only (kw : nn.kwargs) :
  raised (nn.resnet18 kw) = raised (nn.resnet34 kw)
  ∧ raised (nn.resnet18 kw)
    = match flags_of kw with
      | [f0; f1; f2] =>
          if negb (nn.kw_groups kw =? 1)%nat
             || negb (nn.kw_width_per_group kw =? 64)%nat
          then Some nn.ValueError
          else if f0 || f1 || f2 then Some nn.NotImplementedError
               else None
      | _ => Some nn.ValueError
      end.
Proof.
  unfold nn.resnet18, nn.resnet34. rewrite !basic_resnet_outcome.
  split; [done|].
  destruct (flags_of kw) as [|f0 [|f1 [|f2 [|]]]]; try done.
  change (2 <=? 2)%nat with true. by rewrite andb_true_r.
Qed.

Lemma Conv2d_init_mul (q k s p d g : nat) :
  (1 ≤ g)%nat →
  nn.Conv2d_init (q * g) (q * g) k s p d g
  = nn.Ok (nn.MkConv2d (q * g) (q * g) k s p d g).
Proof.
  intros Hg. unfold nn.Conv2d_init.
  destruct (Nat.eqb_spec g 0); [lia|].
  by rewrite Nat.Div0.mod_mul.
Qed.

Lemma Bottleneck_init_Ok (ip planes s g bw dil : nat)
    (ds : option nn.Downsample) :
  (1 ≤ g)%nat →
  ∃ b, nn.block_init nn.Bottleneck_class ip planes s ds g bw dil = nn.Ok b.
Proof.
  intros Hg. unfold nn.block_init, nn.Bottleneck_init, nn.conv1x1, nn.conv3x3.
  rewrite !Conv2d_init_1, !nn_bind_Ok_l.
  rewrite Conv2d_init_mul by done. rewrite !nn_bind_Ok_l. eauto.
Qed.

Lemma make_layer_bottleneck (ip dil g bw planes blocks stride : nat)
    (dilate : bool) :
  (1 ≤ g)%nat →
  ∃ layer,
    nn._make_layer (nn.Attrs ip dil g bw) nn.Bottleneck_class planes blocks
      stride dilate
    = nn.Ok (layer,
             nn.Attrs (planes * 4)
               (if dilate then dil * stride else dil)%nat g bw).
Proof.
  intros Hg. unfold nn._make_layer.
  assert (∀ s dil' (ds : nn.outcome (option nn.Downsample)),
            (∃ d, ds = nn.Ok d) →
            ∃ layer,
              (downsample ← ds;
               first ← nn.block_init nn.Bottleneck_class ip planes s
                         downsample g bw dil;
               rest ← mapM (λ _, nn.block_init nn.Bottleneck_class
                                   (planes * 4) planes 1 None g bw dil')
                        (seq 1 (blocks - 1));
               nn.Ok (first :: rest, nn.Attrs (planes * 4) dil' g bw))
              = nn.Ok (layer, nn.Attrs (planes * 4) dil' g bw)) as Hall.
  { intros s dil' ds [d ->]. rewrite nn_bind_Ok_l.
    destruct (Bottleneck_init_Ok ip planes s g bw dil d Hg) as [b ->].
    rewrite nn_bind_Ok_l, nn_mapM_seq.
    destruct (blocks - 1)%nat; [by eexists|].
    destruct (Bottleneck_init_Ok (planes * 4) planes 1 g bw dil' None Hg)
      as [b' ->].
    by eexists. }
  destruct dilate;
    cbn [nn.self_inplanes nn.self_dilation nn.self_groups
         nn.self_base_width nn.expansion];
    apply Hall;
    match goal with
    | |- context [if ?c then _ else _] => destruct c
    end;
    unfold nn.conv1x1; rewrite ?Conv2d_init_1, ?nn_bind_Ok_l; eauto.
Qed.

(** X28. A network of [Bottleneck] blocks is built for every number of
    groups from 1 on, every width and every choice of dilations:
    [ResNet.__init__] raises [ValueError] when the list of flags has not
    three entries and [IndexError] when [layers] has fewer than four, and
    nothing else.  The network it returns has [max(1, n)] blocks in a
    layer of size [n] and a first linear layer of 2048 inputs. *)
Theorem bottleneck_resnet_outcome (layers : list nat) (kw : nn.kwargs) :
  (1 ≤ nn.kw_groups kw)%nat →
  raised (nn.ResNet_kw nn.Bottleneck_class layers kw)
  = (if negb (length (flags_of kw) =? 3)%nat then Some nn.ValueError
     else if (length layers <? 4)%nat then Some nn.IndexError
          else None)
  ∧ ∀ net,
      nn.ResNet_kw nn.Bottleneck_class layers kw = nn.Ok net →
      nn.fc net = nn.MkLinear 2048 14
      ∧ length <$> [nn.layer1 net; nn.layer2 net; nn.layer3 net;
                    nn.layer4 net]
        = Nat.max 1 <$> take 4 layers.
Proof.
  intros Hg. split.
  - unfold nn.ResNet_kw, nn.ResNet_init, flags_of.
    destruct kw as [nc g w rswd].
    cbn [nn.kw_num_classes nn.kw_groups nn.kw_width_per_group
         nn.kw_replace_stride_with_dilation] in *.
    set (flags := match rswd with
                  | Some l => l
                  | None => [false; false; false]
                  end).
    destruct flags as [|f0 [|f1 [|f2 [|]]]]; try reflexivity.
    cbn [length Nat.eqb negb nn.self_inplanes].
    rewrite Conv2d_init_1, nn_bind_Ok_l. unfold nn.item.
    destruct layers as [|l0 layers]; [done|].
    cbn [lookup list_lookup]. rewrite !nn_bind_Ok_l.
    destruct (make_layer_bottleneck 64 1 g w 64 l0 1 false Hg) as [y1 ->].
    rewrite nn_bind_Ok_l.
    destruct layers as [|l1 layers]; [done|].
    cbn [lookup list_lookup]. rewrite !nn_bind_Ok_l.
    destruct (make_layer_bottleneck (64 * 4) 1 g w 128 l1 2 f0 Hg)
      as [y2 ->].
    rewrite nn_bind_Ok_l.
    destruct layers as [|l2 layers]; [done|].
    cbn [lookup list_lookup]. rewrite !nn_bind_Ok_l.
    destruct (make_layer_bottleneck (128 * 4) (if f0 then 1 * 2 else 1)
                g w 256 l2 2 f1 Hg) as [y3 ->].
    rewrite nn_bind_Ok_l.
    destruct layers as [|l3 layers]; [done|].
    cbn [lookup list_lookup]. rewrite !nn_bind_Ok_l.
    destruct (make_layer_bottleneck (256 * 4)
                (if f1 then (if f0 then 1 * 2 else 1) * 2
                 else if f0 then 1 * 2 else 1)
                g w 512 l3 2 f2 Hg) as [y4 ->].
    done.
  - intros net Hnet. unfold nn.ResNet_kw in Hnet.
    apply ResNet_init_inv in Hnet
      as (l0 & l1 & l2 & l3 & f0 & f1 & f2 & a1 & a2 & a3 & a4
          & L0 & L1 & L2 & L3 & _ & _ & _ & H1 & H2 & H3 & H4 & Hfc & _).
    split; [by rewrite Hfc|].
    destruct layers as [|? [|? [|? [|? rest]]]]; try discriminate.
    injection L0 as ->. injection L1 as ->.
    injection L2 as ->. injection L3 as ->.
    apply make_layer_inv in H1 as (_ & ? & ? & E1 & N1 & _); [|lia].
    apply make_layer_inv in H2 as (_ & ? & ? & E2 & N2 & _); [|lia].
    apply make_layer_inv in H3 as (_ & ? & ? & E3 & N3 & _); [|lia].
    apply make_layer_inv in H4 as (_ & ? & ? & E4 & N4 & _); [|lia].
    rewrite E1, E2, E3, E4. cbn [fmap list_fmap take length].
    rewrite N1, N2, N3, N4.
    repeat match goal with |- _ :: _ = _ :: _ => f_equal end; lia.
Qed.

Lemma bottleneck_resnet_outcome_witness :
  raised (nn.resnet101 nn.defaults) = None
  ∧ raised (nn.ResNet_kw nn.Bottleneck_class [3; 4; 23]%nat nn.defaults)
    = Some nn.IndexError
  ∧ ∀ net,
      nn.resnet101 nn.defaults = nn.Ok net →
      nn.fc net = nn.MkLinear 2048 14
      ∧ length <$> [nn.layer1 net; nn.layer2 net; nn.layer3 net;
                    nn.layer4 net]
        = Nat.max 1 <$> take 4 [3; 4; 23; 3]%nat.
Proof.
  split; [vm_compute; reflexivity|]. split; [vm_compute; reflexivity|].
  apply (bottleneck_resnet_outcome [3; 4; 23; 3]%nat nn.defaults).
  simpl. lia.
Defined.
